(** * Pass/fail statistics of a test-execution tree

    A shallow embedding of [src/robot/model/statistics.py]: the counters
    ([Stat] and its variants), the suite aggregator ([StatisticsBuilder],
    [SuiteStatistics]), the tag aggregator ([TagStatistics]) and the tag
    decorator ([TagStatInfo], [TagStatLink]) with its wildcard compiler.

    Python integers are unbounded, so counters are [Z].  Python objects that
    are mutated while several references to them exist (the
    [SuiteStatistics] nodes) live in an explicit store. *)

From Stdlib Require Import ZArith Lia String Ascii List Bool Sorted Permutation.
From stdpp Require Import gmap strings list fin_maps.

Open Scope string_scope.
Open Scope Z_scope.
Open Scope list_scope.

(** ** Tests, as the statistics code reads them *)

Module Test.
(** The three attributes of a test that the statistics read:
    [test.status], [test.critical] (compared with ['yes']) and
    [test.tags]; [name] only tells tests apart. *)
Record t := mk {
  name : string;
  status : string;
  critical : string;
  tags : list string
}.
End Test.

(** ** [class Stat] *)

Module Stat.
Record t := mk {
  name : string;
  passed : Z;
  failed : Z
}.

(** [Stat.__init__] *)
Definition init (name : string) : t := mk name 0 0.

(** [Stat.total] *)
Definition total (self : t) : Z := passed self + failed self.

(** [Stat.add_stat] *)
Definition add_stat (self other : t) : t :=
  mk (name self) (passed self + passed other) (failed self + failed other).

(** [Stat.add_test] *)
Definition add_test (self : t) (test : Test.t) : t :=
  if String.eqb (Test.status test) "PASS"
  then mk (name self) (passed self + 1) (failed self)
  else mk (name self) (passed self) (failed self + 1).

(** [Stat.fail_all]: two assignments, in the order of the source. *)
Definition fail_all (self : t) : t :=
  let self1 := mk (name self) (passed self) (failed self + passed self) in
  mk (name self1) 0 (failed self1).

(** [Stat.__nonzero__] *)
Definition nonzero (self : t) : bool := failed self =? 0.

(** [Stat.__cmp__] *)
Definition cmp (self other : t) : comparison :=
  String.compare (name self) (name other).
End Stat.

(** ** [class SuiteStat(Stat)] *)

Module SuiteStat.
(** The counters of [Stat] with the suite's identity: [Stat.name] holds
    [suite.longname]; [_attrs] holds [suite.name] under ['name'] ([id] is
    stored both as [self.id] and under ['idx']). *)
Record t := mk {
  base : Stat.t;
  id : string;
  attrs_name : string
}.

Definition passed (self : t) : Z := Stat.passed (base self).
Definition failed (self : t) : Z := Stat.failed (base self).
Definition total (self : t) : Z := Stat.total (base self).

Definition add_stat (self other : t) : t :=
  mk (Stat.add_stat (base self) (base other)) (id self) (attrs_name self).

Definition add_test (self : t) (test : Test.t) : t :=
  mk (Stat.add_test (base self) test) (id self) (attrs_name self).
End SuiteStat.

(** ** Python string operations used by the tag decorator *)

Module Str.
(** [s.startswith(p)] *)
Fixpoint startswith (p s : string) : bool :=
  match p, s with
  | EmptyString, _ => true
  | String a p', String b s' => Ascii.eqb a b && startswith p' s'
  | String _ _, EmptyString => false
  end.

(** The scan of [str.replace] for a non-empty [old]: [skip] counts the
    characters of a replaced occurrence that are still to be passed
    over, so occurrences are found left to right and never overlap. *)
Fixpoint replace_scan (old new : string) (skip : nat) (s : string) : string :=
  match s with
  | EmptyString => EmptyString
  | String c s' =>
      match skip with
      | S k => replace_scan old new k s'
      | O =>
          if startswith old s
          then new +:+ replace_scan old new (Nat.pred (String.length old)) s'
          else String c (replace_scan old new O s')
      end
  end.

(** [new.join(chars of s)] with [new] also before and after: what
    [str.replace] does for the empty [old]. *)
Fixpoint interleave (new s : string) : string :=
  match s with
  | EmptyString => new
  | String c s' => new +:+ String c (interleave new s')
  end.

(** [s.replace(old, new)] *)
Definition replace (old new s : string) : string :=
  match old with
  | EmptyString => interleave new s
  | String _ _ => replace_scan old new O s
  end.

(** [str(n)] for a natural number: its decimal digits. *)
Definition digit (d : nat) : ascii := ascii_of_nat (48 + d).

Fixpoint str_fuel (fuel n : nat) (acc : string) : string :=
  match fuel with
  | O => acc
  | S fuel' =>
      let acc' := String (digit (n mod 10)) acc in
      if (n <? 10)%nat then acc' else str_fuel fuel' (n / 10) acc'
  end.

Definition str (n : nat) : string := str_fuel (S n) n EmptyString.

(** [''.join(pieces)] *)
Definition join (pieces : list string) : string :=
  fold_right String.append EmptyString pieces.
End Str.

(** ** The fragment of Python's [re] that the tag decorator uses

    [TagStatLink] hands [re.compile] a pattern built from [^], [$], [(],
    [)], [.], [.*], alphanumeric characters and characters escaped by
    [re.escape].  This module models [re] on that fragment: [compile]
    answers [None] for any other pattern text. *)

Module re.
Inductive atom :=
| Lit (c : ascii)      (* one literal character *)
| Any                  (* [.]: any character but a newline *)
| AnyStar.             (* [.*]: greedy *)

Inductive node :=
| Atom (a : atom)
| Group (body : list atom)   (* a capturing group; groups do not nest here *)
| Bol                        (* [^] *)
| Eol.                       (* [$] *)

Record regex := mk {
  nodes : list node;
  ignorecase : bool
}.

Inductive token := TOpen | TClose | TBol | TEol | TAtom (a : atom).

Definition in_range (lo hi c : ascii) : bool :=
  (nat_of_ascii lo <=? nat_of_ascii c)%nat && (nat_of_ascii c <=? nat_of_ascii hi)%nat.

(** [_alphanum] of Python 2's [re]: ASCII letters and digits. *)
Definition is_alnum (c : ascii) : bool :=
  in_range "a" "z" c || in_range "A" "Z" c || in_range "0" "9" c.

Definition is_octal (c : ascii) : bool := in_range "0" "7" c.

Definition octal_value (c : ascii) : nat := nat_of_ascii c - 48.

(** [re.escape] of Python 2: every character that is not alphanumeric
    gets a backslash; the NUL character becomes [\000]. *)
Definition escape_char (c : ascii) : string :=
  if is_alnum c then String c EmptyString
  else if Ascii.eqb c zero then "\000"
  else String "\" (String c EmptyString).

Fixpoint escape (pattern : string) : string :=
  match pattern with
  | EmptyString => EmptyString
  | String c rest => escape_char c +:+ escape rest
  end.

(** Reading the pattern text.  [\0] takes up to two more octal digits
    (the value is kept below 256); a backslash before another
    alphanumeric character is a class or a reference, and every
    unescaped character that is neither alphanumeric nor one of
    [( ) ^ $ .] is an operator: both are outside the fragment. *)
Fixpoint lex (s : string) : option (list token) :=
  match s with
  | EmptyString => Some []
  | String c s1 =>
      if Ascii.eqb c "(" then cons TOpen <$> lex s1
      else if Ascii.eqb c ")" then cons TClose <$> lex s1
      else if Ascii.eqb c "^" then cons TBol <$> lex s1
      else if Ascii.eqb c "$" then cons TEol <$> lex s1
      else if Ascii.eqb c "." then
        match s1 with
        | String d s2 =>
            if Ascii.eqb d "*" then cons (TAtom AnyStar) <$> lex s2
            else cons (TAtom Any) <$> lex s1
        | EmptyString => cons (TAtom Any) <$> lex s1
        end
      else if Ascii.eqb c "\" then
        match s1 with
        | EmptyString => None
        | String d s2 =>
            if Ascii.eqb d "0" then
              match s2 with
              | String o1 s3 =>
                  if is_octal o1 then
                    match s3 with
                    | String o2 s4 =>
                        if is_octal o2
                        then cons (TAtom (Lit (ascii_of_nat
                               ((octal_value o1 * 8 + octal_value o2) mod 256)))) <$> lex s4
                        else cons (TAtom (Lit (ascii_of_nat (octal_value o1)))) <$> lex s3
                    | EmptyString =>
                        cons (TAtom (Lit (ascii_of_nat (octal_value o1)))) <$> lex s3
                    end
                  else cons (TAtom (Lit zero)) <$> lex s2
              | EmptyString => cons (TAtom (Lit zero)) <$> lex s2
              end
            else if is_alnum d then None
            else cons (TAtom (Lit d)) <$> lex s2
        end
      else if is_alnum c then cons (TAtom (Lit c)) <$> lex s1
      else None
  end.

(** Grouping the tokens: [inside] is the body of the group that is
    open, if one is. *)
Fixpoint assemble (ts : list token) (inside : option (list atom)) : option (list node) :=
  match ts with
  | [] => match inside with None => Some [] | Some _ => None end
  | TOpen :: ts' =>
      match inside with None => assemble ts' (Some []) | Some _ => None end
  | TClose :: ts' =>
      match inside with
      | Some body => cons (Group body) <$> assemble ts' None
      | None => None
      end
  | TBol :: ts' =>
      match inside with None => cons Bol <$> assemble ts' None | Some _ => None end
  | TEol :: ts' =>
      match inside with None => cons Eol <$> assemble ts' None | Some _ => None end
  | TAtom a :: ts' =>
      match inside with
      | None => cons (Atom a) <$> assemble ts' None
      | Some body => assemble ts' (Some (body ++ [a]))
      end
  end.

(** [re.compile(pattern, flags)], [flags] being [re.IGNORECASE] or nothing. *)
Definition compile (pattern : string) (IGNORECASE : bool) : option regex :=
  ts ← lex pattern;
  ns ← assemble ts None;
  Some (mk ns IGNORECASE).

Definition newline : ascii := ascii_of_nat 10.

(** Lower-casing under [re.IGNORECASE] without [re.LOCALE] or
    [re.UNICODE]: the ASCII letters only. *)
Definition lower (c : ascii) : ascii :=
  if in_range "A" "Z" c then ascii_of_nat (nat_of_ascii c + 32) else c.

Definition char_eq (ic : bool) (a b : ascii) : bool :=
  if ic then Ascii.eqb (lower a) (lower b) else Ascii.eqb a b.

(** The backtracking matcher, in continuation-passing style: [k] tries
    the rest of the pattern on the rest of the subject. *)
Fixpoint star_any {R} (s : string) (k : string → option R) : option R :=
  match s with
  | EmptyString => k s
  | String c s' =>
      if Ascii.eqb c newline then k s
      else match star_any s' k with
           | Some r => Some r
           | None => k s
           end
  end.

Fixpoint match_atoms {R} (ic : bool) (l : list atom) (s : string)
    (k : string → option R) : option R :=
  match l with
  | [] => k s
  | Lit c :: l' =>
      match s with
      | String d s' => if char_eq ic c d then match_atoms ic l' s' k else None
      | EmptyString => None
      end
  | Any :: l' =>
      match s with
      | String d s' => if Ascii.eqb d newline then None else match_atoms ic l' s' k
      | EmptyString => None
      end
  | AnyStar :: l' => star_any s (fun s' => match_atoms ic l' s' k)
  end.

(** The text between two positions of the subject, each given by what
    is left of the subject there. *)
Definition consumed (s s' : string) : string :=
  String.substring 0 (String.length s - String.length s') s.

(** [subject] is the whole string, [s] what is left of it; without
    [re.MULTILINE], [^] holds at the start only and [$] at the end or
    just before a newline that ends the string. *)
Fixpoint match_nodes (ic : bool) (subject : string) (l : list node) (s : string)
    (groups : list string) : option (list string) :=
  match l with
  | [] => Some groups
  | Atom a :: l' =>
      match_atoms ic [a] s (fun s' => match_nodes ic subject l' s' groups)
  | Group body :: l' =>
      match_atoms ic body s
        (fun s' => match_nodes ic subject l' s' (groups ++ [consumed s s']))
  | Bol :: l' =>
      if (String.length s =? String.length subject)%nat
      then match_nodes ic subject l' s groups else None
  | Eol :: l' =>
      if String.eqb s EmptyString || String.eqb s (String newline EmptyString)
      then match_nodes ic subject l' s groups else None
  end.

(** [regex.match(string)]: [None] when there is no match at the start
    of the string, else [match.groups()]. *)
Definition match_ (r : regex) (subject : string) : option (list string) :=
  match_nodes (ignorecase r) subject (nodes r) subject [].

(** [re.compile('(\*|\?)').split(pattern)]: the texts between the
    wildcard characters, and the wildcard characters themselves. *)
Fixpoint split_wildcards (cur : string) (s : string) : list string :=
  match s with
  | EmptyString => [cur]
  | String c s' =>
      if Ascii.eqb c "*" || Ascii.eqb c "?"
      then cur :: String c EmptyString :: split_wildcards EmptyString s'
      else split_wildcards (cur +:+ String c EmptyString) s'
  end.
End re.

(** ** Collaborators that live outside [statistics.py]

    [robot.model.tags.TagPatterns], the key normalisation of
    [utils.NormalizedDict(ignore=['_'])] and the criticality classifier
    of a suite are used through a few methods only; they are taken as
    parameters, so that every result holds for any implementation of
    them. *)

(** What [TagPatterns(...)] is constructed from in this file: [None], one
    pattern, or a list of patterns. *)
Inductive patterns_arg :=
| PNone
| PStr (pattern : string)
| PList (patterns : list string).

Class TagPatternsOps (TagPatterns : Type) := {
  (** [TagPatterns(patterns)] *)
  TagPatterns_new : patterns_arg → TagPatterns;
  (** [patterns.match(tag)] for one tag *)
  TagPatterns_match_tag : TagPatterns → string → bool;
  (** [patterns.match(tags)] for the tags of a test *)
  TagPatterns_match_tags : TagPatterns → list string → bool;
  (** the truth value of a [TagPatterns] object *)
  TagPatterns_nonzero : TagPatterns → bool
}.

Class NormalizeOps := {
  (** the key under which [NormalizedDict] files a name *)
  normalize : string → string
}.

(** [suite.critical]: the two predicates the tag aggregator asks. *)
Record Criticality := {
  is_critical : string → bool;
  is_non_critical : string → bool
}.

(** Python's [cmp] as a [comparison]: [Lt] for -1, [Eq] for 0, [Gt] for 1. *)
Definition cmp_bool (a b : bool) : comparison :=
  match a, b with
  | false, true => Lt
  | true, false => Gt
  | _, _ => Eq
  end.

(** A string as a truth value: non-empty. *)
Definition str_bool (s : string) : bool :=
  match s with EmptyString => false | String _ _ => true end.

(** [sorted(values)] for objects ordered by [__cmp__]: [x] goes after
    every element that is not greater than it, so the sort is stable, as
    Python's is. *)
Section Sorted.
Context {A : Type} (cmp : A → A → comparison).

Fixpoint sorted_insert (x : A) (l : list A) : list A :=
  match l with
  | [] => [x]
  | y :: l' =>
      match cmp x y with
      | Lt => x :: y :: l'
      | _ => y :: sorted_insert x l'
      end
  end.

Definition sorted (l : list A) : list A :=
  fold_left (fun acc x => sorted_insert x acc) l [].

(** [x] is not greater than [y]. *)
Definition cmp_le (x y : A) : Prop := cmp x y ≠ Gt.
End Sorted.

(** ** [class TagStat(Stat)] *)

Module TagStat.
Record t := mk {
  base : Stat.t;
  doc : string;
  links : list (string * string);
  critical : bool;
  non_critical : bool;
  combined : string;
  tests : list Test.t
}.

Definition name (self : t) : string := Stat.name (base self).
Definition passed (self : t) : Z := Stat.passed (base self).
Definition failed (self : t) : Z := Stat.failed (base self).
Definition total (self : t) : Z := Stat.total (base self).

(** [TagStat.__init__] *)
Definition init (name doc : string) (links : list (string * string))
    (critical non_critical : bool) (combined : string) : t :=
  mk (Stat.init name) doc links critical non_critical combined [].

(** [TagStat._info] *)
Definition _info (self : t) : string :=
  if critical self then "critical"
  else if non_critical self then "non-critical"
  else if str_bool (combined self) then "combined"
  else "".

(** [TagStat.add_test] *)
Definition add_test (self : t) (test : Test.t) : t :=
  mk (Stat.add_test (base self) test) (doc self) (links self) (critical self)
     (non_critical self) (combined self) (tests self ++ [test]).

(** [TagStat.__cmp__] *)
Definition cmp (self other : t) : comparison :=
  if negb (Bool.eqb (critical self) (critical other))
  then cmp_bool (critical other) (critical self)
  else if negb (Bool.eqb (non_critical self) (non_critical other))
  then cmp_bool (non_critical other) (non_critical self)
  else if negb (Bool.eqb (str_bool (combined self)) (str_bool (combined other)))
  then cmp_bool (str_bool (combined other)) (str_bool (combined self))
  else String.compare (name self) (name other).
End TagStat.

(** ** [class TagStatLink] *)

Module TagStatLink.
Record t := mk {
  _regexp : re.regex;
  _link : string;
  _title : string
}.

(** The loop of [_get_match_regexp] over the tokens; [regexp] is the
    list of pieces appended so far. *)
Fixpoint _get_match_regexp_loop (tokens : list string) (regexp : list string)
    (open_parenthesis : bool) : list string * bool :=
  match tokens with
  | [] => (regexp, open_parenthesis)
  | token :: tokens' =>
      if String.eqb token "" then
        _get_match_regexp_loop tokens' regexp open_parenthesis
      else if String.eqb token "?" then
        let regexp1 := if negb open_parenthesis then regexp ++ ["("] else regexp in
        _get_match_regexp_loop tokens' (regexp1 ++ ["."]) true
      else
        let regexp1 := if open_parenthesis then regexp ++ [")"] else regexp in
        if String.eqb token "*" then
          _get_match_regexp_loop tokens' (regexp1 ++ ["(.*)"]) false
        else
          _get_match_regexp_loop tokens' (regexp1 ++ [re.escape token]) false
  end.

(** The text handed to [re.compile]: ['^%s$' % ''.join(regexp)]. *)
Definition regexp_source (pattern : string) : string :=
  let '(regexp, open_parenthesis) :=
    _get_match_regexp_loop (re.split_wildcards "" pattern) [] false in
  let regexp1 := if open_parenthesis then regexp ++ [")"] else regexp in
  "^" +:+ Str.join regexp1 +:+ "$".

(** [TagStatLink._get_match_regexp] *)
Definition _get_match_regexp (pattern : string) : option re.regex :=
  re.compile (regexp_source pattern) true.

(** [TagStatLink.__init__] *)
Definition init (pattern link title : string) : option t :=
  regexp ← _get_match_regexp pattern;
  Some (mk regexp link (Str.replace "_" " " title)).

(** [TagStatLink.matches] *)
Definition matches (self : t) (tag : string) : bool :=
  match re.match_ (_regexp self) tag with
  | Some _ => true
  | None => false
  end.

(** The loop of [_replace_groups]; [index] is the one of [enumerate]. *)
Fixpoint _replace_groups_from (index : nat) (groups : list string)
    (link title : string) : string * string :=
  match groups with
  | [] => (link, title)
  | group :: groups' =>
      let placefolder := "%" +:+ Str.str (index + 1) in
      _replace_groups_from (S index) groups'
        (Str.replace placefolder group link)
        (Str.replace placefolder group title)
  end.

(** [TagStatLink._replace_groups], on [match.groups()] *)
Definition _replace_groups (link title : string) (groups : list string)
    : string * string :=
  _replace_groups_from 0 groups link title.

(** [TagStatLink.get_link] *)
Definition get_link (self : t) (tag : string) : option (string * string) :=
  match re.match_ (_regexp self) tag with
  | None => None
  | Some groups => Some (_replace_groups (_link self) (_title self) groups)
  end.
End TagStatLink.

(** ** [class TagStatDoc], [class TagStatInfo], [class CombinedTag] *)

Module TagStatDoc.
Section WithTagPatterns.
Context {TP : Type} `{!TagPatternsOps TP}.

Record t := mk {
  text : string;
  _pattern : TP
}.

(** [TagStatDoc.__init__] *)
Definition init (pattern doc : string) : t :=
  mk doc (TagPatterns_new (PStr pattern)).

(** [TagStatDoc.matches] *)
Definition matches (self : t) (tag : string) : bool :=
  TagPatterns_match_tag (_pattern self) tag.
End WithTagPatterns.
Arguments t TP : clear implicits.
End TagStatDoc.

Module TagStatInfo.
Section WithTagPatterns.
Context {TP : Type} `{!TagPatternsOps TP}.

Record t := mk {
  _docs : list (TagStatDoc.t TP);
  _links : list TagStatLink.t
}.

(** [[TagStatLink( *link) for link in links]]; compiling a pattern is
    the one step that could fail. *)
Fixpoint init_links (links : list (string * string * string))
    : option (list TagStatLink.t) :=
  match links with
  | [] => Some []
  | (pattern, link, title) :: links' =>
      l ← TagStatLink.init pattern link title;
      ls ← init_links links';
      Some (l :: ls)
  end.

(** [TagStatInfo.__init__] *)
Definition init (docs : list (string * string))
    (links : list (string * string * string)) : option t :=
  ls ← init_links links;
  Some (mk (map (fun d => TagStatDoc.init (fst d) (snd d)) docs) ls).

(** [sep.join(pieces)] *)
Fixpoint join_sep (sep : string) (pieces : list string) : string :=
  match pieces with
  | [] => ""
  | [p] => p
  | p :: ps => p +:+ sep +:+ join_sep sep ps
  end.

(** [TagStatInfo.get_doc] *)
Definition get_doc (self : t) (tag : string) : string :=
  join_sep " & "
    (map TagStatDoc.text
       (List.filter (fun doc => TagStatDoc.matches doc tag) (_docs self))).

(** [TagStatInfo.get_links].  The comprehension keeps the rules that
    match and calls [get_link] on each; [get_link] then finds the
    same match, so its [None] branch contributes nothing. *)
Definition get_links (self : t) (tag : string) : list (string * string) :=
  flat_map
    (fun link =>
       match TagStatLink.get_link link tag with
       | Some r => [r]
       | None => []
       end)
    (List.filter (fun link => TagStatLink.matches link tag) (_links self)).
End WithTagPatterns.
Arguments t TP : clear implicits.
End TagStatInfo.

Module CombinedTag.
Section WithTagPatterns.
Context {TP : Type} `{!TagPatternsOps TP}.

Record t := mk {
  pattern : string;
  _matcher : TP;
  name : string
}.

(** [CombinedTag.__init__]: [name or pattern], the name being [None],
    empty or a text. *)
Definition init (pattern : string) (name : option string) : t :=
  mk pattern (TagPatterns_new (PStr pattern))
     (match name with
      | Some n => if str_bool n then n else pattern
      | None => pattern
      end).

(** [CombinedTag.match] *)
Definition match_ (self : t) (tags : list string) : bool :=
  TagPatterns_match_tags (_matcher self) tags.
End WithTagPatterns.
Arguments t TP : clear implicits.
End CombinedTag.

(** ** [class TagStatistics] *)

Module TagStatistics.
Section WithCollaborators.
Context {TP : Type} `{!TagPatternsOps TP} `{!NormalizeOps}.

(** [stats] is the [NormalizedDict]: a value is filed under the
    normalised form of its key. *)
Record t := mk {
  stats : gmap string TagStat.t;
  _include : TP;
  _exclude : TP;
  _info : TagStatInfo.t TP;
  _combine : list (CombinedTag.t TP)
}.

Definition set_stats (self : t) (stats' : gmap string TagStat.t) : t :=
  mk stats' (_include self) (_exclude self) (_info self) (_combine self).

(** The loop of [_create_combined]. *)
Fixpoint _create_combined_loop (info : TagStatInfo.t TP)
    (combines : list (CombinedTag.t TP)) (stats : gmap string TagStat.t)
    : gmap string TagStat.t :=
  match combines with
  | [] => stats
  | comb :: combines' =>
      let name := CombinedTag.name comb in
      _create_combined_loop info combines'
        (<[normalize name :=
             TagStat.init name (TagStatInfo.get_doc info name)
               (TagStatInfo.get_links info name) false false
               (CombinedTag.pattern comb)]> stats)
  end.

(** [TagStatistics.__init__] with [_create_combined]; [docs], [links]
    and [combine] are lists ([None] being the empty one). *)
Definition init (include exclude : patterns_arg)
    (combine : list (string * option string))
    (docs : list (string * string))
    (links : list (string * string * string)) : option t :=
  info ← TagStatInfo.init docs links;
  let combines := map (fun c => CombinedTag.init (fst c) (snd c)) combine in
  Some (mk (_create_combined_loop info combines ∅)
           (TagPatterns_new include) (TagPatterns_new exclude) info combines).

(** [TagStatistics._is_included] *)
Definition _is_included (self : t) (tag : string) : bool :=
  if TagPatterns_nonzero (_include self)
     && negb (TagPatterns_match_tag (_include self) tag)
  then false
  else negb (TagPatterns_match_tag (_exclude self) tag).

(** One round of the loop of [_add_tags_statistics]. *)
Definition _add_tag_statistics (self : t) (test : Test.t)
    (critical : Criticality) (tag : string) : t :=
  if negb (_is_included self tag) then self
  else
    let key := normalize tag in
    let stat :=
      match stats self !! key with
      | Some stat => stat
      | None =>
          TagStat.init tag (TagStatInfo.get_doc (_info self) tag)
            (TagStatInfo.get_links (_info self) tag)
            (is_critical critical tag) (is_non_critical critical tag) ""
      end in
    set_stats self (<[key := TagStat.add_test stat test]> (stats self)).

(** [TagStatistics._add_tags_statistics] *)
Definition _add_tags_statistics (self : t) (test : Test.t)
    (critical : Criticality) : t :=
  fold_left (fun self tag => _add_tag_statistics self test critical tag)
    (Test.tags test) self.

(** The loop of [_add_combined_statistics]; a missing key is Python's
    [KeyError]. *)
Fixpoint _add_combined_loop (combines : list (CombinedTag.t TP))
    (test : Test.t) (stats : gmap string TagStat.t)
    : option (gmap string TagStat.t) :=
  match combines with
  | [] => Some stats
  | comb :: combines' =>
      if CombinedTag.match_ comb (Test.tags test) then
        let key := normalize (CombinedTag.name comb) in
        stat ← stats !! key;
        _add_combined_loop combines' test
          (<[key := TagStat.add_test stat test]> stats)
      else _add_combined_loop combines' test stats
  end.

(** [TagStatistics._add_combined_statistics] *)
Definition _add_combined_statistics (self : t) (test : Test.t) : option t :=
  set_stats self <$> _add_combined_loop (_combine self) test (stats self).

(** [TagStatistics.add_test] *)
Definition add_test (self : t) (test : Test.t) (critical : Criticality)
    : option t :=
  _add_combined_statistics (_add_tags_statistics self test critical) test.

(** [TagStatistics.__iter__]: [sorted(self.stats.values())] *)
Definition iter (self : t) : list TagStat.t :=
  sorted TagStat.cmp (map snd (map_to_list (stats self))).
End WithCollaborators.
Arguments t TP : clear implicits.
End TagStatistics.

(** ** The suite tree, as the statistics read it *)

Module TestSuite.
Local Unset Elimination Schemes.
Inductive t :=
| mk (longname name id : string) (critical : Criticality)
     (suites : list t) (tests : list Test.t).
Local Set Elimination Schemes.

Definition longname (s : t) := let 'mk l _ _ _ _ _ := s in l.
Definition name (s : t) := let 'mk _ n _ _ _ _ := s in n.
Definition id (s : t) := let 'mk _ _ i _ _ _ := s in i.
Definition critical (s : t) := let 'mk _ _ _ c _ _ := s in c.
Definition suites (s : t) := let 'mk _ _ _ _ ss _ := s in ss.
Definition tests (s : t) := let 'mk _ _ _ _ _ ts := s in ts.
End TestSuite.

(** [SuiteStat.__init__] *)
Definition SuiteStat_init (suite : TestSuite.t) : SuiteStat.t :=
  SuiteStat.mk (Stat.init (TestSuite.longname suite)) (TestSuite.id suite)
    (TestSuite.name suite).

(** ** [class SuiteStatistics]

    A [SuiteStatistics] object is appended to its parent's [suites] list
    before its counters are filled in, and the builder keeps further
    references to it ([_current_suite_stat], [_parents]).  The objects
    therefore live in a store, a list indexed by reference, and [suites]
    holds references. *)

Module SuiteStatistics.
Record t := mk {
  all : SuiteStat.t;
  critical : SuiteStat.t;
  suites : list nat
}.

(** [SuiteStatistics.__init__] *)
Definition init (suite : TestSuite.t) : t :=
  mk (SuiteStat_init suite) (SuiteStat_init suite) [].

(** [SuiteStatistics.add_test] *)
Definition add_test (self : t) (test : Test.t) : t :=
  let all1 := SuiteStat.add_test (all self) test in
  if String.eqb (Test.critical test) "yes"
  then mk all1 (SuiteStat.add_test (critical self) test) (suites self)
  else mk all1 (critical self) (suites self).

(** The object graph below a reference, read off the store. *)
Local Unset Elimination Schemes.
Inductive tree :=
| Node (all critical : SuiteStat.t) (suites : list tree).
Local Set Elimination Schemes.

Definition tree_all (n : tree) := let 'Node a _ _ := n in a.
Definition tree_critical (n : tree) := let 'Node _ c _ := n in c.
Definition tree_suites (n : tree) := let 'Node _ _ ss := n in ss.

Fixpoint snapshot (fuel : nat) (store : list t) (ref : nat) : option tree :=
  match fuel with
  | O => None
  | S fuel' =>
      self ← store !! ref;
      children ← mapM (snapshot fuel' store) (suites self);
      Some (Node (all self) (critical self) children)
  end.
End SuiteStatistics.

(** ** [class StatisticsBuilder(SuiteVisitor)] *)

Module StatisticsBuilder.
Section WithCollaborators.
Context {TP : Type} `{!TagPatternsOps TP} `{!NormalizeOps}.

(** [_current_suite_stat] and [_current_suite] are attributes that
    [__init__] does not set: [None] until [build] and [start_suite]
    assign them. *)
Record t := mk {
  store : list SuiteStatistics.t;
  _tag_stats : TagStatistics.t TP;
  _parents : list nat;
  _suite_stat_level : Z;
  _current_suite_stat : option nat;
  _current_suite : option TestSuite.t
}.

(** [StatisticsBuilder.__init__], on the store in use. *)
Definition init (store : list SuiteStatistics.t)
    (tag_stats : TagStatistics.t TP) (suite_stat_level : Z) : t :=
  mk store tag_stats [] suite_stat_level None None.

(** [StatisticsBuilder.start_suite] *)
Definition start_suite (self : t) (suite : TestSuite.t) : option t :=
  let new := length (store self) in
  let store1 := store self ++ [SuiteStatistics.init suite] in
  current ← _current_suite_stat self;
  store2 ←
    (if (_suite_stat_level self =? -1)
        || (Z.of_nat (length (_parents self)) <? _suite_stat_level self)
     then
       cur ← store1 !! current;
       Some (<[current :=
                SuiteStatistics.mk (SuiteStatistics.all cur)
                  (SuiteStatistics.critical cur)
                  (SuiteStatistics.suites cur ++ [new])]> store1)
     else Some store1);
  Some (mk store2 (_tag_stats self) (_parents self ++ [current])
          (_suite_stat_level self) (Some new) (Some suite)).

(** [StatisticsBuilder.end_suite]: the two merges read the store one
    after the other. *)
Definition end_suite (self : t) (suite : TestSuite.t) : option t :=
  match last (_parents self) with
  | None => Some self
  | Some parent =>
      current ← _current_suite_stat self;
      p1 ← store self !! parent;
      c1 ← store self !! current;
      let store1 :=
        <[parent :=
            SuiteStatistics.mk
              (SuiteStat.add_stat (SuiteStatistics.all p1) (SuiteStatistics.all c1))
              (SuiteStatistics.critical p1) (SuiteStatistics.suites p1)]>
          (store self) in
      p2 ← store1 !! parent;
      c2 ← store1 !! current;
      let store2 :=
        <[parent :=
            SuiteStatistics.mk (SuiteStatistics.all p2)
              (SuiteStat.add_stat (SuiteStatistics.critical p2)
                 (SuiteStatistics.critical c2))
              (SuiteStatistics.suites p2)]> store1 in
      Some (mk store2 (_tag_stats self) (removelast (_parents self))
              (_suite_stat_level self) (Some parent) (_current_suite self))
  end.

(** [StatisticsBuilder.visit_test] *)
Definition visit_test (self : t) (test : Test.t) : option t :=
  current ← _current_suite_stat self;
  cur ← store self !! current;
  let store1 := <[current := SuiteStatistics.add_test cur test]> (store self) in
  suite ← _current_suite self;
  tag_stats ← TagStatistics.add_test (_tag_stats self) test (TestSuite.critical suite);
  Some (mk store1 tag_stats (_parents self) (_suite_stat_level self)
          (_current_suite_stat self) (_current_suite self)).

(** [items.visit(self)]: the visitor's method for an item, on each item
    in order. *)
Definition visit_each {A : Type} (visit : A → t → option t)
    : list A → t → option t :=
  fix go (items : list A) (self : t) : option t :=
    match items with
    | [] => Some self
    | item :: items' => self' ← visit item self; go items' self'
    end.

(** Modelled from the spec: [SuiteVisitor.visit_suite] of
    [robot.result.visitor], which is not in this file.  A single
    depth-first traversal: enter the suite ([start_suite]), visit its
    sub-suites and its tests, leave it ([end_suite]); the visitor's
    hooks for keywords are not overridden by the builder. *)
Fixpoint visit_suite (suite : TestSuite.t) (self : t) : option t :=
  let 'TestSuite.mk _ _ _ _ suites tests := suite in
  self1 ← start_suite self suite;
  self2 ← visit_each visit_suite suites self1;
  self3 ← visit_each (fun test self => visit_test self test) tests self2;
  end_suite self3 suite.

(** [StatisticsBuilder.build]: the reference it returns, with the
    builder as the traversal left it; [suites[0]] of an empty list is
    Python's [IndexError]. *)
Definition build (self : t) (suite : TestSuite.t) : option (nat * t) :=
  let wrapper := length (store self) in
  let self1 :=
    mk (store self ++ [SuiteStatistics.init suite]) (_tag_stats self)
       (_parents self) (_suite_stat_level self) (Some wrapper)
       (_current_suite self) in
  self2 ← visit_suite suite self1;
  current ← _current_suite_stat self2;
  cur ← store self2 !! current;
  root ← SuiteStatistics.suites cur !! 0%nat;
  Some (root, self2).
End WithCollaborators.
Arguments t TP : clear implicits.
End StatisticsBuilder.

(** ** What the statistics are compared with *)

(** The number of tests anywhere in a suite tree that satisfy [p]. *)
Fixpoint count_tests (p : Test.t → bool) (suite : TestSuite.t) : nat :=
  let 'TestSuite.mk _ _ _ _ suites tests := suite in
  (list_sum (List.map (count_tests p) suites) + length (List.filter p tests))%nat.

Definition is_passed (test : Test.t) : bool := String.eqb (Test.status test) "PASS".
Definition is_failed (test : Test.t) : bool := negb (is_passed test).
Definition is_marked_critical (test : Test.t) : bool :=
  String.eqb (Test.critical test) "yes".
Definition any_test (test : Test.t) : bool := true.

(** A fresh [SuiteStat] of [suite] that has counted the tests of the tree
    that satisfy [p]. *)
Definition SuiteStat_of (p : Test.t → bool) (suite : TestSuite.t) : SuiteStat.t :=
  SuiteStat.mk
    (Stat.mk (TestSuite.longname suite)
       (Z.of_nat (count_tests (fun t => p t && is_passed t) suite))
       (Z.of_nat (count_tests (fun t => p t && is_failed t) suite)))
    (TestSuite.id suite) (TestSuite.name suite).

(** Whether [start_suite] attaches a suite entered below [depth] parents. *)
Definition attached (level : Z) (depth : nat) : bool :=
  (level =? -1) || (Z.of_nat depth <? level).

(** The statistics tree of a suite entered below [depth] parents: every
    node counts its whole subtree; the children are the sub-suites that
    [start_suite] attaches. *)
Fixpoint stats_tree (level : Z) (depth : nat) (suite : TestSuite.t)
    : SuiteStatistics.tree :=
  SuiteStatistics.Node (SuiteStat_of any_test suite)
    (SuiteStat_of is_marked_critical suite)
    (let 'TestSuite.mk _ _ _ _ suites _ := suite in
     if attached level (S depth)
     then List.map (stats_tree level (S depth)) suites
     else []).

(** A statistics tree cut below [keep] levels of children. *)
Fixpoint prune (keep : nat) (n : SuiteStatistics.tree) {struct n}
    : SuiteStatistics.tree :=
  let 'SuiteStatistics.Node all critical suites := n in
  SuiteStatistics.Node all critical
    (match keep with
     | O => []
     | S keep' => map (prune keep') suites
     end).

(** The number of suites of a tree: the objects one traversal allocates. *)
Fixpoint suite_count (suite : TestSuite.t) : nat :=
  let 'TestSuite.mk _ _ _ _ suites _ := suite in
  S (list_sum (List.map suite_count suites)).

(** [stat] with [p] more passed and [f] more failed tests: what
    [add_stat] and [add_test] do to a [SuiteStat]. *)
Definition bump (stat : SuiteStat.t) (p f : Z) : SuiteStat.t :=
  SuiteStat.mk
    (Stat.mk (Stat.name (SuiteStat.base stat)) (SuiteStat.passed stat + p)
       (SuiteStat.failed stat + f))
    (SuiteStat.id stat) (SuiteStat.attrs_name stat).

(** The passed and the failed tests of a suite tree among those that
    satisfy [p]. *)
Definition passed_in (p : Test.t → bool) (suite : TestSuite.t) : Z :=
  Z.of_nat (count_tests (fun t => p t && is_passed t) suite).
Definition failed_in (p : Test.t → bool) (suite : TestSuite.t) : Z :=
  Z.of_nat (count_tests (fun t => p t && is_failed t) suite).

(** The store holds the tree [n] at the reference [ref], all of it at
    references from [lo] up to [hi]. *)
Fixpoint holds_tree (store : list SuiteStatistics.t) (lo hi : nat) (ref : nat)
    (n : SuiteStatistics.tree) {struct n} : Prop :=
  let 'SuiteStatistics.Node all critical children := n in
  (lo ≤ ref < hi)%nat
  ∧ ∃ self,
      store !! ref = Some self
      ∧ SuiteStatistics.all self = all
      ∧ SuiteStatistics.critical self = critical
      ∧ length (SuiteStatistics.suites self) = length children
      ∧ (fix each (trees : list SuiteStatistics.tree) (refs : list nat)
             {struct trees} : Prop :=
           match trees, refs with
           | t :: trees', r :: refs' => holds_tree store lo hi r t ∧ each trees' refs'
           | _, _ => True
           end) children (SuiteStatistics.suites self).

(** The levels of a statistics tree. *)
Fixpoint tree_height (n : SuiteStatistics.tree) : nat :=
  let 'SuiteStatistics.Node _ _ children := n in
  S (list_max (List.map tree_height children)).

(** Every test of a suite tree: those of the sub-suites, then its own. *)
Fixpoint all_tests (suite : TestSuite.t) : list Test.t :=
  let 'TestSuite.mk _ _ _ _ suites tests := suite in
  concat (List.map all_tests suites) ++ tests.

(** ** The wildcard compiler, in the spec's words *)

(** The wildcards of a pattern: a [*], or a maximal run of [n]
    consecutive [?]. *)
Inductive wildcard :=
| Star
| Marks (n : nat).

Definition flush_marks (run : nat) : list wildcard :=
  match run with
  | O => []
  | S _ => [Marks run]
  end.

(** The wildcards from left to right; [run] counts the [?] of the run
    being read. *)
Fixpoint wildcards_from (run : nat) (pattern : string) : list wildcard :=
  match pattern with
  | EmptyString => flush_marks run
  | String c rest =>
      if Ascii.eqb c "?" then wildcards_from (S run) rest
      else flush_marks run
             ++ (if Ascii.eqb c "*" then [Star] else []) ++ wildcards_from O rest
  end.

Definition wildcards (pattern : string) : list wildcard := wildcards_from O pattern.

(** The body of the capture group of a wildcard: [.*], or as many [.]
    as the run has [?]. *)
Definition wildcard_group (w : wildcard) : list re.atom :=
  match w with
  | Star => [re.AnyStar]
  | Marks n => repeat re.Any n
  end.

Definition flush_group (run : nat) : list re.node :=
  match run with
  | O => []
  | S _ => [re.Group (repeat re.Any run)]
  end.

(** The expression a pattern stands for: a literal for every other
    character, a capture group for every wildcard. *)
Fixpoint pattern_nodes_from (run : nat) (pattern : string) : list re.node :=
  match pattern with
  | EmptyString => flush_group run
  | String c rest =>
      if Ascii.eqb c "?" then pattern_nodes_from (S run) rest
      else flush_group run
             ++ (if Ascii.eqb c "*" then re.Group [re.AnyStar] else re.Atom (re.Lit c))
                :: pattern_nodes_from O rest
  end.

Definition pattern_nodes (pattern : string) : list re.node :=
  pattern_nodes_from O pattern.

(** The bodies of the capture groups of an expression, in order. *)
Definition groups_of (nodes : list re.node) : list (list re.atom) :=
  flat_map (fun n => match n with re.Group body => [body] | _ => [] end) nodes.

(** ** The compiler's loop, token by token *)

(** The text that [_get_match_regexp] still appends for the tokens [ts],
    the closing parenthesis after the loop included. *)
Definition regexp_rest (ts : list string) (open_parenthesis : bool) : string :=
  let '(regexp, open_parenthesis') :=
    TagStatLink._get_match_regexp_loop ts [] open_parenthesis in
  Str.join (if open_parenthesis' then regexp ++ [")"] else regexp).

Definition close_tokens (open_parenthesis : bool) : list re.token :=
  if open_parenthesis then [re.TClose] else [].

Definition literal_tokens (text : string) : list re.token :=
  map (fun c => re.TAtom (re.Lit c)) (list_ascii_of_string text).

(** What [re] reads in that text. *)
Fixpoint rest_tokens (ts : list string) (open_parenthesis : bool) : list re.token :=
  match ts with
  | [] => close_tokens open_parenthesis
  | token :: ts' =>
      if String.eqb token "" then rest_tokens ts' open_parenthesis
      else if String.eqb token "?" then
        (if open_parenthesis then [] else [re.TOpen])
          ++ re.TAtom re.Any :: rest_tokens ts' true
      else if String.eqb token "*" then
        close_tokens open_parenthesis
          ++ re.TOpen :: re.TAtom re.AnyStar :: re.TClose :: rest_tokens ts' false
      else
        close_tokens open_parenthesis ++ literal_tokens token ++ rest_tokens ts' false
  end.

Definition literal_nodes (text : string) : list re.node :=
  map (fun c => re.Atom (re.Lit c)) (list_ascii_of_string text).

(** The expression of the tokens; [run] counts the [?] of the group that
    is open. *)
Fixpoint rest_nodes (ts : list string) (run : nat) : list re.node :=
  match ts with
  | [] => flush_group run
  | token :: ts' =>
      if String.eqb token "" then rest_nodes ts' run
      else if String.eqb token "?" then rest_nodes ts' (S run)
      else if String.eqb token "*" then
        flush_group run ++ re.Group [re.AnyStar] :: rest_nodes ts' O
      else flush_group run ++ literal_nodes token ++ rest_nodes ts' O
  end.

(** A text without wildcard characters. *)
Fixpoint no_wildcard (text : string) : bool :=
  match text with
  | EmptyString => true
  | String c rest => negb (Ascii.eqb c "*" || Ascii.eqb c "?") && no_wildcard rest
  end.

(** A text without the character [%]. *)
Fixpoint no_percent (text : string) : bool :=
  match text with
  | EmptyString => true
  | String c rest => negb (Ascii.eqb c "%") && no_percent rest
  end.

(** The group that is open after [run] characters [?], if one is. *)
Definition group_of_run (run : nat) : option (list re.atom) :=
  match run with
  | O => None
  | S _ => Some (repeat re.Any run)
  end.

Definition is_open (run : nat) : bool :=
  match run with O => false | S _ => true end.


(** ** What the compiled expressions match *)

(** A text without a newline. *)
Fixpoint no_newline (text : string) : bool :=
  match text with
  | EmptyString => true
  | String c rest => negb (Ascii.eqb c re.newline) && no_newline rest
  end.

(** The atoms [l] take exactly [text], as Python's [re] has it without
    [re.DOTALL]: a literal takes one character that equals it (up to
    case under [ic]), [.] takes one character that is no newline, [.*]
    takes any text without a newline. *)
Fixpoint spans (ic : bool) (l : list re.atom) (text : string) : Prop :=
  match l with
  | [] => text = ""
  | re.Lit c :: l' =>
      ∃ d rest, text = String d rest ∧ re.char_eq ic c d = true ∧ spans ic l' rest
  | re.Any :: l' =>
      ∃ d rest, text = String d rest ∧ Ascii.eqb d re.newline = false ∧ spans ic l' rest
  | re.AnyStar :: l' =>
      ∃ pre rest, text = pre +:+ rest ∧ no_newline pre = true ∧ spans ic l' rest
  end.

(** The nodes [l], none of them an anchor, take exactly [text], and
    [groups] are the texts that their groups take, in order. *)
Fixpoint nodes_span (ic : bool) (l : list re.node) (text : string)
    (groups : list string) : Prop :=
  match l with
  | [] => text = "" ∧ groups = []
  | re.Atom a :: l' =>
      ∃ pre rest, text = pre +:+ rest ∧ spans ic [a] pre ∧ nodes_span ic l' rest groups
  | re.Group body :: l' =>
      ∃ pre rest groups',
        text = pre +:+ rest ∧ spans ic body pre ∧ groups = pre :: groups'
        ∧ nodes_span ic l' rest groups'
  | re.Bol :: _ | re.Eol :: _ => False
  end.

Definition is_anchor (n : re.node) : bool :=
  match n with
  | re.Bol | re.Eol => true
  | _ => false
  end.

(** What is left of the subject where [$] holds: nothing, or one final
    newline. *)
Definition at_end (rest : string) : Prop :=
  rest = "" ∨ rest = String re.newline "".

(** ** Placeholders, as the spec reads them *)

(** The group that the character after a [%] names, when there are [n]
    groups: [%1] is the group 0, up to [%9]. *)
Definition placeholder_index (n : nat) (d : ascii) : option nat :=
  if re.in_range "1" "9" d then
    let i := (nat_of_ascii d - 49)%nat in
    if (i <? n)%nat then Some i else None
  else None.

(** Every placeholder of the template replaced by its group, in one pass
    from left to right. *)
Fixpoint substitute (groups : list string) (template : string) : string :=
  match template with
  | EmptyString => EmptyString
  | String c rest =>
      match rest with
      | String d rest' =>
          if Ascii.eqb c "%" then
            match placeholder_index (length groups) d with
            | Some i => nth i groups "" +:+ substitute groups rest'
            | None => String c (substitute groups rest)
            end
          else String c (substitute groups rest)
      | EmptyString => String c EmptyString
      end
  end.

(** A template without two [%] in a row. *)
Fixpoint no_double_percent (template : string) : bool :=
  match template with
  | EmptyString => true
  | String c rest =>
      match rest with
      | String d _ => negb (Ascii.eqb c "%" && Ascii.eqb d "%") && no_double_percent rest
      | EmptyString => true
      end
  end.

(** The loop of [_replace_groups] on one template. *)
Fixpoint replace_each (index : nat) (groups : list string) (template : string) : string :=
  match groups with
  | [] => template
  | group :: groups' =>
      replace_each (S index) groups'
        (Str.replace ("%" +:+ Str.str (index + 1)) group template)
  end.

(** A template in pieces: characters, and placeholders by the group they
    name. *)
Inductive seg :=
| Plain (c : ascii)
| Hole (i : nat).

Definition render_seg (s : seg) : string :=
  match s with
  | Plain c => String c ""
  | Hole i => "%" +:+ Str.str (i + 1)
  end.

Fixpoint render (segs : list seg) : string :=
  match segs with
  | [] => ""
  | s :: segs' => render_seg s +:+ render segs'
  end.

Fixpoint parse_template (n : nat) (template : string) : list seg :=
  match template with
  | EmptyString => []
  | String c rest =>
      match rest with
      | String d rest' =>
          if Ascii.eqb c "%" then
            match placeholder_index n d with
            | Some i => Hole i :: parse_template n rest'
            | None => Plain c :: parse_template n rest
            end
          else Plain c :: parse_template n rest
      | EmptyString => [Plain c]
      end
  end.

Definition plain_text (text : string) : list seg :=
  map Plain (list_ascii_of_string text).

(** The placeholders of the groups [k], [k+1], ... replaced by the texts
    [groups]. *)
Definition fill_from (k : nat) (groups : list string) (segs : list seg) : list seg :=
  flat_map
    (fun s =>
       match s with
       | Plain c => [Plain c]
       | Hole i =>
           if (k <=? i)%nat && (i <? k + length groups)%nat
           then plain_text (nth (i - k) groups "")
           else [Hole i]
       end) segs.

(** Every [%] that is a character of its own is the last piece or stands
    before a character that names no group, and every placeholder names
    one of the [n] groups. *)
Fixpoint well_formed (n : nat) (segs : list seg) : Prop :=
  match segs with
  | [] => True
  | Plain c :: segs' =>
      (Ascii.eqb c "%" = true →
       match segs' with
       | [] => True
       | Plain d :: _ => placeholder_index n d = None
       | Hole _ :: _ => False
       end)
      ∧ well_formed n segs'
  | Hole i :: segs' => (i < n)%nat ∧ well_formed n segs'
  end.

(** The character that names the group [i]. *)
Definition digit_of (i : nat) : ascii := ascii_of_nat (49 + i).

(** ** Sample collaborators and data, for the concrete instances *)

Module Sample.
(** Patterns that match a tag by its exact text. *)
Definition arg_patterns (arg : patterns_arg) : list string :=
  match arg with
  | PNone => []
  | PStr p => [p]
  | PList ps => ps
  end.

Definition match_tag (patterns : list string) (tag : string) : bool :=
  existsb (String.eqb tag) patterns.

#[export] Instance exact_patterns : TagPatternsOps (list string) := {
  TagPatterns_new := arg_patterns;
  TagPatterns_match_tag := match_tag;
  TagPatterns_match_tags := fun patterns tags => existsb (match_tag patterns) tags;
  TagPatterns_nonzero := fun patterns =>
    match patterns with [] => false | _ :: _ => true end
}.

(** Keys that ignore underscores, spaces and the case of ASCII letters. *)
Fixpoint normal_form (s : string) : string :=
  match s with
  | EmptyString => EmptyString
  | String c s' =>
      if Ascii.eqb c "_" || Ascii.eqb c " " then normal_form s'
      else String (re.lower c) (normal_form s')
  end.

#[export] Instance normal_keys : NormalizeOps := {
  normalize := normal_form
}.

Definition no_criticality : Criticality :=
  {| is_critical := fun _ => false; is_non_critical := fun _ => false |}.

Definition test (name status critical : string) (tags : list string) : Test.t :=
  Test.mk name status critical tags.

Definition leaf (longname name id : string) (tests : list Test.t) : TestSuite.t :=
  TestSuite.mk longname name id no_criticality [] tests.

(** A root suite with two sub-suites of two tests each, one of the
    sub-suites with a sub-suite of its own. *)
Definition tree : TestSuite.t :=
  TestSuite.mk "Root" "Root" "s1" no_criticality
    [ TestSuite.mk "Root.A" "A" "s1-s1" no_criticality
        [ leaf "Root.A.Deep" "Deep" "s1-s1-s1"
            [ test "d1" "FAIL" "yes" ["smoke"] ] ]
        [ test "a1" "PASS" "yes" ["smoke"]; test "a2" "FAIL" "no" ["slow"] ];
      leaf "Root.B" "B" "s1-s2"
        [ test "b1" "PASS" "no" ["smoke"; "slow"]; test "b2" "FAIL" "yes" [] ] ]
    [].

(** Tag statistics that take no literal tag ([include] names a tag no
    test has) and combine the tags [smoke] and [slow] under one name. *)
Definition tag_stats : option (TagStatistics.t (list string)) :=
  TagStatistics.init (PStr "none") PNone
    [("smoke", Some "Smoke or slow"); ("slow", Some "smoke_or_slow")] [] [].

Definition builder (level : Z) : option (StatisticsBuilder.t (list string)) :=
  tags ← tag_stats;
  Some (StatisticsBuilder.init [] tags level).

(** A run that declares every tag critical and the tag [b] non-critical
    as well, and the tag statistics of one test tagged [a] and [b]. *)
Definition overlapping : Criticality :=
  {| is_critical := fun _ => true; is_non_critical := String.eqb "b" |}.

Definition overlapping_stats : option (TagStatistics.t (list string)) :=
  tags ← TagStatistics.init PNone PNone [] [] [];
  TagStatistics.add_test tags (test "t" "PASS" "yes" ["a"; "b"]) overlapping.

(** The tags of the spec's example: critical [A] and [B], non-critical
    [C], combined [D], plain [E] and [F]. *)
Definition six : Criticality :=
  {| is_critical := fun tag => String.eqb tag "A" || String.eqb tag "B";
     is_non_critical := String.eqb "C" |}.

Definition six_stats : option (TagStatistics.t (list string)) :=
  tags ← TagStatistics.init PNone PNone [("F", Some "D")] [] [];
  TagStatistics.add_test tags
    (test "t" "PASS" "yes" ["F"; "C"; "B"; "E"; "A"]) six.
End Sample.

(** ** The ordering rule of tag statistics, in the spec's words *)

(** The four buckets: critical, non-critical, combined, plain; they are
    the four answers of [TagStat._info]. *)
Definition bucket (stat : TagStat.t) : nat :=
  if TagStat.critical stat then 0%nat
  else if TagStat.non_critical stat then 1%nat
  else if str_bool (TagStat.combined stat) then 2%nat
  else 3%nat.

(** [a] may come before [b]: an earlier bucket, or the same bucket and a
    name that is not greater. *)
Definition tag_order (a b : TagStat.t) : Prop :=
  (bucket a < bucket b)%nat
  ∨ (bucket a = bucket b ∧ String.compare (TagStat.name a) (TagStat.name b) ≠ Gt).

(** At most one of the three markers is set. *)
Definition one_marker (stat : TagStat.t) : bool :=
  match TagStat.critical stat, TagStat.non_critical stat,
        str_bool (TagStat.combined stat) with
  | true, false, false | false, true, false | false, false, true
  | false, false, false => true
  | _, _, _ => false
  end.

(** The place of a [TagStat] among the eight combinations of markers that
    [TagStat.__cmp__] tells apart. *)
Definition rank (stat : TagStat.t) : nat :=
  ((if TagStat.critical stat then 0 else 4)
   + (if TagStat.non_critical stat then 0 else 2)
   + (if str_bool (TagStat.combined stat) then 0 else 1))%nat.

(** ** What one test adds to a tag statistic *)

(** [stat] after [n] calls of [add_test] with the same test. *)
Definition add_test_times (n : nat) (test : Test.t) (stat : TagStat.t) : TagStat.t :=
  Nat.iter n (fun s => TagStat.add_test s test) stat.

Section TagCounting.
Context {TP : Type} `{!TagPatternsOps TP} `{!NormalizeOps}.

(** The literal tags of [test] that pass the include and exclude
    patterns and are filed under [key]. *)
Definition literal_hits (self : TagStatistics.t TP) (test : Test.t)
    (key : string) : nat :=
  length
    (List.filter
       (fun tag => TagStatistics._is_included self tag
                   && String.eqb (normalize tag) key)
       (Test.tags test)).

(** The combined-tag definitions that match the tags of [test] and are
    filed under [key]. *)
Definition combined_hits (combines : list (CombinedTag.t TP)) (test : Test.t)
    (key : string) : nat :=
  length
    (List.filter
       (fun comb => CombinedTag.match_ comb (Test.tags test)
                    && String.eqb (normalize (CombinedTag.name comb)) key)
       combines).

(** Every combined-tag definition has its statistic in the map, as
    [_create_combined] leaves it. *)
Definition seeded (self : TagStatistics.t TP) : Prop :=
  Forall
    (fun comb =>
       is_Some (TagStatistics.stats self !! normalize (CombinedTag.name comb)))
    (TagStatistics._combine self).

(** The same tag statistics under other include and exclude patterns. *)
Definition with_filters (include exclude : TP) (self : TagStatistics.t TP)
    : TagStatistics.t TP :=
  TagStatistics.mk (TagStatistics.stats self) include exclude
    (TagStatistics._info self) (TagStatistics._combine self).
End TagCounting.

(** ** The states of a traversal *)

(** A [SuiteStatistics] object after counting tests: [p], [f] more in
    [all], [pc], [fc] more in [critical], and [refs] more children. *)
Definition grown (self : SuiteStatistics.t) (p f pc fc : Z) (refs : list nat)
    : SuiteStatistics.t :=
  SuiteStatistics.mk (bump (SuiteStatistics.all self) p f)
    (bump (SuiteStatistics.critical self) pc fc)
    (SuiteStatistics.suites self ++ refs).

Definition b2z (b : bool) : Z := if b then 1 else 0.

(** The tests of a list that satisfy [p], as a count. *)
Definition tally (p : Test.t → bool) (tests : list Test.t) : Z :=
  Z.of_nat (length (List.filter p tests)).

(** [self] after counting tests, [count q] of them satisfying [q], and
    attaching the children [refs]. *)
Definition counted (self : SuiteStatistics.t) (count : (Test.t → bool) → Z)
    (refs : list nat) : SuiteStatistics.t :=
  grown self
    (count (fun t => any_test t && is_passed t))
    (count (fun t => any_test t && is_failed t))
    (count (fun t => is_marked_critical t && is_passed t))
    (count (fun t => is_marked_critical t && is_failed t)) refs.

Section BuilderStates.
Context {TP : Type} `{!TagPatternsOps TP} `{!NormalizeOps}.
Implicit Types (b : StatisticsBuilder.t TP) (cur : SuiteStatistics.t).

(** The builder is at the object [cur], stored at [c]. *)
Definition ready b (c : nat) cur : Prop :=
  StatisticsBuilder._current_suite_stat b = Some c
  ∧ StatisticsBuilder.store b !! c = Some cur
  ∧ seeded (StatisticsBuilder._tag_stats b).

(** From [b] to [b']: [fresh] objects were allocated, the current object
    [cur] has counted tests and got children, and nothing else that [b]
    had has changed. *)
Definition visited b b' (c : nat) cur (fresh : nat) (count : (Test.t → bool) → Z)
    (refs : list nat) : Prop :=
  length (StatisticsBuilder.store b') = (length (StatisticsBuilder.store b) + fresh)%nat
  ∧ StatisticsBuilder._parents b' = StatisticsBuilder._parents b
  ∧ StatisticsBuilder._suite_stat_level b' = StatisticsBuilder._suite_stat_level b
  ∧ is_Some (StatisticsBuilder._current_suite b')
  ∧ (∀ i, (i < length (StatisticsBuilder.store b))%nat → i ≠ c →
       StatisticsBuilder.store b' !! i = StatisticsBuilder.store b !! i)
  ∧ ready b' c (counted cur count refs).

(** What visiting [suite] does, from any builder that is at an object. *)
Definition suite_visited (suite : TestSuite.t) : Prop :=
  ∀ b c cur,
    ready b c cur →
    ∃ b',
      StatisticsBuilder.visit_suite suite b = Some b'
      ∧ visited b b' c cur (suite_count suite)
          (fun q => Z.of_nat (count_tests q suite))
          (if attached (StatisticsBuilder._suite_stat_level b)
                (length (StatisticsBuilder._parents b))
           then [length (StatisticsBuilder.store b)] else [])
      ∧ holds_tree (StatisticsBuilder.store b')
          (length (StatisticsBuilder.store b))
          (length (StatisticsBuilder.store b) + suite_count suite)
          (length (StatisticsBuilder.store b))
          (stats_tree (StatisticsBuilder._suite_stat_level b)
             (length (StatisticsBuilder._parents b)) suite).

(** The same builder under another depth limit. *)
Definition with_level (level : Z) b : StatisticsBuilder.t TP :=
  StatisticsBuilder.mk (StatisticsBuilder.store b) (StatisticsBuilder._tag_stats b)
    (StatisticsBuilder._parents b) level (StatisticsBuilder._current_suite_stat b)
    (StatisticsBuilder._current_suite b).
End BuilderStates.

(** ** The rest of [class Stat]: counting a whole suite *)

Section AddSuite.
(** [suite.all_stats]: an attribute of the suite that this file reads
    and does not define. *)
Variable all_stats : TestSuite.t → Stat.t.

(** [Stat._is_included] *)
Definition Stat_is_included (self : Stat.t) (test : Test.t) : bool := true.

(** [Stat._subsuite_stats] *)
Definition Stat_subsuite_stats (self : Stat.t) (suite : TestSuite.t) : Stat.t :=
  all_stats suite.

(** [Stat.add_suite] *)
Definition Stat_add_suite (self : Stat.t) (suite : TestSuite.t) : Stat.t :=
  let self1 :=
    fold_left
      (fun self test =>
         if Stat_is_included self test then Stat.add_test self test else self)
      (TestSuite.tests suite) self in
  fold_left (fun self suite => Stat.add_stat self (Stat_subsuite_stats self suite))
    (TestSuite.suites suite) self1.
End AddSuite.

(** ** [SuiteStatistics.__iter__]

    The generator of the object at [ref], run to its end: its own [all],
    then what each of its [suites] yields.  [fuel] bounds the depth of
    the object graph that is followed. *)
Fixpoint SuiteStatistics_iter (fuel : nat) (store : list SuiteStatistics.t) (ref : nat)
    : option (list SuiteStat.t) :=
  match fuel with
  | O => None
  | S fuel' =>
      self ← store !! ref;
      below ← mapM (SuiteStatistics_iter fuel' store) (SuiteStatistics.suites self);
      Some (SuiteStatistics.all self :: concat below)
  end.

(** ** [class TotalStat(Stat)], [class TotalStatistics] *)

Module TotalStat.
(** [TotalStat.__init__]: [Stat.__init__], then the two counters are
    assigned from [suite_stat]. *)
Definition init (name : string) (suite_stat : SuiteStat.t) : Stat.t :=
  let self := Stat.init name in
  let self1 := Stat.mk (Stat.name self) (SuiteStat.passed suite_stat) (Stat.failed self) in
  Stat.mk (Stat.name self1) (Stat.passed self1) (SuiteStat.failed suite_stat).
End TotalStat.

Module TotalStatistics.
Record t := mk {
  critical : Stat.t;
  all : Stat.t
}.

(** [TotalStatistics.__init__] *)
Definition init (suite : SuiteStatistics.t) : t :=
  mk (TotalStat.init "Critical Tests" (SuiteStatistics.critical suite))
     (TotalStat.init "All Tests" (SuiteStatistics.all suite)).

(** [TotalStatistics.__iter__] *)
Definition iter (self : t) : list Stat.t := [critical self; all self].
End TotalStatistics.

(** ** [class Statistics] *)

Module Statistics.
Section WithCollaborators.
Context {TP : Type} `{!TagPatternsOps TP} `{!NormalizeOps}.
(** [list.sort()] on a list of tests: the order of test objects is not
    defined in this file. *)
Context (sort_tests : list Test.t → list Test.t).

(** [TagStatistics.sort] *)
Definition TagStatistics_sort (self : TagStatistics.t TP) : TagStatistics.t TP :=
  TagStatistics.set_stats self
    ((fun stat =>
        TagStat.mk (TagStat.base stat) (TagStat.doc stat) (TagStat.links stat)
          (TagStat.critical stat) (TagStat.non_critical stat) (TagStat.combined stat)
          (sort_tests (TagStat.tests stat)))
       <$> TagStatistics.stats self).

(** [suite] is the reference of the root [SuiteStatistics] in [store]. *)
Record t := mk {
  tags : TagStatistics.t TP;
  store : list SuiteStatistics.t;
  suite : nat;
  total : TotalStatistics.t
}.

(** [Statistics.__init__]; the arguments that default to [None] are
    given as [TagStatistics.__init__] takes them. *)
Definition init (suite : TestSuite.t) (suite_stat_level : Z)
    (tag_stat_include tag_stat_exclude : patterns_arg)
    (tag_stat_combine : list (string * option string))
    (tag_doc : list (string * string))
    (tag_stat_link : list (string * string * string)) : option t :=
  tags ← TagStatistics.init tag_stat_include tag_stat_exclude tag_stat_combine
            tag_doc tag_stat_link;
  '(root, builder) ←
    StatisticsBuilder.build (StatisticsBuilder.init [] tags suite_stat_level) suite;
  let tags1 := TagStatistics_sort (StatisticsBuilder._tag_stats builder) in
  self ← StatisticsBuilder.store builder !! root;
  Some (mk tags1 (StatisticsBuilder.store builder) root (TotalStatistics.init self)).
End WithCollaborators.
Arguments t TP : clear implicits.
End Statistics.

(** ** What the rest of the file is compared with *)

(** The stats that iterating a statistics tree yields: a node's [all],
    then those of its children, in order. *)
Fixpoint tree_iter (n : SuiteStatistics.tree) : list SuiteStat.t :=
  let 'SuiteStatistics.Node all _ suites := n in
  all :: concat (List.map tree_iter suites).

(** The suites that have a node in the statistics tree of a suite entered
    below [depth] parents, parents before children. *)
Fixpoint shown_suites (level : Z) (depth : nat) (suite : TestSuite.t)
    : list TestSuite.t :=
  suite ::
    (let 'TestSuite.mk _ _ _ _ suites _ := suite in
     if attached level (S depth)
     then concat (List.map (shown_suites level (S depth)) suites)
     else []).

(** The suite that [_current_suite] names when the visit of [suite] ends:
    [start_suite] sets it and [end_suite] leaves it, so it is the suite
    entered last, the suite itself when it has no sub-suite. *)
Fixpoint last_entered (suite : TestSuite.t) : TestSuite.t :=
  let 'TestSuite.mk _ _ _ _ suites _ := suite in
  fold_left (fun _ s => last_entered s) suites suite.

(** Every test of a suite tree in the order of the traversal, with the
    criticality that [visit_test] reads for it: [_current_suite.critical]. *)
Fixpoint tagged_tests (suite : TestSuite.t) : list (Test.t * Criticality) :=
  let 'TestSuite.mk _ _ _ _ suites tests := suite in
  concat (List.map tagged_tests suites)
    ++ List.map (fun test => (test, TestSuite.critical (last_entered suite))) tests.

Section TagRuns.
Context {TP : Type} `{!TagPatternsOps TP} `{!NormalizeOps}.

(** [TagStatistics.add_test] on each test of a list, in order. *)
Fixpoint add_tests (items : list (Test.t * Criticality)) (self : TagStatistics.t TP)
    : option (TagStatistics.t TP) :=
  match items with
  | [] => Some self
  | (test, critical) :: items' =>
      self' ← TagStatistics.add_test self test critical;
      add_tests items' self'
  end.

(** The first tag of [test] that passes the include and exclude patterns
    and is filed under [key]. *)
Definition first_spelling (self : TagStatistics.t TP) (test : Test.t) (key : string)
    : option string :=
  head
    (List.filter
       (fun tag => TagStatistics._is_included self tag && String.eqb (normalize tag) key)
       (Test.tags test)).

(** How often the tests of a list are counted into the entry of [key]:
    once for every tag that passes the filters and is filed there, once
    for every matching combined tag filed there. *)
Definition key_hits (self : TagStatistics.t TP) (items : list (Test.t * Criticality))
    (key : string) : nat :=
  list_sum
    (List.map
       (fun item =>
          (literal_hits self (fst item) key
           + combined_hits (TagStatistics._combine self) (fst item) key)%nat)
       items).

(** What the visit of a suite does to the tag statistics and to
    [_current_suite]. *)
Definition suite_fed (suite : TestSuite.t) : Prop :=
  ∀ b b' : StatisticsBuilder.t TP,
    StatisticsBuilder.visit_suite suite b = Some b' →
    StatisticsBuilder._current_suite b' = Some (last_entered suite)
    ∧ add_tests (tagged_tests suite) (StatisticsBuilder._tag_stats b)
      = Some (StatisticsBuilder._tag_stats b').
End TagRuns.

(** The counters of a [TagStat] are the numbers of passed and of failed
    tests in its own list of tests. *)
Definition tallied (stat : TagStat.t) : Prop :=
  TagStat.passed stat = tally is_passed (TagStat.tests stat)
  ∧ TagStat.failed stat = tally is_failed (TagStat.tests stat).

(** An entry of the tag statistics is in order: its counters are those
    of its tests, and it is filed under the key of its own name. *)
Definition entry_ok `{!NormalizeOps} (key : string) (stat : TagStat.t) : Prop :=
  tallied stat ∧ key = normalize (TagStat.name stat).

(** The place of an answer of [TagStat._info] in the order critical,
    non-critical, combined, none. *)
Definition info_rank (info : string) : nat :=
  if String.eqb info "critical" then 0%nat
  else if String.eqb info "non-critical" then 1%nat
  else if String.eqb info "combined" then 2%nat
  else 3%nat.

(** A text with its ASCII capital letters made small: what matching
    under [re.IGNORECASE] compares. *)
Fixpoint fold_case (text : string) : string :=
  match text with
  | EmptyString => EmptyString
  | String c rest => String (re.lower c) (fold_case rest)
  end.

(** What a wildcard may capture: any text without a newline, for a run
    of [n] question marks of exactly [n] characters. *)
Definition captures (w : wildcard) (group : string) : Prop :=
  no_newline group = true
  ∧ match w with
    | Star => True
    | Marks n => String.length group = n
    end.

(** Whether a match attempt found a match. *)
Definition found {R : Type} (o : option R) : bool :=
  match o with
  | Some _ => true
  | None => false
  end.

(** * Properties *)

(** ** The counters *)

Lemma Stat_add_test_total (self : Stat.t) (test : Test.t) :
  Stat.total (Stat.add_test self test) = Stat.total self + 1.
Proof.
  unfold Stat.add_test, Stat.total.
  destruct (String.eqb (Test.status test) "PASS"); cbn; lia.
Qed.

(** C8: one call of [Stat.add_test] adds one to exactly one of [passed]
    and [failed] and leaves the other as it was, so [total] grows by
    exactly one. *)
Theorem add_test_increments_exactly_one (self : Stat.t) (test : Test.t) :
  let self' := Stat.add_test self test in
  ((Stat.passed self' = Stat.passed self + 1 ∧ Stat.failed self' = Stat.failed self)
   ∨ (Stat.passed self' = Stat.passed self ∧ Stat.failed self' = Stat.failed self + 1))
  ∧ ¬ (Stat.passed self' = Stat.passed self + 1 ∧ Stat.failed self' = Stat.failed self + 1)
  ∧ ¬ (Stat.passed self' = Stat.passed self ∧ Stat.failed self' = Stat.failed self)
  ∧ Stat.total self' = Stat.total self + 1
  ∧ Stat.name self' = Stat.name self.
Proof.
  unfold Stat.add_test, Stat.total.
  destruct (String.eqb (Test.status test) "PASS"); cbn; repeat split; lia.
Qed.

(** C9: a test counts as passed only when its status is the text [PASS],
    letter for letter; with any other status, [FAIL] or not, it counts as
    failed, and no status makes [add_test] fail. *)
Theorem add_test_passes_only_PASS (self : Stat.t) (test : Test.t) :
  ((Test.status test = "PASS"
    ∧ Stat.add_test self test
      = Stat.mk (Stat.name self) (Stat.passed self + 1) (Stat.failed self))
   ∨ (Test.status test ≠ "PASS"
      ∧ Stat.add_test self test
        = Stat.mk (Stat.name self) (Stat.passed self) (Stat.failed self + 1)))
  ∧ Forall
      (fun status =>
         Stat.add_test self (Test.mk (Test.name test) status (Test.critical test)
                               (Test.tags test))
         = Stat.mk (Stat.name self) (Stat.passed self) (Stat.failed self + 1))
      ["FAIL"; "pass"; "Pass"; "PASS "; "PASSED"; ""; "NOT RUN"; "???"].
Proof.
  split.
  - unfold Stat.add_test.
    destruct (String.eqb_spec (Test.status test) "PASS"); [left | right]; done.
  - repeat constructor.
Qed.

(** C10: [Stat.fail_all] sets [passed] to 0 and [failed] to the former
    [passed + failed]; it keeps [total], and a second call changes
    nothing. *)
Theorem fail_all_moves_passed_to_failed (self : Stat.t) :
  Stat.passed (Stat.fail_all self) = 0
  ∧ Stat.failed (Stat.fail_all self) = Stat.passed self + Stat.failed self
  ∧ Stat.total (Stat.fail_all self) = Stat.total self
  ∧ Stat.fail_all (Stat.fail_all self) = Stat.fail_all self.
Proof.
  unfold Stat.fail_all, Stat.total; cbn.
  repeat split; try lia.
  f_equal; lia.
Qed.

(** ** Sorting by [__cmp__] *)

Section SortedFacts.
Context {A : Type} (cmp : A → A → comparison).

Hypothesis cmp_antisym : ∀ x y, cmp x y = CompOpp (cmp y x).
Hypothesis cmp_le_trans : ∀ x y z, cmp_le cmp x y → cmp_le cmp y z → cmp_le cmp x z.

Lemma sorted_insert_perm (x : A) (l : list A) :
  Permutation (sorted_insert cmp x l) (x :: l).
Proof.
  induction l as [|y l IH]; cbn; [done|].
  destruct (cmp x y); try done.
  all: rewrite IH; apply perm_swap.
Qed.

Lemma sorted_insert_sorted (x : A) (l : list A) :
  StronglySorted (cmp_le cmp) l → StronglySorted (cmp_le cmp) (sorted_insert cmp x l).
Proof.
  induction 1 as [|y l Hl IH Hy]; cbn.
  - repeat constructor.
  - destruct (cmp x y) eqn:Hxy.
    + constructor; [done|].
      rewrite sorted_insert_perm. constructor; [|done].
      unfold cmp_le. rewrite cmp_antisym, Hxy. done.
    + constructor; [by constructor|].
      assert (cmp_le cmp x y) as Hle by (unfold cmp_le; congruence).
      constructor; [done|].
      eapply Forall_impl; [exact Hy|]. intros z Hz. by eapply cmp_le_trans.
    + constructor; [done|].
      rewrite sorted_insert_perm. constructor; [|done].
      unfold cmp_le. rewrite cmp_antisym, Hxy. done.
Qed.

Lemma sorted_fold_perm (l acc : list A) :
  Permutation (fold_left (fun acc x => sorted_insert cmp x acc) l acc) (acc ++ l).
Proof.
  revert acc. induction l as [|x l IH]; intros acc; cbn.
  - by rewrite app_nil_r.
  - rewrite IH, sorted_insert_perm. cbn. apply Permutation_middle.
Qed.

Lemma sorted_fold_sorted (l acc : list A) :
  StronglySorted (cmp_le cmp) acc →
  StronglySorted (cmp_le cmp) (fold_left (fun acc x => sorted_insert cmp x acc) l acc).
Proof.
  revert acc. induction l as [|x l IH]; intros acc Hacc; cbn; [done|].
  apply IH. by apply sorted_insert_sorted.
Qed.

Lemma sorted_perm (l : list A) : Permutation (sorted cmp l) l.
Proof. unfold sorted. by rewrite sorted_fold_perm. Qed.

Lemma sorted_sorted (l : list A) : StronglySorted (cmp_le cmp) (sorted cmp l).
Proof. apply sorted_fold_sorted. constructor. Qed.
End SortedFacts.

Lemma StronglySorted_weaken {A} (R R' : A → A → Prop) (l : list A) :
  (∀ x y, x ∈ l → y ∈ l → R x y → R' x y) →
  StronglySorted R l → StronglySorted R' l.
Proof.
  intros HR Hl. induction Hl as [|x l Hl IH Hx]; constructor.
  - apply IH. intros y z Hy Hz. apply HR; by constructor.
  - rewrite Forall_forall in Hx |- *. intros y Hy.
    apply HR; [by constructor | by constructor | by apply Hx].
Qed.

(** The order of strings is transitive. *)
Lemma string_compare_trans (a b c : string) :
  String.compare a b ≠ Gt → String.compare b c ≠ Gt → String.compare a c ≠ Gt.
Proof.
  revert b c. induction a as [|x a IH]; intros [|y b] [|z c]; cbn; try done.
  unfold Ascii.compare.
  destruct (N.compare_spec (N_of_ascii x) (N_of_ascii y)) as [Hxy|Hxy|Hxy];
    destruct (N.compare_spec (N_of_ascii y) (N_of_ascii z)) as [Hyz|Hyz|Hyz];
    destruct (N.compare_spec (N_of_ascii x) (N_of_ascii z)) as [Hxz|Hxz|Hxz];
    try done; try lia.
  apply IH.
Qed.

(** [TagStat.__cmp__] compares ranks first and names second. *)
Lemma TagStat_cmp_rank (a b : TagStat.t) :
  TagStat.cmp a b =
  match Nat.compare (rank a) (rank b) with
  | Eq => String.compare (TagStat.name a) (TagStat.name b)
  | c => c
  end.
Proof.
  unfold TagStat.cmp, rank.
  destruct (TagStat.critical a), (TagStat.critical b),
    (TagStat.non_critical a), (TagStat.non_critical b),
    (str_bool (TagStat.combined a)), (str_bool (TagStat.combined b)); reflexivity.
Qed.

Lemma TagStat_cmp_antisym (a b : TagStat.t) :
  TagStat.cmp a b = CompOpp (TagStat.cmp b a).
Proof.
  rewrite !TagStat_cmp_rank, (Nat.compare_antisym (rank a) (rank b)).
  destruct (Nat.compare (rank a) (rank b)); cbn; try done.
  apply String.compare_antisym.
Qed.

Lemma TagStat_cmp_le (a b : TagStat.t) :
  cmp_le TagStat.cmp a b ↔
  (rank a < rank b)%nat
  ∨ (rank a = rank b ∧ String.compare (TagStat.name a) (TagStat.name b) ≠ Gt).
Proof.
  unfold cmp_le. rewrite TagStat_cmp_rank.
  destruct (Nat.compare_spec (rank a) (rank b)); split; try done.
  all: try (intros [?|[? ?]]; done || lia).
  all: intros; (right; done) || (left; done).
Qed.

Lemma TagStat_cmp_le_trans (a b c : TagStat.t) :
  cmp_le TagStat.cmp a b → cmp_le TagStat.cmp b c → cmp_le TagStat.cmp a c.
Proof.
  rewrite !TagStat_cmp_le.
  intros [?|[? ?]] [?|[? ?]]; try (left; lia).
  right. split; [lia|]. by eapply string_compare_trans.
Qed.

Lemma rank_bucket (a b : TagStat.t) :
  (rank a ≤ rank b)%nat → (bucket a ≤ bucket b)%nat.
Proof.
  unfold rank, bucket.
  destruct (TagStat.critical a), (TagStat.critical b),
    (TagStat.non_critical a), (TagStat.non_critical b),
    (str_bool (TagStat.combined a)), (str_bool (TagStat.combined b)); cbn; lia.
Qed.

Lemma rank_bucket_one_marker (a b : TagStat.t) :
  one_marker a = true → one_marker b = true →
  ((rank a < rank b)%nat ↔ (bucket a < bucket b)%nat)
  ∧ (rank a = rank b ↔ bucket a = bucket b).
Proof.
  unfold one_marker, rank, bucket.
  destruct (TagStat.critical a), (TagStat.critical b),
    (TagStat.non_critical a), (TagStat.non_critical b),
    (str_bool (TagStat.combined a)), (str_bool (TagStat.combined b)); cbn;
    intros; try done; lia.
Qed.

(** ** The order of iteration over [TagStatistics] *)

Section TagOrder.
Context {TP : Type} `{!TagPatternsOps TP} `{!NormalizeOps}.

Lemma iter_perm (self : TagStatistics.t TP) :
  Permutation (TagStatistics.iter self)
    (map snd (map_to_list (TagStatistics.stats self))).
Proof. apply sorted_perm. Qed.

Lemma iter_sorted_cmp (self : TagStatistics.t TP) :
  StronglySorted (cmp_le TagStat.cmp) (TagStatistics.iter self).
Proof.
  apply sorted_sorted.
  - apply TagStat_cmp_antisym.
  - apply TagStat_cmp_le_trans.
Qed.

(** C7, as amended: when no [TagStat] carries more than one of the
    markers critical, non-critical and combined, iterating
    [TagStatistics] yields its values with the critical tags first, then
    the non-critical, the combined and the plain ones, ascending by name
    within each bucket.  The buckets come in this order whatever the
    markers are. *)
Theorem iter_sorted_by_bucket_then_name (self : TagStatistics.t TP) :
  Forall (fun stat => one_marker stat = true)
    (map snd (map_to_list (TagStatistics.stats self))) →
  Permutation (TagStatistics.iter self)
    (map snd (map_to_list (TagStatistics.stats self)))
  ∧ StronglySorted (fun a b => (bucket a ≤ bucket b)%nat) (TagStatistics.iter self)
  ∧ StronglySorted tag_order (TagStatistics.iter self).
Proof.
  intros Hone. split; [apply iter_perm|]. split.
  - eapply StronglySorted_weaken; [|apply iter_sorted_cmp].
    intros a b _ _ Hab. apply TagStat_cmp_le in Hab.
    apply rank_bucket. lia.
  - eapply StronglySorted_weaken; [|apply iter_sorted_cmp].
    assert (∀ a, a ∈ TagStatistics.iter self → one_marker a = true) as Hin.
    { intros a Ha. rewrite Forall_forall in Hone. apply Hone.
      by rewrite <- (iter_perm self). }
    intros a b Ha Hb Hab. apply TagStat_cmp_le in Hab.
    destruct (rank_bucket_one_marker a b (Hin a Ha) (Hin b Hb)) as [Hlt Heq].
    unfold tag_order. destruct Hab as [?|[? ?]]; [left|right]; [tauto|].
    split; [tauto|done].
Qed.
End TagOrder.

Lemma iter_sorted_by_bucket_then_name_witness :
  ∃ tags,
    Sample.six_stats = Some tags
    ∧ map TagStat.name (TagStatistics.iter tags) = ["A"; "B"; "C"; "D"; "E"; "F"]
    ∧ StronglySorted tag_order (TagStatistics.iter tags).
Proof.
  eexists. split; [reflexivity|]. split; [vm_compute; reflexivity|].
  apply iter_sorted_by_bucket_then_name.
  vm_compute. repeat constructor.
Defined.

(** With a tag that is both critical and non-critical, the critical
    bucket is not in the order of names: the tag [b] comes before [a]. *)
Lemma iter_critical_bucket_not_by_name :
  ∃ tags,
    Sample.overlapping_stats = Some tags
    ∧ map TagStat.name (TagStatistics.iter tags) = ["b"; "a"]
    ∧ map bucket (TagStatistics.iter tags) = [0; 0]%nat
    ∧ ¬ StronglySorted tag_order (TagStatistics.iter tags).
Proof.
  eexists. split; [reflexivity|]. split; [vm_compute; reflexivity|].
  split; [vm_compute; reflexivity|].
  intros Hs. apply StronglySorted_inv in Hs as [_ Hs].
  apply Forall_inv in Hs. vm_compute in Hs.
  destruct Hs as [Hs|[_ Hs]]; [lia|]. by apply Hs.
Qed.

(** ** Counting a test into the tag statistics *)

Lemma add_test_times_S (n : nat) (test : Test.t) (stat : TagStat.t) :
  add_test_times n test (TagStat.add_test stat test)
  = add_test_times (S n) test stat.
Proof.
  unfold add_test_times. symmetry.
  exact (Nat.iter_succ_r n (fun s => TagStat.add_test s test) stat).
Qed.

Lemma add_test_times_total (n : nat) (test : Test.t) (stat : TagStat.t) :
  TagStat.total (add_test_times n test stat) = TagStat.total stat + Z.of_nat n.
Proof.
  induction n as [|n IH]; [cbn; lia|].
  change (add_test_times (S n) test stat)
    with (TagStat.add_test (add_test_times n test stat) test).
  unfold TagStat.total in *. cbn [TagStat.add_test TagStat.base].
  rewrite Stat_add_test_total. lia.
Qed.

Lemma add_test_times_tests (n : nat) (test : Test.t) (stat : TagStat.t) :
  TagStat.tests (add_test_times n test stat) = TagStat.tests stat ++ repeat test n.
Proof.
  induction n as [|n IH]; [cbn; by rewrite app_nil_r|].
  change (add_test_times (S n) test stat)
    with (TagStat.add_test (add_test_times n test stat) test).
  cbn [TagStat.add_test TagStat.tests].
  rewrite IH, <- app_assoc. f_equal. cbn [repeat]. symmetry. apply repeat_cons.
Qed.

Section TagFacts.
Context {TP : Type} `{!TagPatternsOps TP} `{!NormalizeOps}.
Implicit Types (self : TagStatistics.t TP) (test : Test.t).

Lemma add_tag_statistics_fields self test critical tag :
  let self' := TagStatistics._add_tag_statistics self test critical tag in
  TagStatistics._include self' = TagStatistics._include self
  ∧ TagStatistics._exclude self' = TagStatistics._exclude self
  ∧ TagStatistics._info self' = TagStatistics._info self
  ∧ TagStatistics._combine self' = TagStatistics._combine self.
Proof.
  unfold TagStatistics._add_tag_statistics.
  by destruct (TagStatistics._is_included self tag).
Qed.

Lemma is_included_fields self self' tag :
  TagStatistics._include self' = TagStatistics._include self →
  TagStatistics._exclude self' = TagStatistics._exclude self →
  TagStatistics._is_included self' tag = TagStatistics._is_included self tag.
Proof. unfold TagStatistics._is_included. by intros -> ->. Qed.

(** One literal tag: the statistic under an existing key is counted
    into when the tag is taken and filed there, and is untouched
    otherwise. *)
Lemma add_tag_statistics_lookup self test critical tag key before :
  TagStatistics.stats self !! key = Some before →
  TagStatistics.stats (TagStatistics._add_tag_statistics self test critical tag) !! key
  = Some (add_test_times
            (if TagStatistics._is_included self tag && String.eqb (normalize tag) key
             then 1 else 0) test before).
Proof.
  intros Hkey. unfold TagStatistics._add_tag_statistics.
  destruct (TagStatistics._is_included self tag); cbn; [|done].
  destruct (String.eqb_spec (normalize tag) key) as [->|Hne].
  - by rewrite Hkey, lookup_insert_eq.
  - by rewrite lookup_insert_ne.
Qed.

Lemma add_tags_statistics_fold tags self test critical key before :
  TagStatistics.stats self !! key = Some before →
  let self' :=
    fold_left
      (fun self tag => TagStatistics._add_tag_statistics self test critical tag)
      tags self in
  TagStatistics.stats self' !! key
  = Some (add_test_times
            (length
               (List.filter
                  (fun tag => TagStatistics._is_included self tag
                              && String.eqb (normalize tag) key) tags))
            test before)
  ∧ TagStatistics._include self' = TagStatistics._include self
  ∧ TagStatistics._exclude self' = TagStatistics._exclude self
  ∧ TagStatistics._info self' = TagStatistics._info self
  ∧ TagStatistics._combine self' = TagStatistics._combine self.
Proof.
  revert self before. induction tags as [|tag tags IH]; intros self before Hkey; [done|].
  cbn [fold_left List.filter].
  pose proof (add_tag_statistics_lookup self test critical tag key before Hkey) as Hstep.
  destruct (add_tag_statistics_fields self test critical tag) as (Hi & He & Hf & Hc).
  cbn zeta in *.
  destruct (IH _ _ Hstep) as (Hl & Hi' & He' & Hf' & Hc').
  split; [|by rewrite Hi', He', Hf', Hc'].
  rewrite Hl.
  erewrite (filter_ext _ (fun tag0 => TagStatistics._is_included self tag0
                                  && String.eqb (normalize tag0) key)).
  2:{ intros tag0. by rewrite (is_included_fields self _ tag0). }
  destruct (TagStatistics._is_included self tag && String.eqb (normalize tag) key); cbn.
  - by rewrite add_test_times_S.
  - done.
Qed.

(** The combined-tag definitions, on a map that holds their keys. *)
Lemma add_combined_loop_lookup combines test (stats : gmap string TagStat.t) :
  Forall (fun comb => is_Some (stats !! normalize (CombinedTag.name comb))) combines →
  ∃ stats',
    TagStatistics._add_combined_loop combines test stats = Some stats'
    ∧ ∀ key before,
        stats !! key = Some before →
        stats' !! key = Some (add_test_times (combined_hits combines test key) test before).
Proof.
  revert stats. induction combines as [|comb combines IH]; intros stats Hall.
  - exists stats. split; [done|]. by intros key before ->.
  - apply Forall_cons in Hall as [[stat Hstat] Hall].
    cbn [TagStatistics._add_combined_loop]. unfold combined_hits. cbn [List.filter].
    destruct (CombinedTag.match_ comb (Test.tags test)); cbn.
    + rewrite Hstat. cbn.
      destruct (IH (<[normalize (CombinedTag.name comb) := TagStat.add_test stat test]> stats))
        as (stats' & Hloop & Hlook).
      { eapply Forall_impl; [exact Hall|]. intros c [x Hx].
        destruct (decide (normalize (CombinedTag.name comb) = normalize (CombinedTag.name c)))
          as [<-|Hne]; [by rewrite lookup_insert_eq | by rewrite lookup_insert_ne]. }
      exists stats'. split; [done|]. intros key before Hkey.
      destruct (String.eqb_spec (normalize (CombinedTag.name comb)) key) as [<-|Hne]; cbn.
      * rewrite Hkey in Hstat. injection Hstat as <-.
        erewrite Hlook; [|by rewrite lookup_insert_eq].
        by rewrite add_test_times_S.
      * apply Hlook. by rewrite lookup_insert_ne.
    + destruct (IH stats Hall) as (stats' & Hloop & Hlook). eauto.
Qed.

(** [add_test] on seeded tag statistics succeeds, and tells for every
    key already present what its statistic becomes. *)
Lemma add_test_lookup self test critical :
  seeded self →
  ∃ self',
    TagStatistics.add_test self test critical = Some self'
    ∧ TagStatistics._include self' = TagStatistics._include self
    ∧ TagStatistics._exclude self' = TagStatistics._exclude self
    ∧ TagStatistics._info self' = TagStatistics._info self
    ∧ TagStatistics._combine self' = TagStatistics._combine self
    ∧ ∀ key before,
        TagStatistics.stats self !! key = Some before →
        TagStatistics.stats self' !! key
        = Some (add_test_times
                  (literal_hits self test key
                   + combined_hits (TagStatistics._combine self) test key)
                  test before).
Proof.
  intros Hseeded.
  unfold TagStatistics.add_test, TagStatistics._add_combined_statistics,
    TagStatistics._add_tags_statistics.
  set (self1 := fold_left _ _ _).
  assert (∀ key before, TagStatistics.stats self !! key = Some before →
            TagStatistics.stats self1 !! key
            = Some (add_test_times (literal_hits self test key) test before)
            ∧ TagStatistics._include self1 = TagStatistics._include self
            ∧ TagStatistics._exclude self1 = TagStatistics._exclude self
            ∧ TagStatistics._info self1 = TagStatistics._info self
            ∧ TagStatistics._combine self1 = TagStatistics._combine self) as Hfold.
  { intros key before Hkey.
    exact (add_tags_statistics_fold (Test.tags test) self test critical key before Hkey). }
  assert (TagStatistics._include self1 = TagStatistics._include self
          ∧ TagStatistics._exclude self1 = TagStatistics._exclude self
          ∧ TagStatistics._info self1 = TagStatistics._info self
          ∧ TagStatistics._combine self1 = TagStatistics._combine self)
    as (Hi & He & Hf & Hc).
  { subst self1. clear. generalize (Test.tags test) as tags. intros tags.
    revert self. induction tags as [|tag tags IH]; intros self; [done|].
    cbn [fold_left].
    destruct (add_tag_statistics_fields self test critical tag) as (Hi & He & Hf & Hc).
    cbn zeta in *.
    destruct (IH (TagStatistics._add_tag_statistics self test critical tag))
      as (Hi' & He' & Hf' & Hc').
    by rewrite Hi', He', Hf', Hc'. }
  destruct (add_combined_loop_lookup (TagStatistics._combine self1) test
              (TagStatistics.stats self1)) as (stats' & Hloop & Hlook).
  { rewrite Hc. eapply Forall_impl; [exact Hseeded|]. intros c [x Hx].
    destruct (Hfold _ _ Hx) as [-> _]. eauto. }
  rewrite Hloop. cbn. eexists. split; [done|]. cbn.
  repeat (split; [done|]).
  intros key before Hkey. destruct (Hfold _ _ Hkey) as [Hmid _].
  rewrite (Hlook _ _ Hmid), Hc.
  f_equal. unfold add_test_times. by rewrite Nat.add_comm, Nat.iter_add.
Qed.

Lemma add_test_seeded self test critical :
  seeded self →
  ∃ self', TagStatistics.add_test self test critical = Some self' ∧ seeded self'.
Proof.
  intros Hseeded.
  destruct (add_test_lookup self test critical Hseeded)
    as (self' & Hadd & _ & _ & _ & Hc & Hlook).
  exists self'. split; [done|]. unfold seeded. rewrite Hc.
  eapply Forall_impl; [exact Hseeded|]. intros c [x Hx].
  rewrite (Hlook _ _ Hx). eauto.
Qed.

Lemma create_combined_loop_keeps info combines (stats : gmap string TagStat.t) key :
  is_Some (stats !! key) →
  is_Some (TagStatistics._create_combined_loop info combines stats !! key).
Proof.
  revert stats. induction combines as [|comb combines IH]; intros stats Hkey; [done|].
  cbn. apply IH.
  destruct (decide (normalize (CombinedTag.name comb) = key)) as [<-|Hne];
    [by rewrite lookup_insert_eq | by rewrite lookup_insert_ne].
Qed.

Lemma create_combined_loop_seeds info combines (stats : gmap string TagStat.t) :
  Forall
    (fun comb =>
       is_Some (TagStatistics._create_combined_loop info combines stats
                  !! normalize (CombinedTag.name comb)))
    combines.
Proof.
  revert stats. induction combines as [|comb combines IH]; intros stats; [done|].
  constructor; [|apply IH].
  cbn. apply create_combined_loop_keeps. by rewrite lookup_insert_eq.
Qed.

(** [TagStatistics.__init__] leaves seeded tag statistics. *)
Lemma init_seeded include exclude combine docs links self :
  TagStatistics.init include exclude combine docs links = Some self →
  seeded self.
Proof.
  unfold TagStatistics.init. intros Hinit.
  destruct (TagStatInfo.init docs links) as [info|]; [|done].
  cbn in Hinit. injection Hinit as <-.
  apply create_combined_loop_seeds.
Qed.
End TagFacts.

Lemma filter_rejected {A} (f g : A → bool) (l : list A) :
  Forall (fun x => f x = false) l → List.filter (fun x => f x && g x) l = [].
Proof.
  induction 1 as [|x l Hx _ IH]; [done|]. cbn. by rewrite Hx.
Qed.

Section CombinedTags.
Context {TP : Type} `{!TagPatternsOps TP} `{!NormalizeOps}.

(** C4: on tag statistics as [__init__] and earlier tests leave them,
    [add_test] counts the test into the statistic of every combined-tag
    definition whose pattern matches the tags of the test: once for
    each matching definition filed under that name, on top of what the
    literal tags that pass the filters add there.  The combined step
    never reads the include and exclude patterns, and when they reject
    every literal tag of the test the statistic still gets its count. *)
Theorem combined_tag_counted_whatever_the_filters
    (self : TagStatistics.t TP) (test : Test.t) (critical : Criticality)
    (comb : CombinedTag.t TP) :
  seeded self →
  comb ∈ TagStatistics._combine self →
  CombinedTag.match_ comb (Test.tags test) = true →
  let key := normalize (CombinedTag.name comb) in
  let hits := combined_hits (TagStatistics._combine self) test key in
  ∃ self' before after,
    TagStatistics.add_test self test critical = Some self'
    ∧ TagStatistics.stats self !! key = Some before
    ∧ TagStatistics.stats self' !! key = Some after
    ∧ after = add_test_times (literal_hits self test key + hits) test before
    ∧ (1 ≤ hits)%nat
    ∧ TagStat.total before + 1 ≤ TagStat.total after
    ∧ test ∈ TagStat.tests after
    ∧ (Forall (fun tag => TagStatistics._is_included self tag = false) (Test.tags test) →
       after = add_test_times hits test before)
    ∧ ∀ include exclude,
        TagStatistics.stats
          <$> TagStatistics._add_combined_statistics (with_filters include exclude self) test
        = TagStatistics.stats <$> TagStatistics._add_combined_statistics self test.
Proof.
  intros Hseeded Hin Hmatch key hits.
  destruct (add_test_lookup self test critical Hseeded)
    as (self' & Hadd & _ & _ & _ & _ & Hlook).
  assert (is_Some (TagStatistics.stats self !! key)) as [before Hbefore].
  { unfold seeded in Hseeded. rewrite Forall_forall in Hseeded. by apply Hseeded. }
  assert (1 ≤ hits)%nat as Hhits.
  { subst hits. unfold combined_hits.
    assert (comb ∈ List.filter
              (fun c => CombinedTag.match_ c (Test.tags test)
                        && String.eqb (normalize (CombinedTag.name c)) key)
              (TagStatistics._combine self)) as Hc.
    { apply list_elem_of_In, filter_In. split; [by apply list_elem_of_In|].
      rewrite Hmatch. cbn. apply String.eqb_refl. }
    destruct (List.filter _ _); [by apply elem_of_nil in Hc | cbn; lia]. }
  exists self', before, (add_test_times (literal_hits self test key + hits) test before).
  split; [done|]. split; [done|]. split; [by apply Hlook|]. split; [done|].
  split; [done|]. split; [rewrite add_test_times_total; lia|]. split.
  { rewrite add_test_times_tests. apply elem_of_app. right.
    destruct (literal_hits self test key + hits)%nat eqn:Hn; [lia|]. cbn. by left. }
  split.
  { intros Hrej. f_equal. unfold literal_hits.
    replace (List.filter _ (Test.tags test)) with (@nil string); [done|].
    symmetry. by apply filter_rejected. }
  intros include exclude.
  unfold TagStatistics._add_combined_statistics, with_filters. cbn.
  by destruct (TagStatistics._add_combined_loop _ _ _).
Qed.
End CombinedTags.

Section CombinedTagsSample.
#[local] Existing Instance Sample.exact_patterns.
#[local] Existing Instance Sample.normal_keys.

Lemma combined_tag_counted_whatever_the_filters_witness :
∃ self self' before after,
  Sample.tag_stats = Some self
  ∧ Forall (fun tag => TagStatistics._is_included self tag = false) ["smoke"; "slow"]
  ∧ TagStatistics.add_test self
      (Sample.test "b1" "PASS" "no" ["smoke"; "slow"]) Sample.no_criticality
    = Some self'
  ∧ TagStatistics.stats self !! "smokeorslow" = Some before
  ∧ TagStatistics.stats self' !! "smokeorslow" = Some after
  ∧ TagStat.total before + 1 ≤ TagStat.total after.
Proof.
pose (self := default (TagStatistics.mk ∅ [] [] (TagStatInfo.mk [] []) [])
                Sample.tag_stats).
destruct (combined_tag_counted_whatever_the_filters
            self (Sample.test "b1" "PASS" "no" ["smoke"; "slow"])
            Sample.no_criticality
            (CombinedTag.init "slow" (Some "smoke_or_slow")))
  as (self' & before & after & Hadd & Hb & Ha & _ & _ & Htotal & _).
- repeat constructor; eexists; vm_compute; reflexivity.
- right. left.
- reflexivity.
- exists self, self', before, after.
  split; [vm_compute; reflexivity|].
  split; [repeat constructor; vm_compute; reflexivity|].
  split; [exact Hadd|]. split; [exact Hb|]. split; [exact Ha|]. exact Htotal.
Defined.
End CombinedTagsSample.

(** ** The suite aggregator *)

Lemma TestSuite_induction (P : TestSuite.t → Prop) :
  (∀ longname name id critical suites tests,
      Forall P suites → P (TestSuite.mk longname name id critical suites tests)) →
  ∀ suite, P suite.
Proof.
  intros step. fix IH 1. intros [longname name id critical suites tests].
  apply step. induction suites as [|s suites IHs]; constructor; [apply IH | exact IHs].
Qed.

Lemma tree_induction (P : SuiteStatistics.tree → Prop) :
  (∀ all critical children,
      Forall P children → P (SuiteStatistics.Node all critical children)) →
  ∀ n, P n.
Proof.
  intros step. fix IH 1. intros [all critical children].
  apply step. induction children as [|c children IHc]; constructor; [apply IH | exact IHc].
Qed.

Lemma bump_bump (stat : SuiteStat.t) (p f p' f' : Z) :
  bump (bump stat p f) p' f' = bump stat (p + p') (f + f').
Proof. unfold bump, SuiteStat.passed, SuiteStat.failed. cbn. do 2 f_equal; lia. Qed.

Lemma bump_zero (stat : SuiteStat.t) : bump stat 0 0 = stat.
Proof.
  destruct stat as [[name passed failed] id attrs].
  unfold bump, SuiteStat.passed, SuiteStat.failed. cbn. do 2 f_equal; lia.
Qed.

Lemma add_stat_bump (self other : SuiteStat.t) :
  SuiteStat.add_stat self other
  = bump self (SuiteStat.passed other) (SuiteStat.failed other).
Proof. reflexivity. Qed.

Lemma add_test_bump (self : SuiteStat.t) (test : Test.t) :
  SuiteStat.add_test self test
  = bump self (if is_passed test then 1 else 0) (if is_failed test then 1 else 0).
Proof.
  unfold SuiteStat.add_test, Stat.add_test, bump, is_failed, is_passed,
    SuiteStat.passed, SuiteStat.failed.
  destruct (String.eqb (Test.status test) "PASS"); cbn; do 2 f_equal; lia.
Qed.

Lemma grown_grown self p f pc fc refs p' f' pc' fc' refs' :
  grown (grown self p f pc fc refs) p' f' pc' fc' refs'
  = grown self (p + p') (f + f') (pc + pc') (fc + fc') (refs ++ refs').
Proof. unfold grown. cbn. by rewrite !bump_bump, app_assoc. Qed.

Lemma grown_zero self : grown self 0 0 0 0 [] = self.
Proof. destruct self. unfold grown. cbn. by rewrite !bump_zero, app_nil_r. Qed.

Lemma SuiteStatistics_add_test_grown (self : SuiteStatistics.t) (test : Test.t) :
  SuiteStatistics.add_test self test
  = grown self (b2z (any_test test && is_passed test))
      (b2z (any_test test && is_failed test))
      (b2z (is_marked_critical test && is_passed test))
      (b2z (is_marked_critical test && is_failed test)) [].
Proof.
  unfold SuiteStatistics.add_test, grown, is_marked_critical, any_test.
  rewrite app_nil_r, !add_test_bump.
  destruct (String.eqb (Test.critical test) "yes"); cbn.
  - by destruct (is_passed test), (is_failed test).
  - rewrite bump_zero. by destruct (is_passed test), (is_failed test).
Qed.

Lemma holds_tree_unfold store lo hi ref all critical children :
  holds_tree store lo hi ref (SuiteStatistics.Node all critical children)
  ↔ (lo ≤ ref < hi)%nat
    ∧ ∃ self,
        store !! ref = Some self
        ∧ SuiteStatistics.all self = all
        ∧ SuiteStatistics.critical self = critical
        ∧ Forall2 (holds_tree store lo hi) (SuiteStatistics.suites self) children.
Proof.
  cbn [holds_tree].
  split; intros [Hr (self & Hs & Ha & Hc & H)]; (split; [done|]); exists self;
    (split; [done|]); (split; [done|]); (split; [done|]).
  - destruct H as [Hlen H]. revert H Hlen.
    generalize (SuiteStatistics.suites self) as refs.
    induction children as [|t children IH]; intros [|r refs]; cbn; try done.
    intros [Ht H] [= Hlen]. constructor; [done|]. by apply IH.
  - split; [by apply Forall2_length in H|].
    induction H as [|r t refs children Ht H IH]; [done|]. by split.
Qed.

Lemma holds_tree_frame store store' lo hi ref n :
  (∀ i, (lo ≤ i < hi)%nat → store' !! i = store !! i) →
  holds_tree store lo hi ref n → holds_tree store' lo hi ref n.
Proof.
  intros Hsame. revert ref.
  induction n as [all critical children IH] using tree_induction. intros ref.
  rewrite !holds_tree_unfold. intros [Hr (self & Hs & Ha & Hc & H)].
  split; [done|]. exists self. split; [by rewrite Hsame|].
  split; [done|]. split; [done|].
  induction H as [|r t refs children' Ht H IHH]; [done|].
  apply Forall_cons in IH as [IHt IH]. constructor; [by apply IHt | by apply IHH].
Qed.

Lemma holds_tree_widen store lo hi lo' hi' ref n :
  (lo' ≤ lo)%nat → (hi ≤ hi')%nat →
  holds_tree store lo hi ref n → holds_tree store lo' hi' ref n.
Proof.
  intros Hlo Hhi. revert ref.
  induction n as [all critical children IH] using tree_induction. intros ref.
  rewrite !holds_tree_unfold. intros [Hr (self & Hs & Ha & Hc & H)].
  split; [lia|]. exists self. split; [done|].
  split; [done|]. split; [done|].
  induction H as [|r t refs children' Ht H IHH]; [done|].
  apply Forall_cons in IH as [IHt IH]. constructor; [by apply IHt | by apply IHH].
Qed.

(** A store that holds a tree gives it back, with enough fuel. *)
Lemma holds_tree_snapshot store lo hi ref n fuel :
  holds_tree store lo hi ref n → (tree_height n ≤ fuel)%nat →
  SuiteStatistics.snapshot fuel store ref = Some n.
Proof.
  revert ref fuel.
  induction n as [all critical children IH] using tree_induction. intros ref fuel.
  rewrite holds_tree_unfold. intros [Hr (self & Hs & Ha & Hc & H)] Hfuel.
  cbn [tree_height] in Hfuel. destruct fuel as [|fuel]; [lia|].
  cbn [SuiteStatistics.snapshot]. rewrite Hs. cbn.
  assert (mapM (SuiteStatistics.snapshot fuel store) (SuiteStatistics.suites self)
          = Some children) as ->.
  { apply mapM_Some. clear Hs.
    assert (Forall (fun t => tree_height t ≤ fuel)%nat children) as Hh.
    { assert (list_max (List.map tree_height children) ≤ fuel)%nat as Hmax by lia.
      apply list_max_le in Hmax. rewrite List.Forall_map in Hmax. exact Hmax. }
    clear Hfuel.
    induction H as [|r t refs children' Ht H IHH]; [done|].
    apply Forall_cons in IH as [IHt IH]. apply Forall_cons in Hh as [Hht Hh].
    constructor; [by apply IHt | by apply IHH]. }
  cbn. by rewrite Ha, Hc.
Qed.

Section BuilderFacts.
Context {TP : Type} `{!TagPatternsOps TP} `{!NormalizeOps}.
Implicit Types (b : StatisticsBuilder.t TP) (cur : SuiteStatistics.t).

Lemma counted_counted cur count refs count' refs' :
  counted (counted cur count refs) count' refs'
  = counted cur (fun q => count q + count' q) (refs ++ refs').
Proof. unfold counted. apply grown_grown. Qed.

Lemma counted_ext cur count count' refs :
  (∀ q, count q = count' q) → counted cur count refs = counted cur count' refs.
Proof. intros Hq. unfold counted. by rewrite !Hq. Qed.

Lemma visited_ext b b' c cur fresh count count' refs :
  (∀ q, count q = count' q) →
  visited b b' c cur fresh count refs → visited b b' c cur fresh count' refs.
Proof. intros Hq. unfold visited. by rewrite (counted_ext cur count count' refs Hq). Qed.

Lemma visited_refl b c cur :
  ready b c cur → is_Some (StatisticsBuilder._current_suite b) →
  visited b b c cur 0 (fun _ => 0) [].
Proof.
  intros Hready Hsuite. unfold visited, counted. rewrite grown_zero.
  split_and!; done || lia.
Qed.

Lemma visited_trans b b1 b2 c cur n1 count1 refs1 n2 count2 refs2 :
  visited b b1 c cur n1 count1 refs1 →
  visited b1 b2 c (counted cur count1 refs1) n2 count2 refs2 →
  visited b b2 c cur (n1 + n2) (fun q => count1 q + count2 q) (refs1 ++ refs2).
Proof.
  intros (Hl1 & Hp1 & Hv1 & Hs1 & Hk1 & Hr1) (Hl2 & Hp2 & Hv2 & Hs2 & Hk2 & Hr2).
  unfold visited. rewrite <- counted_counted.
  split_and!; try done; try congruence; try lia.
  intros i Hi Hne. rewrite Hk2, Hk1; try done. lia.
Qed.

Lemma visit_test_visited b c cur test :
  ready b c cur → is_Some (StatisticsBuilder._current_suite b) →
  ∃ b',
    StatisticsBuilder.visit_test b test = Some b'
    ∧ visited b b' c cur 0 (fun q => b2z (q test)) [].
Proof.
  intros (Hc & Hcur & Hseeded) [suite Hsuite].
  unfold StatisticsBuilder.visit_test. rewrite Hc. cbn. rewrite Hcur, Hsuite. cbn.
  destruct (add_test_seeded (StatisticsBuilder._tag_stats b) test
              (TestSuite.critical suite) Hseeded) as (tags' & -> & Hseeded').
  cbn. eexists. split; [done|]. unfold visited, ready, counted. cbn.
  pose proof (lookup_lt_Some _ _ _ Hcur) as Hlt.
  rewrite length_insert. split_and!; try done; try lia.
  - intros i _ Hne. by rewrite list_lookup_insert_ne.
  - rewrite list_lookup_insert_eq by done. by rewrite SuiteStatistics_add_test_grown.
Qed.

Lemma tally_cons (p : Test.t → bool) (test : Test.t) (tests : list Test.t) :
  tally p (test :: tests) = b2z (p test) + tally p tests.
Proof. unfold tally. cbn. destruct (p test); cbn [length b2z]; lia. Qed.

Lemma visit_tests_visited tests b c cur :
  ready b c cur → is_Some (StatisticsBuilder._current_suite b) →
  ∃ b',
    StatisticsBuilder.visit_each (fun test self => StatisticsBuilder.visit_test self test)
      tests b = Some b'
    ∧ visited b b' c cur 0 (fun q => tally q tests) [].
Proof.
  revert b cur. induction tests as [|test tests IH]; intros b cur Hready Hsuite.
  - exists b. split; [done|]. by apply visited_refl.
  - destruct (visit_test_visited b c cur test Hready Hsuite) as (b1 & Hstep & Hv1).
    cbn. rewrite Hstep. cbn.
    destruct (IH b1 _ (proj2 (proj2 (proj2 (proj2 (proj2 Hv1)))))
                (proj1 (proj2 (proj2 (proj2 Hv1))))) as (b2 & Hrest & Hv2).
    exists b2. split; [done|].
    eapply visited_ext; [|exact (visited_trans _ _ _ _ _ _ _ _ _ _ _ Hv1 Hv2)].
    intros q. cbn beta. by rewrite tally_cons.
Qed.

Lemma start_suite_spec b c cur suite :
  ready b c cur →
  ∃ b1,
    StatisticsBuilder.start_suite b suite = Some b1
    ∧ length (StatisticsBuilder.store b1) = S (length (StatisticsBuilder.store b))
    ∧ StatisticsBuilder._parents b1 = StatisticsBuilder._parents b ++ [c]
    ∧ StatisticsBuilder._suite_stat_level b1 = StatisticsBuilder._suite_stat_level b
    ∧ StatisticsBuilder._current_suite b1 = Some suite
    ∧ ready b1 (length (StatisticsBuilder.store b)) (SuiteStatistics.init suite)
    ∧ StatisticsBuilder.store b1 !! c
      = Some (counted cur (fun _ => 0)
                (if attached (StatisticsBuilder._suite_stat_level b)
                      (length (StatisticsBuilder._parents b))
                 then [length (StatisticsBuilder.store b)] else []))
    ∧ ∀ i, (i < length (StatisticsBuilder.store b))%nat → i ≠ c →
        StatisticsBuilder.store b1 !! i = StatisticsBuilder.store b !! i.
Proof.
  intros (Hc & Hcur & Hseeded).
  pose proof (lookup_lt_Some _ _ _ Hcur) as Hlt.
  unfold StatisticsBuilder.start_suite, ready. rewrite Hc. cbn.
  fold (attached (StatisticsBuilder._suite_stat_level b)
          (length (StatisticsBuilder._parents b))).
  destruct (attached _ _); cbn.
  - rewrite lookup_app_l, Hcur by done. cbn. eexists. split; [done|]. cbn.
    rewrite length_insert, length_app. cbn [length].
    split_and!; try done; try lia.
    + rewrite list_lookup_insert_ne by lia. by apply list_lookup_middle.
    + rewrite list_lookup_insert_eq by (rewrite length_app; lia).
      unfold counted, grown. by rewrite !bump_zero.
    + intros i Hi Hne. rewrite list_lookup_insert_ne by done. by rewrite lookup_app_l.
  - eexists. split; [done|]. cbn. rewrite length_app. cbn [length].
    split_and!; try done; try lia.
    + by apply list_lookup_middle.
    + rewrite lookup_app_l, Hcur by done. unfold counted. by rewrite grown_zero.
    + intros i Hi Hne. by rewrite lookup_app_l.
Qed.

Lemma end_suite_spec b parents c pobj n nobj suite :
  StatisticsBuilder._parents b = parents ++ [c] →
  StatisticsBuilder._current_suite_stat b = Some n →
  c ≠ n →
  StatisticsBuilder.store b !! c = Some pobj →
  StatisticsBuilder.store b !! n = Some nobj →
  ∃ b',
    StatisticsBuilder.end_suite b suite = Some b'
    ∧ StatisticsBuilder.store b'
      = <[c := grown pobj (SuiteStat.passed (SuiteStatistics.all nobj))
                (SuiteStat.failed (SuiteStatistics.all nobj))
                (SuiteStat.passed (SuiteStatistics.critical nobj))
                (SuiteStat.failed (SuiteStatistics.critical nobj)) []]>
          (StatisticsBuilder.store b)
    ∧ StatisticsBuilder._parents b' = parents
    ∧ StatisticsBuilder._current_suite_stat b' = Some c
    ∧ StatisticsBuilder._suite_stat_level b' = StatisticsBuilder._suite_stat_level b
    ∧ StatisticsBuilder._tag_stats b' = StatisticsBuilder._tag_stats b
    ∧ StatisticsBuilder._current_suite b' = StatisticsBuilder._current_suite b.
Proof.
  intros Hp Hn Hne Hc Hnobj.
  pose proof (lookup_lt_Some _ _ _ Hc) as Hlt.
  unfold StatisticsBuilder.end_suite. rewrite Hp, last_snoc, Hn. cbn.
  rewrite Hc, Hnobj. cbn.
  rewrite list_lookup_insert_eq by done. cbn.
  rewrite list_lookup_insert_ne, Hnobj by done. cbn.
  eexists. split; [done|]. cbn. rewrite removelast_last.
  split_and!; try done.
  rewrite list_insert_insert_eq. unfold grown. cbn.
  by rewrite !add_stat_bump, app_nil_r.
Qed.

Lemma visit_suites_visited suites :
  Forall suite_visited suites →
  ∀ b c cur,
    ready b c cur → is_Some (StatisticsBuilder._current_suite b) →
    ∃ b' refs,
      StatisticsBuilder.visit_each StatisticsBuilder.visit_suite suites b = Some b'
      ∧ visited b b' c cur (list_sum (List.map suite_count suites))
          (fun q => Z.of_nat (list_sum (List.map (count_tests q) suites)))
          (if attached (StatisticsBuilder._suite_stat_level b)
                (length (StatisticsBuilder._parents b))
           then refs else [])
      ∧ Forall2
          (holds_tree (StatisticsBuilder.store b')
             (length (StatisticsBuilder.store b))
             (length (StatisticsBuilder.store b')))
          refs
          (List.map
             (stats_tree (StatisticsBuilder._suite_stat_level b)
                (length (StatisticsBuilder._parents b))) suites).
Proof.
  induction 1 as [|suite suites Hsuite _ IH]; intros b c cur Hready Hcs.
  - exists b, []. split; [done|]. split; [|by constructor].
    destruct (attached _ _); by apply visited_refl.
  - destruct (Hsuite b c cur Hready) as (b1 & Hvisit & Hv1 & Htree).
    cbn [StatisticsBuilder.visit_each]. rewrite Hvisit. cbn.
    pose proof Hv1 as (Hl1 & Hp1 & Hlv1 & Hcs1 & Hk1 & Hr1).
    destruct (IH b1 c _ Hr1 Hcs1) as (b2 & refs & Hrest & Hv2 & Htrees).
    pose proof Hv2 as (Hl2 & Hp2 & Hlv2 & Hcs2 & Hk2 & Hr2).
    rewrite Hp1, Hlv1 in Hv2, Htrees.
    exists b2, (length (StatisticsBuilder.store b) :: refs). split; [done|].
    destruct Hready as (_ & Hcur & _). pose proof (lookup_lt_Some _ _ _ Hcur) as Hlt.
    split.
    + cbn [List.map list_sum].
      eapply visited_ext; cycle 1.
      { replace (if attached _ _ then length (StatisticsBuilder.store b) :: refs else [])
          with ((if attached (StatisticsBuilder._suite_stat_level b)
                      (length (StatisticsBuilder._parents b))
                 then [length (StatisticsBuilder.store b)] else [])
                ++ (if attached (StatisticsBuilder._suite_stat_level b)
                         (length (StatisticsBuilder._parents b))
                    then refs else []))
          by (by destruct (attached _ _)).
        exact (visited_trans _ _ _ _ _ _ _ _ _ _ _ Hv1 Hv2). }
      intros q. cbn beta. by rewrite Nat2Z.inj_add.
    + cbn [List.map]. constructor.
      * eapply holds_tree_widen; cycle 2.
        { eapply holds_tree_frame; [|exact Htree].
          intros i Hi. apply Hk2; lia. }
        all: lia.
      * eapply Forall2_impl; [exact Htrees|].
        intros r t Hrt. eapply holds_tree_widen; [| |exact Hrt]; lia.
Qed.

Lemma SuiteStat_of_counted (suite : TestSuite.t) (p : Test.t → bool) (x y : Z) :
  x = Z.of_nat (count_tests (fun t => p t && is_passed t) suite) →
  y = Z.of_nat (count_tests (fun t => p t && is_failed t) suite) →
  bump (SuiteStat_init suite) x y = SuiteStat_of p suite.
Proof. intros -> ->. reflexivity. Qed.

Lemma visit_suite_visited (suite : TestSuite.t) : suite_visited suite.
Proof.
  induction suite as [longname name id critical suites tests IH] using TestSuite_induction.
  set (suite := TestSuite.mk longname name id critical suites tests).
  intros b c cur Hready.
  pose proof Hready as (Hc & Hcur & Hseeded).
  pose proof (lookup_lt_Some _ _ _ Hcur) as Hlt.
  set (n := length (StatisticsBuilder.store b)) in *.
  destruct (start_suite_spec b c cur suite Hready)
    as (b1 & Hstart & Hl1 & Hp1 & Hlv1 & Hcs1 & Hr1 & Hc1 & Hk1).
  destruct (visit_suites_visited suites IH b1 n _ Hr1 ltac:(by rewrite Hcs1))
    as (b2 & refs & Hsuites & Hv2 & Htrees).
  pose proof Hv2 as (Hl2 & Hp2 & Hlv2 & Hcs2 & Hk2 & Hr2).
  destruct (visit_tests_visited tests b2 n _ Hr2 Hcs2) as (b3 & Htests & Hv3).
  pose proof Hv3 as (Hl3 & Hp3 & Hlv3 & Hcs3 & Hk3 & Hr3).
  rewrite counted_counted in Hr3. destruct Hr3 as (Hn3 & Hnobj & Hseeded3).
  assert (StatisticsBuilder.store b3 !! c
          = Some (counted cur (fun _ => 0)
                    (if attached (StatisticsBuilder._suite_stat_level b)
                          (length (StatisticsBuilder._parents b))
                     then [n] else []))) as Hc3.
  { rewrite Hk3, Hk2, Hc1; try done; lia. }
  destruct (end_suite_spec b3 (StatisticsBuilder._parents b) c _ n _ suite
              ltac:(congruence) Hn3 ltac:(lia) Hc3 Hnobj)
    as (b4 & Hend & Hstore4 & Hp4 & Hc4 & Hlv4 & Htags4 & Hcs4).
  exists b4. split.
  { subst suite. cbn [StatisticsBuilder.visit_suite].
    rewrite Hstart. cbn. rewrite Hsuites. cbn. rewrite Htests. cbn. exact Hend. }
  assert (length (StatisticsBuilder.store b4) = (n + suite_count suite)%nat) as Hl4.
  { rewrite Hstore4, length_insert, Hl3, Hl2, Hl1. subst suite. cbn [suite_count]. lia. }
  split.
  - unfold visited, ready. split_and!; try done; try congruence.
    + intros i Hi Hne. rewrite Hstore4, list_lookup_insert_ne, Hk3, Hk2, Hk1; try done; lia.
    + rewrite Hstore4, list_lookup_insert_eq by (rewrite Hl3, Hl2, Hl1; lia).
      f_equal. unfold counted. rewrite grown_grown. cbn -[count_tests].
      unfold SuiteStat.passed, SuiteStat.failed, Stat.init. cbn -[count_tests].
      unfold grown. rewrite app_nil_r.
      f_equal; f_equal; subst suite; cbn [count_tests]; unfold tally; lia.
  - subst suite. cbn [stats_tree]. apply holds_tree_unfold. split; [cbn [suite_count]; lia|].
    eexists. split.
    { rewrite Hstore4, list_lookup_insert_ne by lia. exact Hnobj. }
    cbn [counted grown SuiteStatistics.all SuiteStatistics.critical SuiteStatistics.suites
           SuiteStatistics.init].
    split; [apply SuiteStat_of_counted; cbn [count_tests]; unfold tally; lia|].
    split; [apply SuiteStat_of_counted; cbn [count_tests]; unfold tally; lia|].
    rewrite Hp1, Hlv1, length_app in Htrees. cbn [length] in Htrees.
    rewrite Hp1, Hlv1, length_app in Hv2. cbn [length] in Hv2.
    replace (length (StatisticsBuilder._parents b) + 1)%nat
      with (S (length (StatisticsBuilder._parents b))) in * by lia.
    rewrite Hp1, Hlv1, length_app. cbn [length app].
    replace (length (StatisticsBuilder._parents b) + 1)%nat
      with (S (length (StatisticsBuilder._parents b))) by lia.
    destruct (attached _ (S _)); rewrite app_nil_r; [|constructor].
    eapply Forall2_impl; [exact Htrees|].
    intros r t Hrt. eapply holds_tree_widen; cycle 2.
    { eapply holds_tree_frame; [|exact Hrt].
      intros i Hi. rewrite Hstore4, list_lookup_insert_ne, Hk3; try done; lia. }
    all: cbn [suite_count]; lia.
Qed.

(** [build] from a builder whose tag statistics are seeded: when the
    top-level suite is attached to the wrapper, the result is the
    reference of its object and the store holds its statistics tree;
    when it is not, [suites[0]] fails. *)
Lemma build_spec b suite :
  seeded (StatisticsBuilder._tag_stats b) →
  let level := StatisticsBuilder._suite_stat_level b in
  let depth := length (StatisticsBuilder._parents b) in
  let root := S (length (StatisticsBuilder.store b)) in
  if attached level depth then
    ∃ b',
      StatisticsBuilder.build b suite = Some (root, b')
      ∧ holds_tree (StatisticsBuilder.store b') root (root + suite_count suite) root
          (stats_tree level depth suite)
  else StatisticsBuilder.build b suite = None.
Proof.
  intros Hseeded level depth root.
  unfold StatisticsBuilder.build.
  set (b1 := StatisticsBuilder.mk _ _ _ _ _ _).
  assert (ready b1 (length (StatisticsBuilder.store b)) (SuiteStatistics.init suite))
    as Hready.
  { unfold ready, b1. cbn. split_and!; try done. by apply list_lookup_middle. }
  destruct (visit_suite_visited suite b1 _ _ Hready) as (b2 & -> & Hv & Htree).
  destruct Hv as (_ & _ & _ & _ & _ & Hc & Hobj & _).
  cbn. rewrite Hc. cbn. rewrite Hobj. cbn.
  unfold b1 in *. cbn in *. rewrite length_app in *. cbn [length] in *.
  replace (length (StatisticsBuilder.store b) + 1)%nat with root in * by (unfold root; lia).
  fold level depth in Htree |- *.
  destruct (attached level depth); cbn; [|done].
  by exists b2.
Qed.
End BuilderFacts.

(** ** The statistics tree that [build] returns *)

Lemma count_tests_all_tests (p : Test.t → bool) (suite : TestSuite.t) :
  count_tests p suite = length (List.filter p (all_tests suite)).
Proof.
  induction suite as [longname name id critical suites tests IH] using TestSuite_induction.
  cbn [count_tests all_tests]. rewrite List.filter_app, length_app. f_equal.
  induction IH as [|s suites Hs _ IHs]; [done|].
  cbn [List.map list_sum concat]. rewrite List.filter_app, length_app, <- IHs, Hs. done.
Qed.

Lemma filter_split_length {A} (p q : A → bool) (l : list A) :
  (length (List.filter (fun x => p x && q x) l)
   + length (List.filter (fun x => p x && negb (q x)) l))%nat
  = length (List.filter p l).
Proof.
  induction l as [|x l IH]; [done|].
  cbn. destruct (p x), (q x); cbn; lia.
Qed.

Lemma SuiteStat_of_total (p : Test.t → bool) (suite : TestSuite.t) :
  SuiteStat.total (SuiteStat_of p suite)
  = Z.of_nat (length (List.filter p (all_tests suite))).
Proof.
  unfold SuiteStat.total, Stat.total, SuiteStat_of. cbn -[count_tests].
  rewrite !count_tests_all_tests, <- Nat2Z.inj_add. f_equal.
  apply (filter_split_length p is_passed).
Qed.

Lemma filter_length_le {A} (p : A → bool) (l : list A) :
  (length (List.filter p l) ≤ length l)%nat.
Proof. induction l as [|x l IH]; [done|]. cbn. destruct (p x); cbn; lia. Qed.

Lemma tree_height_stats_tree (level : Z) (depth : nat) (suite : TestSuite.t) :
  (tree_height (stats_tree level depth suite) ≤ suite_count suite)%nat.
Proof.
  revert depth.
  induction suite as [longname name id critical suites tests IH] using TestSuite_induction.
  intros depth. cbn [stats_tree tree_height suite_count]. apply le_n_S.
  destruct (attached level (S depth)); [|cbn; lia].
  induction IH as [|s suites Hs _ IHs]; [done|].
  cbn [List.map]. specialize (Hs (S depth)).
  change (list_max (?x :: ?l)) with (Nat.max x (list_max l)).
  change (list_sum (?x :: ?l)) with (x + list_sum l)%nat. lia.
Qed.

(** Under a depth limit of at least one, the statistics tree is the
    unlimited one, cut. *)
Lemma stats_tree_prune (level : Z) (depth : nat) (suite : TestSuite.t) :
  Z.of_nat depth < level →
  stats_tree level depth suite
  = prune (Z.to_nat level - 1 - depth) (stats_tree (-1) depth suite).
Proof.
  revert depth.
  induction suite as [longname name id critical suites tests IH] using TestSuite_induction.
  intros depth Hdepth. cbn [stats_tree].
  change (attached (-1) (S depth)) with true. cbn [prune]. f_equal.
  unfold attached.
  destruct (Z.eqb_spec level (-1)) as [?|_]; [lia|]. cbn [orb].
  destruct (Z.ltb_spec (Z.of_nat (S depth)) level) as [Hlt|Hge].
  - replace (Z.to_nat level - 1 - depth)%nat with (S (Z.to_nat level - 1 - S depth)) by lia.
    rewrite List.map_map. apply List.map_ext_Forall.
    eapply Forall_impl; [exact IH|]. intros s Hs. by apply Hs.
  - by replace (Z.to_nat level - 1 - depth)%nat with 0%nat by lia.
Qed.

Section BuildFacts.
Context {TP : Type} `{!TagPatternsOps TP} `{!NormalizeOps}.
Implicit Types (b : StatisticsBuilder.t TP) (tags : TagStatistics.t TP).

Lemma attached_top (level : Z) :
  attached level 0 = true ↔ level = -1 ∨ 0 < level.
Proof.
  unfold attached. cbn [Z.of_nat].
  by rewrite orb_true_iff, Z.eqb_eq, Z.ltb_lt.
Qed.

(** With a top-level suite that is attached, [build] returns the
    reference of an object, and the store holds the statistics tree of
    the suite there. *)
Lemma build_root store tags level suite :
  seeded tags → level = -1 ∨ 0 < level →
  ∃ b',
    StatisticsBuilder.build (StatisticsBuilder.init store tags level) suite
    = Some (S (length store), b')
    ∧ holds_tree (StatisticsBuilder.store b') (S (length store))
        (S (length store) + suite_count suite) (S (length store))
        (stats_tree level 0 suite).
Proof.
  intros Hseeded Hlevel. apply attached_top in Hlevel.
  pose proof (build_spec (StatisticsBuilder.init store tags level) suite Hseeded) as Hb.
  cbn -[attached] in Hb. by rewrite Hlevel in Hb.
Qed.

(** With any other depth limit the top-level suite is not attached to
    the wrapper, and [suites[0]] fails. *)
Lemma build_no_root store tags level suite :
  seeded tags → level ≠ -1 → level ≤ 0 →
  StatisticsBuilder.build (StatisticsBuilder.init store tags level) suite = None.
Proof.
  intros Hseeded Hne Hle.
  pose proof (build_spec (StatisticsBuilder.init store tags level) suite Hseeded) as Hb.
  cbn -[attached] in Hb.
  destruct (attached level 0) eqn:Ha; [|done].
  apply attached_top in Ha. lia.
Qed.

(** The counters of the root: every test of the tree in [all], the tests
    marked critical in [critical]. *)
Lemma build_root_totals store tags level suite :
  seeded tags → level = -1 ∨ 0 < level →
  ∃ root b' self,
    StatisticsBuilder.build (StatisticsBuilder.init store tags level) suite
    = Some (root, b')
    ∧ StatisticsBuilder.store b' !! root = Some self
    ∧ SuiteStat.total (SuiteStatistics.all self) = Z.of_nat (length (all_tests suite))
    ∧ SuiteStat.total (SuiteStatistics.critical self)
      = Z.of_nat (length (List.filter is_marked_critical (all_tests suite))).
Proof.
  intros Hseeded Hlevel.
  destruct (build_root store tags level suite Hseeded Hlevel) as (b' & Hbuild & Htree).
  destruct suite as [longname name id critical suites tests].
  cbn [stats_tree] in Htree. apply holds_tree_unfold in Htree
    as [_ (self & Hself & Hall & Hcrit & _)].
  exists (S (length store)), b', self. split; [done|]. split; [done|].
  rewrite Hall, Hcrit, !SuiteStat_of_total. split; [|done].
  f_equal. f_equal. unfold any_test. clear.
  induction (all_tests _) as [|x l IH]; [done|]. cbn. by rewrite IH.
Qed.
End BuildFacts.

Section SuiteTheorems.
Context {TP : Type} `{!TagPatternsOps TP} `{!NormalizeOps}.
Implicit Types (b : StatisticsBuilder.t TP) (tags : TagStatistics.t TP).

(** C3: for every suite tree, [build] returns a root whose
    [critical.total] is the number of tests of the whole tree that are
    marked critical ([test.critical == 'yes']), and that is at most its
    [all.total], the number of all tests of the tree.  The builder starts
    from seeded tag statistics and a depth limit under which a root
    exists: [-1] or at least one. *)
Theorem root_critical_total_counts_critical_tests
    (store : list SuiteStatistics.t) tags (level : Z) (suite : TestSuite.t) :
  seeded tags → level = -1 ∨ 0 < level →
  ∃ root b' self,
    StatisticsBuilder.build (StatisticsBuilder.init store tags level) suite
    = Some (root, b')
    ∧ StatisticsBuilder.store b' !! root = Some self
    ∧ SuiteStat.total (SuiteStatistics.critical self)
      = Z.of_nat (length (List.filter is_marked_critical (all_tests suite)))
    ∧ SuiteStat.total (SuiteStatistics.all self) = Z.of_nat (length (all_tests suite))
    ∧ SuiteStat.total (SuiteStatistics.critical self)
      ≤ SuiteStat.total (SuiteStatistics.all self).
Proof.
  intros Hseeded Hlevel.
  destruct (build_root_totals store tags level suite Hseeded Hlevel)
    as (root & b' & self & Hbuild & Hself & Hall & Hcrit).
  exists root, b', self. split_and!; try done.
  rewrite Hall, Hcrit. apply inj_le, filter_length_le.
Qed.

Lemma end_suite_with_level b (suite : TestSuite.t) (level : Z) :
  StatisticsBuilder.end_suite (with_level level b) suite
  = with_level level <$> StatisticsBuilder.end_suite b suite.
Proof.
  unfold StatisticsBuilder.end_suite, with_level. cbn.
  destruct (last (StatisticsBuilder._parents b)) as [parent|]; [|done].
  destruct (StatisticsBuilder._current_suite_stat b) as [current|]; [|done]. cbn.
  destruct (StatisticsBuilder.store b !! parent) as [p1|]; [|done]. cbn.
  destruct (StatisticsBuilder.store b !! current) as [c1|]; [|done]. cbn.
  destruct (_ !! parent) as [p2|]; [|done]. cbn.
  by destruct (_ !! current) as [c2|].
Qed.

(** C2: under a finite depth limit [d] of at least one, the tree that
    [build] returns is the tree of the unlimited build cut below [d]
    levels.  The unlimited tree has one node for every suite, and the
    [all] and [critical] stats of a node are those of the whole tree
    below its suite; a node that is kept keeps these stats, so it counts
    also the tests of the suites that were cut off under it.
    [start_suite] appends the new object to the current one exactly when
    the limit is [-1] or exceeds the number of parents, and [end_suite]
    adds the [all] and the [critical] counters of the suite that ends to
    those of its parent, under every limit.  Under a limit below one
    [build] fails (see C1) and there is no tree. *)
Theorem depth_limit_only_prunes
    (store : list SuiteStatistics.t) tags (d : Z) (suite : TestSuite.t) :
  seeded tags → d ≠ -1 →
  let unlimited := stats_tree (-1) 0 suite in
  ∃ root b_unlimited,
    StatisticsBuilder.build (StatisticsBuilder.init store tags (-1)) suite
    = Some (root, b_unlimited)
    ∧ (∀ fuel, (suite_count suite ≤ fuel)%nat →
         SuiteStatistics.snapshot fuel (StatisticsBuilder.store b_unlimited) root
         = Some unlimited)
    ∧ ((1 ≤ d
        ∧ SuiteStatistics.tree_all (prune (Z.to_nat d - 1) unlimited)
          = SuiteStat_of any_test suite
        ∧ SuiteStatistics.tree_critical (prune (Z.to_nat d - 1) unlimited)
          = SuiteStat_of is_marked_critical suite
        ∧ ∃ b_limited,
            StatisticsBuilder.build (StatisticsBuilder.init store tags d) suite
            = Some (root, b_limited)
            ∧ ∀ fuel, (suite_count suite ≤ fuel)%nat →
                SuiteStatistics.snapshot fuel (StatisticsBuilder.store b_limited) root
                = Some (prune (Z.to_nat d - 1) unlimited))
       ∨ (d ≤ 0
          ∧ StatisticsBuilder.build (StatisticsBuilder.init store tags d) suite = None))
    ∧ (∀ b c cur s,
         ready b c cur →
         ∃ b1,
           StatisticsBuilder.start_suite b s = Some b1
           ∧ StatisticsBuilder.store b1 !! c
             = Some (SuiteStatistics.mk (SuiteStatistics.all cur)
                       (SuiteStatistics.critical cur)
                       (SuiteStatistics.suites cur
                        ++ if (StatisticsBuilder._suite_stat_level b =? -1)
                              || (Z.of_nat (length (StatisticsBuilder._parents b))
                                  <? StatisticsBuilder._suite_stat_level b)
                           then [length (StatisticsBuilder.store b)] else [])))
    ∧ (∀ b parents c n pobj nobj s,
         StatisticsBuilder._parents b = parents ++ [c] →
         StatisticsBuilder._current_suite_stat b = Some n →
         c ≠ n →
         StatisticsBuilder.store b !! c = Some pobj →
         StatisticsBuilder.store b !! n = Some nobj →
         let all' :=
           SuiteStat.add_stat (SuiteStatistics.all pobj) (SuiteStatistics.all nobj) in
         let critical' :=
           SuiteStat.add_stat (SuiteStatistics.critical pobj)
             (SuiteStatistics.critical nobj) in
         ∃ b',
           StatisticsBuilder.end_suite b s = Some b'
           ∧ StatisticsBuilder.store b'
             = <[c := SuiteStatistics.mk all' critical' (SuiteStatistics.suites pobj)]>
                 (StatisticsBuilder.store b)
           ∧ SuiteStat.passed all'
             = SuiteStat.passed (SuiteStatistics.all pobj)
               + SuiteStat.passed (SuiteStatistics.all nobj)
           ∧ SuiteStat.failed all'
             = SuiteStat.failed (SuiteStatistics.all pobj)
               + SuiteStat.failed (SuiteStatistics.all nobj)
           ∧ SuiteStat.passed critical'
             = SuiteStat.passed (SuiteStatistics.critical pobj)
               + SuiteStat.passed (SuiteStatistics.critical nobj)
           ∧ SuiteStat.failed critical'
             = SuiteStat.failed (SuiteStatistics.critical pobj)
               + SuiteStat.failed (SuiteStatistics.critical nobj)
           ∧ StatisticsBuilder._parents b' = parents
           ∧ StatisticsBuilder._current_suite_stat b' = Some c
           ∧ StatisticsBuilder._suite_stat_level b'
             = StatisticsBuilder._suite_stat_level b)
    ∧ (∀ b s level,
         StatisticsBuilder.end_suite (with_level level b) s
         = with_level level <$> StatisticsBuilder.end_suite b s).
Proof.
  intros Hseeded Hd unlimited. subst unlimited.
  destruct (build_root store tags (-1) suite Hseeded ltac:(by left))
    as (bu & Hbu & Htu).
  exists (S (length store)), bu.
  split; [done|]. split; [|split; [|split; [|split]]].
  - intros fuel Hfuel. eapply holds_tree_snapshot; [exact Htu|].
    pose proof (tree_height_stats_tree (-1) 0 suite). lia.
  - destruct (Z.le_gt_cases 1 d) as [Hpos|Hneg].
    + left. split; [done|].
      split; [by destruct suite|]. split; [by destruct suite|].
      destruct (build_root store tags d suite Hseeded ltac:(right; lia))
        as (bl & Hbl & Htl).
      exists bl. split; [done|]. intros fuel Hfuel.
      rewrite stats_tree_prune in Htl by lia.
      replace (Z.to_nat d - 1 - 0)%nat with (Z.to_nat d - 1)%nat in Htl by lia.
      eapply holds_tree_snapshot; [exact Htl|].
      rewrite <- (Nat.sub_0_r (Z.to_nat d - 1)), <- stats_tree_prune by lia.
      pose proof (tree_height_stats_tree d 0 suite). lia.
    + right. split; [lia|]. apply build_no_root; [done|done|lia].
  - intros b c cur s Hready.
    destruct (start_suite_spec b c cur s Hready) as (b1 & Hstart & _ & _ & _ & _ & _ & Hc & _).
    exists b1. split; [done|]. rewrite Hc. unfold counted, grown, attached.
    by rewrite !bump_zero.
  - intros b parents c n pobj nobj s Hparents Hcurrent Hne Hpobj Hnobj all' critical'.
    destruct (end_suite_spec b parents c pobj n nobj s Hparents Hcurrent Hne Hpobj Hnobj)
      as (b' & Hend & Hstore & Hp & Hc & Hlevel & _).
    exists b'. split; [done|]. split.
    { rewrite Hstore. unfold grown. by rewrite app_nil_r. }
    split_and!; done.
  - intros b s level. apply end_suite_with_level.
Qed.
End SuiteTheorems.

Section SuiteSamples.
#[local] Existing Instance Sample.exact_patterns.
#[local] Existing Instance Sample.normal_keys.

Lemma sample_tags_seeded :
  ∃ tags, Sample.tag_stats = Some tags ∧ seeded tags.
Proof.
  destruct Sample.tag_stats as [tags|] eqn:Htags; [|by vm_compute in Htags].
  exists tags. split; [done|]. by eapply init_seeded.
Defined.

Lemma root_critical_total_counts_critical_tests_witness :
  ∃ tags root b' self,
    Sample.tag_stats = Some tags
    ∧ StatisticsBuilder.build (StatisticsBuilder.init [] tags 1) Sample.tree
      = Some (root, b')
    ∧ StatisticsBuilder.store b' !! root = Some self
    ∧ SuiteStat.total (SuiteStatistics.critical self) = 3
    ∧ SuiteStat.total (SuiteStatistics.all self) = 5.
Proof.
  destruct sample_tags_seeded as (tags & Htags & Hseeded).
  destruct (root_critical_total_counts_critical_tests [] tags 1 Sample.tree Hseeded
              ltac:(right; lia))
    as (root & b' & self & Hbuild & Hself & Hcrit & Hall & _).
  exists tags, root, b', self. split_and!; done.
Defined.

Lemma depth_limit_only_prunes_witness :
  ∃ tags root b_unlimited b_limited,
    Sample.tag_stats = Some tags
    ∧ StatisticsBuilder.build (StatisticsBuilder.init [] tags (-1)) Sample.tree
      = Some (root, b_unlimited)
    ∧ StatisticsBuilder.build (StatisticsBuilder.init [] tags 2) Sample.tree
      = Some (root, b_limited)
    ∧ SuiteStatistics.snapshot 4 (StatisticsBuilder.store b_unlimited) root
      = Some (stats_tree (-1) 0 Sample.tree)
    ∧ SuiteStatistics.snapshot 4 (StatisticsBuilder.store b_limited) root
      = Some (prune 1 (stats_tree (-1) 0 Sample.tree))
    ∧ List.map (fun stat => (Stat.name (SuiteStat.base stat), SuiteStat.total stat))
        (tree_iter (prune 1 (stats_tree (-1) 0 Sample.tree)))
      = [("Root", 5); ("Root.A", 3); ("Root.B", 2)].
Proof.
  destruct sample_tags_seeded as (tags & Htags & Hseeded).
  destruct (depth_limit_only_prunes [] tags 2 Sample.tree Hseeded ltac:(lia))
    as (root & bu & Hbu & Hu & [(_ & _ & _ & bl & Hbl & Hl) | (Hd & _)] & _);
    [|lia].
  exists tags, root, bu, bl.
  split_and!; [done | done | done | apply Hu; cbn; lia | apply Hl; cbn; lia
              | by vm_compute].
Defined.

(** C1, at the depth limit 0: the top-level suite is not attached to the
    wrapper, so [build] ends in the [IndexError] of [suites[0]] and
    returns no root, whatever the suite is. *)
Theorem build_at_level_zero_returns_no_root (suite : TestSuite.t) :
  (b ← Sample.builder 0; StatisticsBuilder.build b suite) = None.
Proof.
  unfold Sample.builder.
  destruct sample_tags_seeded as (tags & -> & Hseeded). cbn.
  by apply build_no_root.
Qed.
End SuiteSamples.

(** ** The wildcard compiler *)

Lemma string_app_cons (x : ascii) (a b : string) :
  String x a +:+ b = String x (a +:+ b).
Proof. reflexivity. Qed.

Lemma string_app_nil_l (a : string) : "" +:+ a = a.
Proof. reflexivity. Qed.

Lemma string_app_assoc (a b c : string) : (a +:+ b) +:+ c = a +:+ (b +:+ c).
Proof.
  induction a as [|x a IH]; [done|]. rewrite !string_app_cons. by f_equal.
Qed.

Lemma string_app_nil_r (a : string) : a +:+ "" = a.
Proof.
  induction a as [|x a IH]; [done|]. rewrite string_app_cons. by f_equal.
Qed.

Lemma join_app (xs ys : list string) :
  Str.join (xs ++ ys) = Str.join xs +:+ Str.join ys.
Proof.
  induction xs as [|x xs IH]; [done|].
  change (x +:+ Str.join (xs ++ ys) = (x +:+ Str.join xs) +:+ Str.join ys).
  by rewrite IH, string_app_assoc.
Qed.

Lemma get_match_regexp_loop_app (ts : list string) (regexp : list string) (o : bool) :
  TagStatLink._get_match_regexp_loop ts regexp o
  = (regexp ++ (TagStatLink._get_match_regexp_loop ts [] o).1,
     (TagStatLink._get_match_regexp_loop ts [] o).2).
Proof.
  revert regexp o. induction ts as [|token ts IH]; intros regexp o.
  - cbn. by rewrite app_nil_r.
  - cbn [TagStatLink._get_match_regexp_loop].
    destruct (String.eqb token ""); [apply IH|].
    destruct (String.eqb token "?").
    { rewrite IH, (IH (_ ++ ["."])). cbn.
      destruct (negb o); cbn; by rewrite <- ?app_assoc. }
    destruct (String.eqb token "*").
    { rewrite IH, (IH (_ ++ ["(.*)"])). cbn.
      destruct o; cbn; by rewrite <- ?app_assoc. }
    rewrite IH, (IH (_ ++ [re.escape token])). cbn.
    destruct o; cbn; by rewrite <- ?app_assoc.
Qed.

Lemma regexp_rest_prepend (ts : list string) (pre : list string) (o : bool) :
  (let '(regexp, o') := TagStatLink._get_match_regexp_loop ts pre o in
   Str.join (if o' then regexp ++ [")"] else regexp))
  = Str.join pre +:+ regexp_rest ts o.
Proof.
  unfold regexp_rest. rewrite get_match_regexp_loop_app.
  destruct (TagStatLink._get_match_regexp_loop ts [] o) as [regexp o']. cbn.
  destruct o'; by rewrite <- ?app_assoc, join_app.
Qed.

Lemma regexp_rest_nil (o : bool) : regexp_rest [] o = if o then ")" else "".
Proof. by destruct o. Qed.

Lemma regexp_rest_cons (token : string) (ts : list string) (o : bool) :
  regexp_rest (token :: ts) o
  = if String.eqb token "" then regexp_rest ts o
    else if String.eqb token "?" then
      (if o then "" else "(") +:+ "." +:+ regexp_rest ts true
    else if String.eqb token "*" then
      (if o then ")" else "") +:+ "(.*)" +:+ regexp_rest ts false
    else (if o then ")" else "") +:+ re.escape token +:+ regexp_rest ts false.
Proof.
  unfold regexp_rest at 1. cbn [TagStatLink._get_match_regexp_loop].
  destruct (String.eqb token ""); [done|].
  destruct (String.eqb token "?").
  { rewrite regexp_rest_prepend. by destruct o. }
  destruct (String.eqb token "*").
  { rewrite regexp_rest_prepend. by destruct o. }
  rewrite regexp_rest_prepend.
  destruct o; unfold Str.join; cbn [app fold_right];
    by rewrite ?string_app_nil_r, ?string_app_assoc.
Qed.

Lemma regexp_source_rest (pattern : string) :
  TagStatLink.regexp_source pattern
  = "^" +:+ regexp_rest (re.split_wildcards "" pattern) false +:+ "$".
Proof.
  unfold TagStatLink.regexp_source, regexp_rest.
  by destruct (TagStatLink._get_match_regexp_loop _ _ _) as [regexp []].
Qed.

Lemma lex_escape_char (c : ascii) (rest : string) :
  re.lex (re.escape_char c +:+ rest) = cons (re.TAtom (re.Lit c)) <$> re.lex rest.
Proof. destruct c as [[] [] [] [] [] [] [] []]; reflexivity. Qed.

Lemma lex_escape (text rest : string) :
  re.lex (re.escape text +:+ rest) = app (literal_tokens text) <$> re.lex rest.
Proof.
  induction text as [|c text IH].
  - cbn [re.escape]. rewrite string_app_nil_l. by destruct (re.lex rest).
  - cbn [re.escape]. rewrite string_app_assoc, lex_escape_char, IH.
    by destruct (re.lex rest).
Qed.

(** After a [.] of a group the text goes on with [.] or [)], never with
    a [*]. *)
Lemma regexp_rest_open_head (ts : list string) :
  ∃ rest, regexp_rest ts true = String ")" rest ∨ regexp_rest ts true = String "." rest.
Proof.
  induction ts as [|token ts IH]; [by exists ""; left|].
  rewrite regexp_rest_cons.
  destruct (String.eqb token ""); [done|].
  destruct (String.eqb token "?"); [eexists; right; reflexivity|].
  destruct (String.eqb token "*"); eexists; left; reflexivity.
Qed.

Lemma lex_dot (ts : list string) (rest : string) :
  re.lex ("." +:+ regexp_rest ts true +:+ rest)
  = cons (re.TAtom re.Any) <$> re.lex (regexp_rest ts true +:+ rest).
Proof.
  destruct (regexp_rest_open_head ts) as [tail [-> | ->]]; reflexivity.
Qed.

Lemma lex_regexp_rest (ts : list string) (o : bool) (rest : string) :
  re.lex (regexp_rest ts o +:+ rest) = app (rest_tokens ts o) <$> re.lex rest.
Proof.
  revert o. induction ts as [|token ts IH]; intros o.
  - rewrite regexp_rest_nil. destruct o.
    + change (re.lex (")" +:+ rest)) with (cons re.TClose <$> re.lex rest).
      by destruct (re.lex rest).
    + rewrite string_app_nil_l. by destruct (re.lex rest).
  - rewrite regexp_rest_cons. cbn [rest_tokens].
    destruct (String.eqb token ""); [apply IH|].
    destruct (String.eqb token "?").
    { rewrite !string_app_assoc.
      destruct o.
      - rewrite string_app_nil_l, lex_dot, IH. by destruct (re.lex rest).
      - change (re.lex ("(" +:+ ?s)) with (cons re.TOpen <$> re.lex s).
        rewrite lex_dot, IH. by destruct (re.lex rest). }
    destruct (String.eqb token "*").
    { rewrite !string_app_assoc.
      destruct o.
      - change (re.lex (")" +:+ "(.*)" +:+ ?s))
          with (cons re.TClose <$> (cons re.TOpen <$> (cons (re.TAtom re.AnyStar)
                  <$> (cons re.TClose <$> re.lex s)))).
        rewrite IH. by destruct (re.lex rest).
      - change (re.lex ("" +:+ "(.*)" +:+ ?s))
          with (cons re.TOpen <$> (cons (re.TAtom re.AnyStar)
                  <$> (cons re.TClose <$> re.lex s))).
        rewrite IH. by destruct (re.lex rest). }
    rewrite !string_app_assoc.
    destruct o.
    + change (re.lex (")" +:+ ?s)) with (cons re.TClose <$> re.lex s).
      rewrite lex_escape, IH. destruct (re.lex rest); cbn; [|done].
      by rewrite <- app_assoc.
    + rewrite string_app_nil_l, lex_escape, IH. destruct (re.lex rest); cbn; [|done].
      by rewrite <- app_assoc.
Qed.

Lemma assemble_literal (text : string) (rest : list re.token) :
  re.assemble (literal_tokens text ++ rest) None
  = app (literal_nodes text) <$> re.assemble rest None.
Proof.
  unfold literal_tokens, literal_nodes.
  induction (list_ascii_of_string text) as [|c cs IH]; cbn.
  - by destruct (re.assemble rest None).
  - rewrite IH. by destruct (re.assemble rest None).
Qed.

Lemma assemble_close (run : nat) (rest : list re.token) :
  re.assemble (close_tokens (is_open run) ++ rest) (group_of_run run)
  = app (flush_group run) <$> re.assemble rest None.
Proof. destruct run; cbn; by destruct (re.assemble rest None). Qed.

Lemma assemble_rest_tokens (ts : list string) (run : nat) (rest : list re.token) :
  re.assemble (rest_tokens ts (is_open run) ++ rest) (group_of_run run)
  = app (rest_nodes ts run) <$> re.assemble rest None.
Proof.
  revert run. induction ts as [|token ts IH]; intros run.
  - apply assemble_close.
  - cbn [rest_tokens rest_nodes].
    pose proof (IH 0%nat) as IH0. cbn [is_open group_of_run] in IH0.
    destruct (String.eqb token ""); [apply IH|].
    destruct (String.eqb token "?").
    { destruct run as [|run].
      - apply (IH 1%nat).
      - cbn [is_open group_of_run app re.assemble].
        rewrite <- repeat_cons. apply (IH (S (S run))). }
    destruct (String.eqb token "*").
    { rewrite <- app_assoc, assemble_close.
      change (re.assemble ((re.TOpen :: re.TAtom re.AnyStar :: re.TClose :: ?l) ++ rest) None)
        with (cons (re.Group [re.AnyStar]) <$> re.assemble (l ++ rest) None).
      rewrite IH0. destruct (re.assemble rest None); cbn; [|done].
      by rewrite <- app_assoc. }
    rewrite <- !app_assoc, assemble_close, assemble_literal, IH0.
    destruct (re.assemble rest None); cbn; [|done].
    by rewrite <- !app_assoc.
Qed.

Lemma no_wildcard_not_token (text : string) :
  no_wildcard text = true →
  String.eqb text "?" = false ∧ String.eqb text "*" = false.
Proof.
  destruct text as [|c [|d text]]; cbn; try done.
  - rewrite andb_true_r, negb_true_iff, orb_false_iff.
    intros [Hstar Hmark]. by rewrite Hstar, Hmark.
  - intros _. split.
    + destruct (Ascii.eqb c "?"); done.
    + destruct (Ascii.eqb c "*"); done.
Qed.

Lemma no_wildcard_snoc (text : string) (c : ascii) :
  no_wildcard text = true → Ascii.eqb c "*" || Ascii.eqb c "?" = false →
  no_wildcard (text +:+ String c "") = true.
Proof.
  intros Htext Hc. induction text as [|d text IH].
  - rewrite string_app_nil_l. cbn [no_wildcard]. by rewrite Hc.
  - rewrite string_app_cons. cbn [no_wildcard] in *.
    apply andb_true_iff in Htext as [-> Htext]. by apply IH.
Qed.

Lemma literal_nodes_snoc (text : string) (c : ascii) :
  literal_nodes (text +:+ String c "") = literal_nodes text ++ [re.Atom (re.Lit c)].
Proof.
  unfold literal_nodes. induction text as [|d text IH]; [done|].
  rewrite string_app_cons. cbn. by rewrite IH.
Qed.

Lemma snoc_not_empty (text : string) (c : ascii) :
  String.eqb (text +:+ String c "") "" = false.
Proof. by destruct text. Qed.

(** The tokens of the split stand for the expression of the pattern;
    [cur] is the literal text read so far. *)
Lemma rest_nodes_split (s cur : string) (run : nat) :
  no_wildcard cur = true →
  rest_nodes (re.split_wildcards cur s) run
  = if String.eqb cur "" then pattern_nodes_from run s
    else flush_group run ++ literal_nodes cur ++ pattern_nodes_from O s.
Proof.
  revert cur run. induction s as [|c s IH]; intros cur run Hcur.
  - cbn [re.split_wildcards rest_nodes pattern_nodes_from].
    destruct (no_wildcard_not_token cur Hcur) as [-> ->].
    destruct (String.eqb cur ""); [done|]. cbn. by rewrite app_nil_r.
  - cbn [re.split_wildcards pattern_nodes_from].
    destruct (Ascii.eqb_spec c "*") as [->|Hstar]; cbn [orb].
    { cbn [rest_nodes]. destruct (no_wildcard_not_token cur Hcur) as [-> ->].
      change (String.eqb "*" "") with false. change (String.eqb "*" "?") with false.
      change (String.eqb "*" "*") with true. cbn iota.
      change (Ascii.eqb "*" "?") with false. cbn iota.
      rewrite (IH "" 0%nat eq_refl). change (String.eqb "" "") with true. cbn iota.
      destruct (String.eqb cur ""); [done|].
      done. }
    destruct (Ascii.eqb_spec c "?") as [->|Hmark]; cbn [orb].
    { cbn [rest_nodes]. destruct (no_wildcard_not_token cur Hcur) as [-> ->].
      change (String.eqb "?" "") with false. change (String.eqb "?" "?") with true.
      cbn iota.
      destruct (String.eqb cur "").
      - rewrite (IH "" (S run) eq_refl). done.
      - rewrite (IH "" 1%nat eq_refl). done. }
    rewrite IH, snoc_not_empty, literal_nodes_snoc.
    2:{ apply no_wildcard_snoc; [done|].
        apply orb_false_iff. split; by apply Ascii.eqb_neq. }
    destruct (String.eqb cur "") eqn:Hempty.
    + apply String.eqb_eq in Hempty as ->. cbn. done.
    + cbn [flush_group app]. by rewrite <- ?app_assoc.
Qed.

(** [_get_match_regexp] succeeds on every pattern, and the expression it
    compiles is the one the pattern stands for, between [^] and [$] and
    under [re.IGNORECASE]. *)
Lemma get_match_regexp_compiles (pattern : string) :
  TagStatLink._get_match_regexp pattern
  = Some (re.mk (re.Bol :: pattern_nodes pattern ++ [re.Eol]) true).
Proof.
  unfold TagStatLink._get_match_regexp, re.compile.
  rewrite regexp_source_rest.
  change (re.lex ("^" +:+ ?s)) with (cons re.TBol <$> re.lex s).
  rewrite lex_regexp_rest.
  change (re.lex "$") with (Some [re.TEol]). cbn [fmap option_fmap option_map mbind option_bind].
  change (re.assemble (re.TBol :: ?l) None) with (cons re.Bol <$> re.assemble l None).
  rewrite (assemble_rest_tokens _ 0%nat [re.TEol]).
  change (re.assemble [re.TEol] None) with (Some [re.Eol]).
  cbn [fmap option_fmap option_map mbind option_bind].
  by rewrite (rest_nodes_split pattern "" 0%nat eq_refl).
Qed.

Lemma groups_of_app (xs ys : list re.node) :
  groups_of (xs ++ ys) = groups_of xs ++ groups_of ys.
Proof. apply flat_map_app. Qed.

Lemma groups_of_pattern_nodes (run : nat) (pattern : string) :
  groups_of (pattern_nodes_from run pattern)
  = map wildcard_group (wildcards_from run pattern).
Proof.
  revert run. induction pattern as [|c pattern IH]; intros run.
  - by destruct run.
  - cbn [pattern_nodes_from wildcards_from].
    destruct (Ascii.eqb c "?"); [apply IH|].
    rewrite groups_of_app, map_app.
    change (?n :: pattern_nodes_from 0 pattern)
      with ([n] ++ pattern_nodes_from 0 pattern).
    rewrite groups_of_app, map_app, IH.
    f_equal; [by destruct run|]. f_equal. by destruct (Ascii.eqb c "*").
Qed.

(** ** What a match captures *)

Lemma string_length_app (a b : string) :
  String.length (a +:+ b) = (String.length a + String.length b)%nat.
Proof.
  induction a as [|x a IH]; [done|]. rewrite string_app_cons. cbn. by rewrite IH.
Qed.

Lemma substring_prefix (a b : string) :
  String.substring 0 (String.length a) (a +:+ b) = a.
Proof.
  induction a as [|x a IH].
  - rewrite string_app_nil_l. by destruct b.
  - rewrite string_app_cons. cbn. by rewrite IH.
Qed.

Lemma consumed_prefix (pre s' : string) : re.consumed (pre +:+ s') s' = pre.
Proof.
  unfold re.consumed. rewrite string_length_app.
  replace (String.length pre + String.length s' - String.length s')%nat
    with (String.length pre) by lia.
  apply substring_prefix.
Qed.

Lemma no_percent_app (a b : string) :
  no_percent (a +:+ b) = no_percent a && no_percent b.
Proof.
  induction a as [|x a IH]; [done|]. rewrite string_app_cons. cbn.
  by rewrite IH, andb_assoc.
Qed.

(** ** The matcher against the specification *)

Lemma star_any_sound {R} (s : string) (k : string → option R) (r : R) :
  re.star_any s k = Some r →
  ∃ pre s', s = pre +:+ s' ∧ no_newline pre = true ∧ k s' = Some r.
Proof.
  induction s as [|c s IH]; cbn [re.star_any].
  - intros Hk. by exists "", "".
  - destruct (Ascii.eqb c re.newline) eqn:Hc; [intros Hk; by exists "", (String c s)|].
    destruct (re.star_any s k) as [r'|] eqn:Hstar.
    + intros [= ->]. destruct (IH eq_refl) as (pre & s' & -> & Hpre & Hk).
      exists (String c pre), s'. split_and!; try done. cbn. by rewrite Hc.
    + intros Hk. by exists "", (String c s).
Qed.

Lemma star_any_complete {R} (pre s' : string) (k : string → option R) :
  no_newline pre = true → is_Some (k s') → is_Some (re.star_any (pre +:+ s') k).
Proof.
  intros Hpre Hk. induction pre as [|c pre IH].
  - rewrite string_app_nil_l. destruct s' as [|d s']; cbn [re.star_any]; [done|].
    destruct (Ascii.eqb d re.newline); [done|].
    by destruct (re.star_any s' k).
  - rewrite string_app_cons. cbn [re.star_any]. cbn in Hpre.
    apply andb_true_iff in Hpre as [Hc Hpre]. apply negb_true_iff in Hc. rewrite Hc.
    destruct (IH Hpre) as [r ->]. done.
Qed.

Lemma match_atoms_sound {R} (ic : bool) (l : list re.atom) (s : string)
    (k : string → option R) (r : R) :
  re.match_atoms ic l s k = Some r →
  ∃ pre s', s = pre +:+ s' ∧ spans ic l pre ∧ k s' = Some r.
Proof.
  revert s k. induction l as [|a l IH]; intros s k; cbn [re.match_atoms].
  - intros Hk. by exists "", s.
  - destruct a as [c| |].
    + destruct s as [|d s]; [done|]. destruct (re.char_eq ic c d) eqn:Hcd; [|done].
      intros Hm. destruct (IH _ _ Hm) as (pre & s' & -> & Hspan & Hk).
      exists (String d pre), s'. split_and!; try done. cbn [spans]. eauto.
    + destruct s as [|d s]; [done|]. destruct (Ascii.eqb d re.newline) eqn:Hd; [done|].
      intros Hm. destruct (IH _ _ Hm) as (pre & s' & -> & Hspan & Hk).
      exists (String d pre), s'. split_and!; try done. cbn [spans]. eauto.
    + intros Hm. destruct (star_any_sound _ _ _ Hm) as (pre1 & s1 & -> & Hpre1 & Hm1).
      destruct (IH _ _ Hm1) as (pre2 & s' & -> & Hspan & Hk).
      exists (pre1 +:+ pre2), s'. rewrite string_app_assoc. split_and!; try done.
      cbn [spans]. eauto.
Qed.

Lemma match_atoms_complete {R} (ic : bool) (l : list re.atom) (pre s' : string)
    (k : string → option R) :
  spans ic l pre → is_Some (k s') → is_Some (re.match_atoms ic l (pre +:+ s') k).
Proof.
  revert pre k. induction l as [|a l IH]; intros pre k; cbn [spans re.match_atoms].
  - by intros ->.
  - destruct a as [c| |].
    + intros (d & rest & -> & Hcd & Hspan) Hk. rewrite string_app_cons, Hcd. by apply IH.
    + intros (d & rest & -> & Hd & Hspan) Hk. rewrite string_app_cons, Hd. by apply IH.
    + intros (pre1 & rest & -> & Hpre1 & Hspan) Hk. rewrite string_app_assoc.
      apply star_any_complete; [done|]. by apply IH.
Qed.

(** A match returns one captured text for every group of the
    expression, each a part of the subject. *)
Lemma match_nodes_groups (ic : bool) (subject : string) (l : list re.node)
    (s : string) (groups result : list string) :
  re.match_nodes ic subject l s groups = Some result →
  ∃ captured,
    result = groups ++ captured
    ∧ length captured = length (groups_of l)
    ∧ (no_percent s = true → Forall (fun g => no_percent g = true) captured).
Proof.
  revert s groups. induction l as [|n l IH]; intros s groups; cbn [re.match_nodes].
  - intros [= <-]. exists []. by rewrite app_nil_r.
  - destruct n as [a|body| |].
    + intros Hm. destruct (match_atoms_sound _ _ _ _ _ Hm) as (pre & s' & -> & _ & Hk).
      destruct (IH _ _ Hk) as (captured & -> & Hlen & Hpct).
      exists captured. split_and!; try done.
      rewrite no_percent_app. intros [_ Hs']%andb_true_iff. by apply Hpct.
    + intros Hm. destruct (match_atoms_sound _ _ _ _ _ Hm) as (pre & s' & -> & _ & Hk).
      destruct (IH _ _ Hk) as (captured & -> & Hlen & Hpct).
      rewrite consumed_prefix, <- app_assoc.
      exists (pre :: captured). split_and!; try done.
      * cbn. by rewrite Hlen.
      * rewrite no_percent_app. intros [Hpre Hs']%andb_true_iff.
        constructor; [done | by apply Hpct].
    + destruct (_ =? _)%nat; [|done]. apply IH.
    + destruct (_ || _); [|done]. apply IH.
Qed.

Lemma wildcards_length_nodes (pattern : string) :
  length (groups_of (pattern_nodes pattern)) = length (wildcards pattern).
Proof. unfold pattern_nodes. by rewrite groups_of_pattern_nodes, length_map. Qed.

Lemma match_nodes_sound (ic : bool) (subject : string) (inner : list re.node)
    (s : string) (groups result : list string) :
  Forall (fun n => is_anchor n = false) inner →
  re.match_nodes ic subject (inner ++ [re.Eol]) s groups = Some result →
  ∃ text rest captured,
    s = text +:+ rest ∧ at_end rest ∧ nodes_span ic inner text captured
    ∧ result = groups ++ captured.
Proof.
  intros Hfree. revert s groups.
  induction Hfree as [|n inner Hn _ IH]; intros s groups; cbn [app re.match_nodes].
  - destruct (_ || _) eqn:Hend; [|done]. intros [= <-].
    exists "", s, []. rewrite app_nil_r. split_and!; try done.
    apply orb_true_iff in Hend as [Hs%String.eqb_eq | Hs%String.eqb_eq]; [by left | by right].
  - destruct n as [a|body| |]; try done.
    + intros Hm. destruct (match_atoms_sound _ _ _ _ _ Hm) as (pre & s' & -> & Hspan & Hk).
      destruct (IH _ _ Hk) as (text & rest & captured & -> & Hrest & Hnodes & ->).
      exists (pre +:+ text), rest, captured. rewrite string_app_assoc.
      split_and!; try done. cbn [nodes_span]. eauto.
    + intros Hm. destruct (match_atoms_sound _ _ _ _ _ Hm) as (pre & s' & -> & Hspan & Hk).
      destruct (IH _ _ Hk) as (text & rest & captured & -> & Hrest & Hnodes & ->).
      rewrite consumed_prefix, <- app_assoc.
      exists (pre +:+ text), rest, (pre :: captured). rewrite string_app_assoc.
      split_and!; try done. cbn [nodes_span]. eauto 10.
Qed.

Lemma match_nodes_complete (ic : bool) (subject : string) (inner : list re.node)
    (text rest : string) (captured groups : list string) :
  nodes_span ic inner text captured → at_end rest →
  is_Some (re.match_nodes ic subject (inner ++ [re.Eol]) (text +:+ rest) groups).
Proof.
  intros Hspan Hrest. revert text captured groups Hspan.
  induction inner as [|n inner IH]; intros text captured groups; cbn [app nodes_span re.match_nodes].
  - intros [-> _]. rewrite string_app_nil_l.
    destruct Hrest as [-> | ->]; done.
  - destruct n as [a|body| |]; try done.
    + intros (pre & rest' & -> & Ha & Hnodes). rewrite string_app_assoc.
      apply match_atoms_complete; [done|]. by eapply IH.
    + intros (pre & rest' & groups' & -> & Hbody & -> & Hnodes). rewrite string_app_assoc.
      apply match_atoms_complete; [done|]. by eapply IH.
Qed.

Lemma pattern_nodes_no_anchor (run : nat) (pattern : string) :
  Forall (fun n => is_anchor n = false) (pattern_nodes_from run pattern).
Proof.
  revert run. induction pattern as [|c pattern IH]; intros run; cbn [pattern_nodes_from].
  - destruct run; by repeat constructor.
  - destruct (Ascii.eqb c "?"); [apply IH|].
    apply Forall_app. split; [destruct run; by repeat constructor|].
    constructor; [by destruct (Ascii.eqb c "*") | apply IH].
Qed.

(** ** Placeholders *)

Lemma str_digit (i : nat) :
  (i < 9)%nat → Str.str (i + 1) = String (digit_of i) "".
Proof.
  intros Hi. do 9 (destruct i as [|i]; [reflexivity|]). lia.
Qed.

Lemma placeholder_index_digit (n : nat) (d : ascii) (i : nat) :
  placeholder_index n d = Some i ↔ d = digit_of i ∧ (i < n)%nat ∧ (i < 9)%nat.
Proof.
  unfold placeholder_index. split.
  - destruct (re.in_range "1" "9" d) eqn:Hd; [|done].
    destruct (Nat.ltb_spec (nat_of_ascii d - 49) n) as [Hlt|]; [|done].
    intros [= <-]. unfold re.in_range in Hd.
    apply andb_true_iff in Hd as [Hlo%Nat.leb_le Hhi%Nat.leb_le].
    change (nat_of_ascii "1") with 49%nat in Hlo.
    change (nat_of_ascii "9") with 57%nat in Hhi.
    split_and!; [|exact Hlt|lia].
    unfold digit_of. replace (49 + (nat_of_ascii d - 49))%nat with (nat_of_ascii d) by lia.
    by rewrite ascii_nat_embedding.
  - intros (-> & Hn & H9).
    assert (re.in_range "1" "9" (digit_of i) = true) as ->.
    { do 9 (destruct i as [|i]; [reflexivity|]). lia. }
    assert (nat_of_ascii (digit_of i) - 49 = i)%nat as ->.
    { do 9 (destruct i as [|i]; [reflexivity|]). lia. }
    by destruct (Nat.ltb_spec i n); [|lia].
Qed.

Lemma digit_of_not_percent (i : nat) : (i < 9)%nat → Ascii.eqb (digit_of i) "%" = false.
Proof. intros Hi. do 9 (destruct i as [|i]; [reflexivity|]). lia. Qed.

Lemma digit_of_inj (i j : nat) :
  (i < 9)%nat → (j < 9)%nat → digit_of i = digit_of j → i = j.
Proof.
  intros Hi Hj Heq.
  assert (nat_of_ascii (digit_of i) = nat_of_ascii (digit_of j)) as Hn by by rewrite Heq.
  unfold digit_of in Hn. rewrite !nat_ascii_embedding in Hn by lia. lia.
Qed.

Lemma render_app (xs ys : list seg) : render (xs ++ ys) = render xs +:+ render ys.
Proof.
  induction xs as [|x xs IH]; [done|]. cbn [app render].
  by rewrite IH, string_app_assoc.
Qed.

Lemma render_plain_text (text : string) : render (plain_text text) = text.
Proof.
  unfold plain_text. induction text as [|c text IH]; [done|].
  cbn [list_ascii_of_string map render render_seg].
  rewrite IH. reflexivity.
Qed.

Lemma parse_template_step (n : nat) (c d : ascii) (rest : string) :
  parse_template n (String c (String d rest))
  = if Ascii.eqb c "%" then
      match placeholder_index n d with
      | Some i => Hole i :: parse_template n rest
      | None => Plain c :: parse_template n (String d rest)
      end
    else Plain c :: parse_template n (String d rest).
Proof. reflexivity. Qed.

Lemma substitute_step (groups : list string) (c d : ascii) (rest : string) :
  substitute groups (String c (String d rest))
  = if Ascii.eqb c "%" then
      match placeholder_index (length groups) d with
      | Some i => nth i groups "" +:+ substitute groups rest
      | None => String c (substitute groups (String d rest))
      end
    else String c (substitute groups (String d rest)).
Proof. reflexivity. Qed.

Lemma no_double_percent_step (c d : ascii) (rest : string) :
  no_double_percent (String c (String d rest))
  = negb (Ascii.eqb c "%" && Ascii.eqb d "%") && no_double_percent (String d rest).
Proof. reflexivity. Qed.

(** A template is the rendering of its pieces. *)
Lemma render_parse_template (n : nat) (template : string) :
  (n ≤ 9)%nat → render (parse_template n template) = template.
Proof.
  intros Hn.
  assert (∀ m t, String.length t ≤ m → render (parse_template n t) = t)%nat as Hall.
  { induction m as [|m IH]; intros t Hlen.
    - destruct t; [done | cbn in Hlen; lia].
    - destruct t as [|c [|d rest']]; [done|done|].
      rewrite parse_template_step. cbn [String.length] in Hlen.
      destruct (Ascii.eqb_spec c "%") as [->|Hc].
      + destruct (placeholder_index n d) as [i|] eqn:Hd.
        * apply placeholder_index_digit in Hd as (-> & Hi & H9).
          cbn [render render_seg]. rewrite str_digit by done.
          rewrite IH by lia. reflexivity.
        * cbn [render render_seg]. rewrite IH by (cbn; lia). reflexivity.
      + cbn [render render_seg]. rewrite IH by (cbn; lia). reflexivity. }
  by apply (Hall (String.length template)).
Qed.

Lemma parse_template_head (n : nat) (d : ascii) (rest : string) :
  Ascii.eqb d "%" = false →
  ∃ segs, parse_template n (String d rest) = Plain d :: segs.
Proof.
  intros Hd. destruct rest as [|e rest]; [by eexists|].
  rewrite parse_template_step, Hd. by eexists.
Qed.

(** The pieces of a template without [%%] are well formed. *)
Lemma parse_template_well_formed (n : nat) (template : string) :
  no_double_percent template = true → well_formed n (parse_template n template).
Proof.
  assert (∀ m t, String.length t ≤ m → no_double_percent t = true →
                 well_formed n (parse_template n t))%nat as Hall.
  { induction m as [|m IH]; intros t Hlen Hclean.
    - destruct t; [done | cbn in Hlen; lia].
    - destruct t as [|c [|d rest']]; [done| |].
      { cbn. split; [|done]. done. }
      rewrite parse_template_step. rewrite no_double_percent_step in Hclean.
      apply andb_true_iff in Hclean as [Hcd Hclean]. cbn [String.length] in Hlen.
      destruct (Ascii.eqb_spec c "%") as [->|Hc].
      + cbn in Hcd. apply negb_true_iff in Hcd.
        destruct (placeholder_index n d) as [i|] eqn:Hd.
        * apply placeholder_index_digit in Hd as (-> & Hi & H9).
          cbn [well_formed]. split; [done|]. apply IH; [lia|].
          destruct rest'; [done|]. rewrite no_double_percent_step in Hclean.
          by apply andb_true_iff in Hclean as [_ ?].
        * cbn [well_formed]. split; [|apply IH; [cbn; lia | done]].
          intros _. destruct (parse_template_head n d rest' Hcd) as [segs ->]. done.
      + cbn [well_formed]. split; [|apply IH; [cbn; lia | done]].
        intros Hc'. by apply Ascii.eqb_eq in Hc'. }
  by apply (Hall (String.length template)).
Qed.

Lemma fill_from_cons_seg (k : nat) (groups : list string) (s : seg) (segs : list seg) :
  fill_from k groups (s :: segs) = fill_from k groups [s] ++ fill_from k groups segs.
Proof. unfold fill_from. cbn. by rewrite app_nil_r. Qed.

Lemma fill_from_app (k : nat) (groups : list string) (xs ys : list seg) :
  fill_from k groups (xs ++ ys) = fill_from k groups xs ++ fill_from k groups ys.
Proof. apply flat_map_app. Qed.

Lemma fill_from_plain_text (k : nat) (groups : list string) (text : string) :
  fill_from k groups (plain_text text) = plain_text text.
Proof.
  unfold plain_text. induction (list_ascii_of_string text) as [|c cs IH]; [done|].
  cbn [map]. rewrite fill_from_cons_seg, IH. reflexivity.
Qed.

(** Filling in the groups one after the other. *)
Lemma fill_from_step (k : nat) (group : string) (groups : list string) (segs : list seg) :
  fill_from k (group :: groups) segs = fill_from (S k) groups (fill_from k [group] segs).
Proof.
  induction segs as [|s segs IH]; [done|].
  rewrite (fill_from_cons_seg k (group :: groups)), (fill_from_cons_seg k [group]),
    fill_from_app, IH.
  f_equal. destruct s as [c|i]; [done|].
  unfold fill_from at 1 3. cbn [flat_map length]. rewrite !app_nil_r.
  destruct (Nat.leb_spec k i) as [Hki|Hki]; cbn [andb].
  - destruct (decide (i = k)) as [->|Hne].
    + replace (k <? k + 1)%nat with true by (symmetry; apply Nat.ltb_lt; lia).
      replace (k <? k + S (length groups))%nat with true
        by (symmetry; apply Nat.ltb_lt; lia).
      rewrite Nat.sub_diag. cbn [nth]. by rewrite fill_from_plain_text.
    + replace (i <? k + 1)%nat with false by (symmetry; apply Nat.ltb_ge; lia).
      unfold fill_from. cbn [flat_map]. rewrite app_nil_r.
      replace (S k <=? i)%nat with true by (symmetry; apply Nat.leb_le; lia).
      replace (i <? S k + length groups)%nat with (i <? k + S (length groups))%nat
        by (by rewrite Nat.add_succ_r).
      cbn [andb]. destruct (i <? k + S (length groups))%nat; [|done].
      replace (i - k)%nat with (S (i - S k)) by lia. done.
  - unfold fill_from. cbn [flat_map]. rewrite app_nil_r.
    by replace (S k <=? i)%nat with false by (symmetry; apply Nat.leb_gt; lia).
Qed.

Lemma fill_from_well_formed (n k : nat) (group : string) (segs : list seg) :
  no_percent group = true → well_formed n segs →
  well_formed n (fill_from k [group] segs).
Proof.
  intros Hg. induction segs as [|s segs IH]; [done|].
  rewrite fill_from_cons_seg. destruct s as [c|i]; cbn [well_formed].
  - intros [Hc Hwf]. change (fill_from k [group] [Plain c]) with [Plain c].
    cbn [app well_formed]. split; [|by apply IH].
    intros Hpct. specialize (Hc Hpct). destruct segs as [|[d|j] segs]; try done.
  - intros [Hi Hwf]. specialize (IH Hwf).
    unfold fill_from at 1. cbn [flat_map length]. rewrite app_nil_r.
    destruct (_ && _); [|by split].
    assert (no_percent (nth (i - k) [group] "") = true) as Htext
      by (by destruct (i - k)%nat as [|[|?]]).
    revert Htext. generalize (nth (i - k) [group] "") as text.
    unfold plain_text. induction text as [|c text IHt]; [done|].
    cbn [no_percent]. intros [Hc Ht]%andb_true_iff. apply negb_true_iff in Hc.
    cbn [list_ascii_of_string map app well_formed]. split; [by rewrite Hc | by apply IHt].
Qed.

Lemma render_cons_plain (c : ascii) (segs : list seg) :
  render (Plain c :: segs) = String c (render segs).
Proof. reflexivity. Qed.

Lemma render_cons_hole (i : nat) (segs : list seg) :
  (i < 9)%nat → render (Hole i :: segs) = String "%" (String (digit_of i) (render segs)).
Proof. intros Hi. cbn [render render_seg]. by rewrite str_digit. Qed.

(** One round of [_replace_groups] on a well-formed template: exactly
    the placeholders of the group are replaced. *)
Lemma replace_placeholder (n i : nat) (group : string) (segs : list seg) :
  (i < n)%nat → (n ≤ 9)%nat → well_formed n segs →
  Str.replace ("%" +:+ Str.str (i + 1)) group (render segs)
  = render (fill_from i [group] segs).
Proof.
  intros Hi Hn. rewrite str_digit by lia.
  change ("%" +:+ String (digit_of i) "") with (String "%" (String (digit_of i) "")).
  unfold Str.replace.
  induction segs as [|s segs IH]; [done|].
  rewrite fill_from_cons_seg, render_app.
  destruct s as [c|j]; cbn [well_formed].
  - intros [Hc Hwf]. specialize (IH Hwf).
    rewrite render_cons_plain. cbn [Str.replace_scan Str.startswith].
    assert (Ascii.eqb "%" c
            && match render segs with
               | EmptyString => false
               | String b _ => Ascii.eqb (digit_of i) b && true
               end = false) as ->.
    { destruct (Ascii.eqb_spec "%" c) as [<-|]; [|done]. cbn [andb].
      specialize (Hc eq_refl). destruct segs as [|[d|?] segs]; [done| |done].
      rewrite render_cons_plain. rewrite andb_true_r.
      apply Ascii.eqb_neq. intros <-.
      assert (placeholder_index n (digit_of i) = Some i) as Hsome
        by (apply placeholder_index_digit; split_and!; [done|done|lia]).
      congruence. }
    by rewrite IH.
  - intros [Hj Hwf]. specialize (IH Hwf).
    rewrite render_cons_hole by lia. cbn [Str.replace_scan Str.startswith].
    change (Ascii.eqb "%" "%") with true. cbn [andb]. rewrite andb_true_r.
    unfold fill_from at 1. cbn [flat_map length]. rewrite app_nil_r.
    destruct (Ascii.eqb_spec (digit_of i) (digit_of j)) as [Heq|Hne].
    + apply digit_of_inj in Heq as <-; [|lia|lia].
      replace (i <=? i)%nat with true by (symmetry; by apply Nat.leb_le).
      replace (i <? i + 1)%nat with true by (symmetry; apply Nat.ltb_lt; lia).
      cbn [andb String.length Nat.pred]. rewrite Nat.sub_diag. cbn [nth].
      by rewrite render_plain_text, IH.
    + assert ((i <=? j)%nat && (j <? i + 1)%nat = false) as ->.
      { destruct (Nat.leb_spec i j), (Nat.ltb_spec j (i + 1)); try done.
        assert (i = j) as -> by lia. done. }
      rewrite render_cons_hole by lia. rewrite string_app_cons, string_app_cons. f_equal.
      cbn [Str.replace_scan Str.startswith].
      rewrite Ascii.eqb_sym, digit_of_not_percent by lia. cbn [andb].
      rewrite string_app_nil_l. by rewrite IH.
Qed.

Lemma fill_from_nil (k : nat) (segs : list seg) : fill_from k [] segs = segs.
Proof.
  induction segs as [|s segs IH]; [done|].
  rewrite fill_from_cons_seg, IH. destruct s as [c|i]; [done|].
  unfold fill_from. cbn [flat_map length app].
  destruct (Nat.leb_spec k i), (Nat.ltb_spec i (k + 0)); try done. lia.
Qed.

(** The loop of [_replace_groups] on a well-formed template fills in the
    groups. *)
Lemma replace_each_fill (n k : nat) (groups : list string) (segs : list seg) :
  (k + length groups ≤ n)%nat → (n ≤ 9)%nat →
  Forall (fun g => no_percent g = true) groups →
  well_formed n segs →
  replace_each k groups (render segs) = render (fill_from k groups segs).
Proof.
  intros Hk Hn Hgroups. revert k segs Hk.
  induction Hgroups as [|group groups Hgroup _ IH]; intros k segs Hk Hwf.
  - cbn [replace_each]. by rewrite fill_from_nil.
  - cbn [replace_each length] in *.
    rewrite (replace_placeholder n k group segs) by (done || lia).
    rewrite IH; [|lia|by apply fill_from_well_formed].
    by rewrite <- fill_from_step.
Qed.

(** With every group filled in, the pieces read as the substituted
    template. *)
Lemma render_fill_parse (groups : list string) (template : string) :
  render (fill_from 0 groups (parse_template (length groups) template))
  = substitute groups template.
Proof.
  assert (∀ m t, String.length t ≤ m →
                 render (fill_from 0 groups (parse_template (length groups) t))
                 = substitute groups t)%nat as Hall.
  { induction m as [|m IH]; intros t Hlen.
    - destruct t; [done | cbn in Hlen; lia].
    - destruct t as [|c [|d rest']]; [done|done|].
      rewrite parse_template_step, substitute_step. cbn [String.length] in Hlen.
      destruct (Ascii.eqb c "%").
      + destruct (placeholder_index (length groups) d) as [i|] eqn:Hd.
        * apply placeholder_index_digit in Hd as (-> & Hi & H9).
          rewrite fill_from_cons_seg, render_app, IH by lia. f_equal.
          unfold fill_from. cbn [flat_map]. rewrite app_nil_r.
          replace (i <? 0 + length groups)%nat with true
            by (symmetry; apply Nat.ltb_lt; lia).
          cbn [Nat.leb andb]. by rewrite Nat.sub_0_r, render_plain_text.
        * rewrite fill_from_cons_seg, render_app, IH by (cbn; lia). reflexivity.
      + rewrite fill_from_cons_seg, render_app, IH by (cbn; lia). reflexivity. }
  by apply (Hall (String.length template)).
Qed.

Lemma replace_groups_from_each (index : nat) (groups : list string) (link title : string) :
  TagStatLink._replace_groups_from index groups link title
  = (replace_each index groups link, replace_each index groups title).
Proof.
  revert index link title. induction groups as [|group groups IH]; intros; [done|].
  cbn [TagStatLink._replace_groups_from replace_each]. apply IH.
Qed.

Lemma replace_each_substitute (groups : list string) (template : string) :
  (length groups ≤ 9)%nat →
  Forall (fun g => no_percent g = true) groups →
  no_double_percent template = true →
  replace_each 0 groups template = substitute groups template.
Proof.
  intros Hn Hgroups Hclean.
  rewrite <- (render_parse_template (length groups) template) at 1 by done.
  rewrite (replace_each_fill (length groups)); try done.
  - apply render_fill_parse.
  - by apply parse_template_well_formed.
Qed.

(** With at most nine groups, none of them holding a [%], and templates
    without [%%], the loop of [_replace_groups] puts every group at its
    placeholders. *)
Lemma replace_groups_substitute (link title : string) (groups : list string) :
  (length groups ≤ 9)%nat →
  Forall (fun g => no_percent g = true) groups →
  no_double_percent link = true →
  no_double_percent title = true →
  TagStatLink._replace_groups link title groups
  = (substitute groups link, substitute groups title).
Proof.
  intros Hn Hgroups Hlink Htitle. unfold TagStatLink._replace_groups.
  rewrite replace_groups_from_each. by rewrite !replace_each_substitute.
Qed.

(** ** The compiled pattern *)

Lemma groups_of_anchored (inner : list re.node) :
  groups_of (re.Bol :: inner ++ [re.Eol]) = groups_of inner.
Proof.
  change (re.Bol :: inner ++ [re.Eol]) with ([re.Bol] ++ inner ++ [re.Eol]).
  rewrite !groups_of_app. cbn. by rewrite app_nil_r.
Qed.

Lemma match_anchored (ic : bool) (inner : list re.node) (tag : string) :
  re.match_ (re.mk (re.Bol :: inner ++ [re.Eol]) ic) tag
  = re.match_nodes ic tag (inner ++ [re.Eol]) tag [].
Proof.
  unfold re.match_. cbn [re.nodes re.ignorecase re.match_nodes].
  by rewrite Nat.eqb_refl.
Qed.

(** C5: for every wildcard pattern [_get_match_regexp] produces a
    case-insensitive expression between [^] and [$] that holds exactly
    one capture group for every [*] and one for every maximal run of
    [?], in the order of the pattern (a group that a trailing [?] leaves
    open is closed after the loop), and a match captures one text per
    wildcard.  The expression is not a match of the whole tag, though.
    The dots it is made of take any character but a newline, so [?] and
    [*] never take a newline; and [$] also holds before one final
    newline.  A tag therefore matches exactly when the pattern, with
    wildcards that stop at newlines, takes all of it or all of it but
    one final newline: the pattern [foo] matches the tag [foo] followed
    by a newline, and [*] does not match a tag with a newline inside. *)
Theorem get_match_regexp_groups_and_anchors :
  (∀ pattern,
     ∃ body regexp,
       TagStatLink.regexp_source pattern = "^" +:+ body +:+ "$"
       ∧ TagStatLink._get_match_regexp pattern = Some regexp
       ∧ re.ignorecase regexp = true
       ∧ re.nodes regexp = re.Bol :: pattern_nodes pattern ++ [re.Eol]
       ∧ groups_of (re.nodes regexp) = map wildcard_group (wildcards pattern)
       ∧ (∀ tag groups,
            re.match_ regexp tag = Some groups →
            length groups = length (wildcards pattern)
            ∧ ∃ text rest,
                tag = text +:+ rest ∧ at_end rest
                ∧ nodes_span true (pattern_nodes pattern) text groups)
       ∧ (∀ text rest groups,
            nodes_span true (pattern_nodes pattern) text groups → at_end rest →
            is_Some (re.match_ regexp (text +:+ rest))))
  ∧ TagStatLink.regexp_source "foo*bar" = "^foo(.*)bar$"
  ∧ TagStatLink.regexp_source "a?b" = "^a(.)b$"
  ∧ TagStatLink.regexp_source "a??" = "^a(..)$"
  ∧ (regexp ← TagStatLink._get_match_regexp "foo*bar"; re.match_ regexp "fooXYbar")
    = Some ["XY"]
  ∧ (regexp ← TagStatLink._get_match_regexp "a?b"; re.match_ regexp "axb")
    = Some ["x"]
  ∧ (regexp ← TagStatLink._get_match_regexp "foo";
     re.match_ regexp ("foo" +:+ String re.newline "")) = Some []
  ∧ (regexp ← TagStatLink._get_match_regexp "*";
     re.match_ regexp ("a" +:+ String re.newline "b")) = None
  ∧ (regexp ← TagStatLink._get_match_regexp "?";
     re.match_ regexp (String re.newline "")) = None.
Proof.
  split; [|by vm_compute]. intros pattern.
  exists (regexp_rest (re.split_wildcards "" pattern) false),
    (re.mk (re.Bol :: pattern_nodes pattern ++ [re.Eol]) true).
  split; [apply regexp_source_rest|].
  split; [apply get_match_regexp_compiles|].
  split; [done|]. split; [done|]. split.
  { cbn [re.nodes]. rewrite groups_of_anchored. apply groups_of_pattern_nodes. }
  split.
  - intros tag groups Hm. rewrite match_anchored in Hm.
    destruct (match_nodes_sound _ _ _ _ _ _ (pattern_nodes_no_anchor 0 pattern) Hm)
      as (text & rest & captured & -> & Hrest & Hspan & ->).
    destruct (match_nodes_groups _ _ _ _ _ _ Hm) as (captured' & Heq & Hlen & _).
    apply app_inv_head in Heq as <-.
    split; [|by exists text, rest].
    rewrite groups_of_app in Hlen. cbn in Hlen. rewrite app_nil_r in Hlen.
    cbn [app]. by rewrite Hlen, wildcards_length_nodes.
  - intros text rest groups Hspan Hrest. rewrite match_anchored.
    by eapply match_nodes_complete.
Qed.

Lemma get_match_regexp_groups_and_anchors_witness :
  ∃ regexp text rest,
    TagStatLink._get_match_regexp "foo*bar" = Some regexp
    ∧ re.match_ regexp "FooXYbar" = Some ["XY"]
    ∧ "FooXYbar" = text +:+ rest ∧ at_end rest
    ∧ nodes_span true (pattern_nodes "foo*bar") text ["XY"].
Proof.
  destruct (proj1 get_match_regexp_groups_and_anchors "foo*bar")
    as (body & regexp & _ & Hcompile & _ & _ & _ & Hsound & _).
  assert (re.match_ regexp "FooXYbar" = Some ["XY"]) as Hmatch.
  { rewrite get_match_regexp_compiles in Hcompile. injection Hcompile as <-.
    vm_compute. reflexivity. }
  destruct (Hsound "FooXYbar" ["XY"] Hmatch) as (_ & text & rest & Htag & Hrest & Hspan).
  by exists regexp, text, rest.
Defined.

(** The pattern [foo] matches the tag [foo] followed by one newline,
    although it does not take the whole tag. *)
Lemma get_match_regexp_accepts_final_newline :
  ∃ regexp tag,
    tag = "foo" +:+ String re.newline ""
    ∧ TagStatLink._get_match_regexp "foo" = Some regexp
    ∧ re.match_ regexp tag = Some []
    ∧ ∀ groups, ¬ nodes_span true (pattern_nodes "foo") tag groups.
Proof.
  eexists _, _. split; [reflexivity|]. split; [apply get_match_regexp_compiles|].
  split; [vm_compute; reflexivity|].
  intros groups. cbn.
  intros (p1 & r1 & Hsplit & (d1 & t1 & -> & _ & ->) & p2 & r2 & -> & (d2 & t2 & -> & _ & ->)
          & p3 & r3 & -> & (d3 & t3 & -> & _ & ->) & -> & _).
  discriminate Hsplit.
Qed.

(** ** The links of a tag *)

Lemma replace_underscores_percent (title : string) :
  no_double_percent (Str.replace "_" " " title) = no_double_percent title.
Proof.
  unfold Str.replace.
  assert (∀ c t, Str.replace_scan "_" " " 0 (String c t)
                 = String (if Ascii.eqb "_" c then " "%char else c)
                     (Str.replace_scan "_" " " 0 t)) as Hstep.
  { intros c t. cbn [Str.replace_scan Str.startswith]. rewrite andb_true_r.
    by destruct (Ascii.eqb "_" c). }
  induction title as [|c [|d title] IH]; [done|by rewrite Hstep|].
  rewrite Hstep, Hstep, !no_double_percent_step, <- IH, Hstep.
  f_equal. by destruct (Ascii.eqb_spec "_" c) as [<-|], (Ascii.eqb_spec "_" d) as [<-|].
Qed.

Lemma matches_get_link (link : TagStatLink.t) (tag : string) :
  TagStatLink.matches link tag
  = match TagStatLink.get_link link tag with Some _ => true | None => false end.
Proof.
  unfold TagStatLink.matches, TagStatLink.get_link. by destruct (re.match_ _ tag).
Qed.

(** [get_links] keeps, in the order of the rules, what [get_link] gives
    for the rules that match. *)
Lemma get_links_omap (links : list TagStatLink.t) (tag : string) :
  flat_map
    (fun link => match TagStatLink.get_link link tag with Some r => [r] | None => [] end)
    (List.filter (fun link => TagStatLink.matches link tag) links)
  = omap (fun link => TagStatLink.get_link link tag) links.
Proof.
  induction links as [|link links IH]; [done|].
  cbn [List.filter omap list_omap]. rewrite matches_get_link.
  destruct (TagStatLink.get_link link tag) as [r|] eqn:Hlink.
  - cbn [flat_map]. rewrite Hlink, IH. done.
  - exact IH.
Qed.

Section Links.
Context {TP : Type} `{!TagPatternsOps TP}.

Lemma init_links_compiled (links : list (string * string * string)) :
  TagStatInfo.init_links links
  = Some (map (fun '(pattern, link, title) =>
                 TagStatLink.mk
                   (re.mk (re.Bol :: pattern_nodes pattern ++ [re.Eol]) true)
                   link (Str.replace "_" " " title)) links).
Proof.
  induction links as [|[[pattern link] title] links IH]; [done|].
  cbn [TagStatInfo.init_links map]. unfold TagStatLink.init.
  rewrite get_match_regexp_compiles. cbn. by rewrite IH.
Qed.

(** C6, as amended: for a tag without [%] and link rules with at most
    nine wildcards and no [%%] in their templates, [get_links] returns,
    in rule order, one pair per rule whose pattern matches the tag, with
    every captured group substituted for its placeholder [%1], [%2], ...
    in the link template and in the title template, whose underscores
    were replaced with spaces before. *)
Theorem get_links_substitutes_groups
    (docs : list (string * string)) (links : list (string * string * string))
    (tag : string) :
  no_percent tag = true →
  Forall
    (fun '(pattern, link, title) =>
       (length (wildcards pattern) ≤ 9)%nat
       ∧ no_double_percent link = true ∧ no_double_percent title = true) links →
  ∃ info : TagStatInfo.t TP,
    TagStatInfo.init docs links = Some info
    ∧ TagStatInfo.get_links info tag
      = omap
          (fun '(pattern, link, title) =>
             regexp ← TagStatLink._get_match_regexp pattern;
             groups ← re.match_ regexp tag;
             Some (substitute groups link,
                   substitute groups (Str.replace "_" " " title)))
          links.
Proof.
  intros Htag Hlinks. unfold TagStatInfo.init. rewrite init_links_compiled. cbn.
  eexists. split; [done|]. unfold TagStatInfo.get_links. cbn [TagStatInfo._links].
  rewrite get_links_omap.
  induction Hlinks as [|[[pattern link] title] links (Hn & Hlink & Htitle) _ IH]; [done|].
  cbn [map omap list_omap]. rewrite IH, get_match_regexp_compiles. cbn [mbind option_bind].
  unfold TagStatLink.get_link at 1. cbn [TagStatLink._regexp TagStatLink._link TagStatLink._title].
  destruct (re.match_ _ tag) as [groups|] eqn:Hm; [|done]. cbn.
  rewrite match_anchored in Hm.
  destruct (match_nodes_groups _ _ _ _ _ _ Hm) as (captured & Heq & Hlen & Hpct).
  cbn [app] in Heq. subst captured.
  rewrite groups_of_app in Hlen. cbn in Hlen.
  rewrite app_nil_r, wildcards_length_nodes in Hlen.
  rewrite replace_groups_substitute; try done.
  - lia.
  - by apply Hpct.
  - change (Str.replace_scan "_" " " 0 title) with (Str.replace "_" " " title).
    by rewrite replace_underscores_percent.
Qed.
End Links.

Section LinksSample.
#[local] Existing Instance Sample.exact_patterns.

Lemma get_links_substitutes_groups_witness :
  ∃ info : TagStatInfo.t (list string),
    TagStatInfo.init [] [("*_*", "http://x/%1/%2", "Tag_%2")] = Some info
    ∧ TagStatInfo.get_links info "left_right" = [("http://x/left/right", "Tag right")].
Proof.
  destruct (get_links_substitutes_groups (TP := list string) []
              [("*_*", "http://x/%1/%2", "Tag_%2")] "left_right")
    as (info & Hinit & Hlinks).
  - reflexivity.
  - repeat constructor; vm_compute; lia.
  - exists info. split; [exact Hinit|]. rewrite Hlinks. vm_compute. reflexivity.
Defined.

(** A captured group that spells a placeholder is replaced in a later
    round: the tag [%2_right] gives the link [http://x/right/right], not
    the link with [%2] and [right] at the two placeholders. *)
Lemma get_links_replaces_inside_groups :
  ∃ info : TagStatInfo.t (list string),
    TagStatInfo.init [] [("*_*", "http://x/%1/%2", "Tag_%2")] = Some info
    ∧ TagStatInfo.get_links info "%2_right" = [("http://x/right/right", "Tag right")]
    ∧ omap
        (fun '(pattern, link, title) =>
           regexp ← TagStatLink._get_match_regexp pattern;
           groups ← re.match_ regexp "%2_right";
           Some (substitute groups link, substitute groups (Str.replace "_" " " title)))
        [("*_*", "http://x/%1/%2", "Tag_%2")]
      = [("http://x/%2/right", "Tag right")]
    ∧ TagStatInfo.get_links info "%2_right"
      ≠ omap
          (fun '(pattern, link, title) =>
             regexp ← TagStatLink._get_match_regexp pattern;
             groups ← re.match_ regexp "%2_right";
             Some (substitute groups link, substitute groups (Str.replace "_" " " title)))
          [("*_*", "http://x/%1/%2", "Tag_%2")].
Proof.
  eexists. split; [vm_compute; reflexivity|].
  split; [vm_compute; reflexivity|]. split; [vm_compute; reflexivity|].
  vm_compute. discriminate.
Qed.
End LinksSample.

(** ** The tag statistics of every configuration *)

Section Configurations.
Context {TP : Type} `{!TagPatternsOps TP} `{!NormalizeOps}.

(** [TagStatistics.__init__] succeeds whatever the patterns, the combined
    tags, the documentation and the link rules are, and its result is
    seeded: the builder can start from it. *)
Lemma tag_statistics_init_seeded (include exclude : patterns_arg)
    (combine : list (string * option string)) (docs : list (string * string))
    (links : list (string * string * string)) :
  ∃ tags : TagStatistics.t TP,
    TagStatistics.init include exclude combine docs links = Some tags ∧ seeded tags.
Proof.
  destruct (TagStatistics.init include exclude combine docs links) as [tags|] eqn:Hinit.
  - exists tags. split; [done|]. by eapply init_seeded.
  - unfold TagStatistics.init, TagStatInfo.init in Hinit.
    by rewrite init_links_compiled in Hinit.
Qed.
End Configurations.

(** ** Where the rounds of [_replace_groups] differ from one pass *)

(** With ten groups the placeholder of the tenth goes to the first:
    [%10] begins with [%1]. *)
Lemma replace_groups_tenth_placeholder :
  (link ← TagStatLink.init "?a?a?a?a?a?a?a?a?a?" "%10" "";
   TagStatLink.get_link link "0a1a2a3a4a5a6a7a8a9")
  = Some ("00", "").
Proof. by vm_compute. Qed.

(** A [%] before a placeholder makes a placeholder of a group that
    starts with a digit. *)
Lemma replace_groups_after_percent :
  TagStatLink._replace_groups "%%1" "" ["2"; "x"] = ("x", "")
  ∧ substitute ["2"; "x"] "%%1" = "%2".
Proof. by vm_compute. Qed.

(** ** The counters, over many tests and suites *)

Lemma tally_snoc (p : Test.t → bool) (tests : list Test.t) (test : Test.t) :
  tally p (tests ++ [test]) = tally p tests + b2z (p test).
Proof.
  unfold tally. rewrite List.filter_app, length_app. cbn.
  destruct (p test); cbn; lia.
Qed.

Lemma Stat_add_test_counters (self : Stat.t) (test : Test.t) :
  Stat.passed (Stat.add_test self test) = Stat.passed self + b2z (is_passed test)
  ∧ Stat.failed (Stat.add_test self test) = Stat.failed self + b2z (is_failed test)
  ∧ Stat.name (Stat.add_test self test) = Stat.name self.
Proof.
  unfold Stat.add_test, is_failed, is_passed.
  destruct (String.eqb (Test.status test) "PASS"); cbn; split_and!; lia || done.
Qed.

Lemma Stat_add_tests_counters (tests : list Test.t) (self : Stat.t) :
  let self' := fold_left Stat.add_test tests self in
  Stat.passed self' = Stat.passed self + tally is_passed tests
  ∧ Stat.failed self' = Stat.failed self + tally is_failed tests
  ∧ Stat.name self' = Stat.name self.
Proof.
  revert self. induction tests as [|test tests IH]; intros self.
  - cbn. unfold tally. cbn. split_and!; lia || done.
  - cbn [fold_left]. destruct (IH (Stat.add_test self test)) as (Hp & Hf & Hn).
    destruct (Stat_add_test_counters self test) as (Hp1 & Hf1 & Hn1).
    cbn zeta in *. rewrite Hp, Hf, Hn, Hp1, Hf1, Hn1, !tally_cons.
    split_and!; lia || done.
Qed.

Lemma tally_split (tests : list Test.t) :
  tally is_passed tests + tally is_failed tests = Z.of_nat (length tests).
Proof.
  unfold tally, is_failed.
  induction tests as [|test tests IH]; [done|].
  cbn. destruct (is_passed test); cbn [negb length]; lia.
Qed.

Lemma tally_failed_none (tests : list Test.t) :
  (tally is_failed tests =? 0) = forallb is_passed tests.
Proof.
  unfold tally, is_failed.
  induction tests as [|test tests IH]; [done|].
  cbn. destruct (is_passed test); cbn [negb length andb]; [exact IH|].
  apply Z.eqb_neq. lia.
Qed.

(** X1: a fresh [Stat] that has counted a list of tests holds the number
    of tests whose status is [PASS] in [passed] and the number of the
    others in [failed]; as a truth value it is true exactly when every
    test passed (so also when there was no test at all). *)
Theorem stat_of_tests_counts_and_truth (name : string) (tests : list Test.t) :
  let stat := fold_left Stat.add_test tests (Stat.init name) in
  Stat.passed stat = tally is_passed tests
  ∧ Stat.failed stat = tally is_failed tests
  ∧ Stat.total stat = Z.of_nat (length tests)
  ∧ Stat.name stat = name
  ∧ Stat.nonzero stat = forallb is_passed tests.
Proof.
  destruct (Stat_add_tests_counters tests (Stat.init name)) as (Hp & Hf & Hn).
  cbn zeta in *. cbn in Hp, Hf, Hn. unfold Stat.total, Stat.nonzero.
  rewrite Hp, Hf, Hn. split_and!; try done.
  - apply tally_split.
  - apply tally_failed_none.
Qed.

(** X2: how [Stat.add_stat] composes: it adds the other stat's [passed]
    to the receiver's [passed] and its [failed] to the receiver's
    [failed], and keeps the receiver's name, so totals add up; merging is
    associative and the order of two merges does not matter; a fresh stat
    merges as nothing; and it commutes with counting a test and with
    [fail_all]. *)
Theorem add_stat_composes (a b c : Stat.t) (test : Test.t) :
  Stat.passed (Stat.add_stat a b) = Stat.passed a + Stat.passed b
  ∧ Stat.failed (Stat.add_stat a b) = Stat.failed a + Stat.failed b
  ∧ Stat.total (Stat.add_stat a b) = Stat.total a + Stat.total b
  ∧ Stat.name (Stat.add_stat a b) = Stat.name a
  ∧ Stat.add_stat (Stat.add_stat a b) c = Stat.add_stat a (Stat.add_stat b c)
  ∧ Stat.add_stat (Stat.add_stat a b) c = Stat.add_stat (Stat.add_stat a c) b
  ∧ Stat.add_stat a (Stat.init (Stat.name b)) = a
  ∧ Stat.add_stat (Stat.add_test a test) b = Stat.add_test (Stat.add_stat a b) test
  ∧ Stat.fail_all (Stat.add_stat a b) = Stat.add_stat (Stat.fail_all a) (Stat.fail_all b).
Proof.
  destruct a as [na pa fa], b as [nb pb fb], c as [nc pc fc].
  unfold Stat.add_stat, Stat.total, Stat.add_test, Stat.fail_all, Stat.init. cbn.
  split_and!; try lia; try done; try (f_equal; lia).
  destruct (String.eqb (Test.status test) "PASS"); cbn; f_equal; lia.
Qed.

(** The sum of a counter over the [all_stats] of a list of suites. *)
Lemma Stat_add_stats_counters (all_stats : TestSuite.t → Stat.t)
    (suites : list TestSuite.t) (self : Stat.t) :
  let self' :=
    fold_left (fun self suite => Stat.add_stat self (Stat_subsuite_stats all_stats self suite))
      suites self in
  Stat.passed self'
  = Stat.passed self + foldr Z.add 0 (List.map (fun s => Stat.passed (all_stats s)) suites)
  ∧ Stat.failed self'
    = Stat.failed self + foldr Z.add 0 (List.map (fun s => Stat.failed (all_stats s)) suites)
  ∧ Stat.name self' = Stat.name self.
Proof.
  revert self. induction suites as [|s suites IH]; intros self.
  - cbn. split_and!; lia || done.
  - cbn [fold_left List.map foldr].
    destruct (IH (Stat.add_stat self (Stat_subsuite_stats all_stats self s))) as (Hp & Hf & Hn).
    cbn zeta in *. rewrite Hp, Hf, Hn. unfold Stat_subsuite_stats. cbn.
    split_and!; lia || done.
Qed.

Lemma count_tests_unfold (p : Test.t → bool) (suite : TestSuite.t) :
  Z.of_nat (count_tests p suite)
  = foldr Z.add 0 (List.map (fun s => Z.of_nat (count_tests p s)) (TestSuite.suites suite))
    + tally p (TestSuite.tests suite).
Proof.
  destruct suite as [longname name id critical suites tests].
  cbn [count_tests TestSuite.suites TestSuite.tests]. unfold tally.
  rewrite Nat2Z.inj_add. f_equal.
  induction suites as [|s suites IH]; [done|].
  cbn [List.map foldr].
  change (list_sum (?x :: ?l)) with (x + list_sum l)%nat.
  rewrite Nat2Z.inj_add, IH. done.
Qed.

(** X3: [Stat.add_suite] counts the suite's own tests one by one (the
    base class takes every test) and then merges [all_stats] of each
    direct sub-suite; it never looks at the tests of a sub-suite itself.
    When [all_stats] of the sub-suites are the stats of their whole
    trees, a fresh stat ends with the counters of the whole tree: the
    ones the statistics builder leaves in the node of the suite. *)
Theorem add_suite_counts (all_stats : TestSuite.t → Stat.t) (self : Stat.t)
    (suite : TestSuite.t) :
  (let self' := Stat_add_suite all_stats self suite in
   Stat.passed self'
   = Stat.passed self + tally is_passed (TestSuite.tests suite)
     + foldr Z.add 0 (List.map (fun s => Stat.passed (all_stats s)) (TestSuite.suites suite))
   ∧ Stat.failed self'
     = Stat.failed self + tally is_failed (TestSuite.tests suite)
       + foldr Z.add 0 (List.map (fun s => Stat.failed (all_stats s)) (TestSuite.suites suite))
   ∧ Stat.name self' = Stat.name self)
  ∧ Stat_add_suite (fun s => SuiteStat.base (SuiteStat_of any_test s))
      (Stat.init (TestSuite.longname suite)) suite
    = SuiteStat.base (SuiteStat_of any_test suite).
Proof.
  assert (∀ all_stats self,
            let self' := Stat_add_suite all_stats self suite in
            Stat.passed self'
            = Stat.passed self + tally is_passed (TestSuite.tests suite)
              + foldr Z.add 0
                  (List.map (fun s => Stat.passed (all_stats s)) (TestSuite.suites suite))
            ∧ Stat.failed self'
              = Stat.failed self + tally is_failed (TestSuite.tests suite)
                + foldr Z.add 0
                    (List.map (fun s => Stat.failed (all_stats s)) (TestSuite.suites suite))
            ∧ Stat.name self' = Stat.name self) as Hcounts.
  { clear. intros all_stats self. unfold Stat_add_suite, Stat_is_included.
    set (self1 := fold_left _ (TestSuite.tests suite) self).
    destruct (Stat_add_stats_counters all_stats (TestSuite.suites suite) self1)
      as (Hp & Hf & Hn).
    destruct (Stat_add_tests_counters (TestSuite.tests suite) self) as (Hp1 & Hf1 & Hn1).
    cbn zeta in *.
    change (fold_left Stat.add_test (TestSuite.tests suite) self) with self1
      in Hp1, Hf1, Hn1.
    rewrite Hp, Hf, Hn, Hp1, Hf1, Hn1. done. }
  split; [apply Hcounts|].
  destruct (Hcounts (fun s => SuiteStat.base (SuiteStat_of any_test s))
              (Stat.init (TestSuite.longname suite))) as (Hp & Hf & Hn).
  cbn zeta in *.
  destruct (Stat_add_suite _ _ suite) as [n p f]. cbn in Hp, Hf, Hn. subst n p f.
  unfold SuiteStat_of. cbn [SuiteStat.base]. f_equal.
  - rewrite (count_tests_unfold _ suite). cbn [any_test andb].
    rewrite Z.add_0_l, Z.add_comm. done.
  - rewrite (count_tests_unfold _ suite). cbn [any_test andb].
    rewrite Z.add_0_l, Z.add_comm. done.
Qed.

(** ** Iterating the statistics tree *)

Lemma mapM_fmap {A B C : Type} (f : A → option C) (g : B → C) (h : A → option B)
    (l : list A) :
  (∀ x, f x = g <$> h x) → mapM f l = List.map g <$> mapM h l.
Proof.
  intros Hf. induction l as [|x l IH]; [done|].
  cbn. rewrite Hf, IH. destruct (h x); cbn; [|done]. by destruct (mapM h l).
Qed.

Lemma SuiteStatistics_iter_snapshot (fuel : nat) (store : list SuiteStatistics.t)
    (ref : nat) :
  SuiteStatistics_iter fuel store ref
  = tree_iter <$> SuiteStatistics.snapshot fuel store ref.
Proof.
  revert ref. induction fuel as [|fuel IH]; intros ref; [done|].
  cbn [SuiteStatistics_iter SuiteStatistics.snapshot].
  destruct (store !! ref) as [self|]; [|done]. cbn.
  rewrite (mapM_fmap _ tree_iter (SuiteStatistics.snapshot fuel store)) by done.
  by destruct (mapM _ (SuiteStatistics.suites self)).
Qed.

Lemma tree_iter_stats_tree (level : Z) (depth : nat) (suite : TestSuite.t) :
  tree_iter (stats_tree level depth suite)
  = List.map (SuiteStat_of any_test) (shown_suites level depth suite).
Proof.
  revert depth.
  induction suite as [longname name id critical suites tests IH] using TestSuite_induction.
  intros depth. cbn [stats_tree tree_iter shown_suites List.map]. f_equal.
  destruct (attached level (S depth)); [|done].
  induction IH as [|s suites Hs _ IHs]; [done|].
  cbn [List.map concat]. by rewrite List.map_app, Hs, IHs.
Qed.

Lemma shown_suites_unlimited (depth : nat) (suite : TestSuite.t) :
  length (shown_suites (-1) depth suite) = suite_count suite.
Proof.
  revert depth.
  induction suite as [longname name id critical suites tests IH] using TestSuite_induction.
  intros depth. cbn [shown_suites suite_count length]. f_equal.
  change (attached (-1) (S depth)) with true. cbn match.
  induction IH as [|s suites Hs _ IHs]; [done|].
  cbn [List.map concat]. rewrite length_app, Hs, IHs. done.
Qed.

Section IterTheorems.
Context {TP : Type} `{!TagPatternsOps TP} `{!NormalizeOps}.

(** X4: iterating the [SuiteStatistics] that [build] returns yields one
    [SuiteStat] for every suite that got a node, a suite before its
    sub-suites and these in their order; the stat carries the long name,
    the id and the name of its suite and has counted every test of the
    suite's whole tree.  Without a depth limit that is every suite of
    the tree; under the limit 1 it is the top-level suite alone. *)
Theorem iter_yields_attached_suites_in_preorder
    (store : list SuiteStatistics.t) (tags : TagStatistics.t TP) (level : Z)
    (suite : TestSuite.t) :
  seeded tags → level = -1 ∨ 0 < level →
  ∃ root b',
    StatisticsBuilder.build (StatisticsBuilder.init store tags level) suite
    = Some (root, b')
    ∧ (∀ fuel, (suite_count suite ≤ fuel)%nat →
         SuiteStatistics_iter fuel (StatisticsBuilder.store b') root
         = Some (List.map (SuiteStat_of any_test) (shown_suites level 0 suite)))
    ∧ (level = -1 → length (shown_suites level 0 suite) = suite_count suite)
    ∧ (level = 1 → shown_suites level 0 suite = [suite]).
Proof.
  intros Hseeded Hlevel.
  destruct (build_root store tags level suite Hseeded Hlevel) as (b' & Hbuild & Htree).
  exists (S (length store)), b'. split; [done|]. split; [|split].
  - intros fuel Hfuel. rewrite SuiteStatistics_iter_snapshot.
    erewrite holds_tree_snapshot; [|exact Htree|].
    + cbn. by rewrite tree_iter_stats_tree.
    + pose proof (tree_height_stats_tree level 0 suite). lia.
  - intros ->. apply shown_suites_unlimited.
  - intros ->. by destruct suite.
Qed.
End IterTheorems.

Section IterSample.
#[local] Existing Instance Sample.exact_patterns.
#[local] Existing Instance Sample.normal_keys.

Lemma iter_yields_attached_suites_in_preorder_witness :
  ∃ tags root b',
    Sample.tag_stats = Some tags
    ∧ StatisticsBuilder.build (StatisticsBuilder.init [] tags 2) Sample.tree
      = Some (root, b')
    ∧ List.map (fun stat => (Stat.name (SuiteStat.base stat), SuiteStat.total stat))
        <$> SuiteStatistics_iter 4 (StatisticsBuilder.store b') root
      = Some [("Root", 5); ("Root.A", 3); ("Root.B", 2)].
Proof.
  destruct sample_tags_seeded as (tags & Htags & Hseeded).
  destruct (iter_yields_attached_suites_in_preorder [] tags 2 Sample.tree Hseeded
              ltac:(right; lia))
    as (root & b' & Hbuild & Hiter & _).
  exists tags, root, b'. split; [done|]. split; [done|].
  rewrite Hiter by (cbn; lia). vm_compute. reflexivity.
Defined.
End IterSample.

(** ** The tag statistics that a traversal leaves *)

Section FeedFacts.
Context {TP : Type} `{!TagPatternsOps TP} `{!NormalizeOps}.
Implicit Types (b : StatisticsBuilder.t TP) (tags : TagStatistics.t TP).

Lemma add_tests_app (xs ys : list (Test.t * Criticality)) tags :
  add_tests (xs ++ ys) tags = (tags' ← add_tests xs tags; add_tests ys tags').
Proof.
  revert tags. induction xs as [|[test critical] xs IH]; intros tags; [done|].
  cbn [app add_tests].
  destruct (TagStatistics.add_test tags test critical) as [tags1|]; [|done].
  cbn. apply IH.
Qed.

Lemma start_suite_tags b suite b1 :
  StatisticsBuilder.start_suite b suite = Some b1 →
  StatisticsBuilder._tag_stats b1 = StatisticsBuilder._tag_stats b
  ∧ StatisticsBuilder._current_suite b1 = Some suite.
Proof.
  unfold StatisticsBuilder.start_suite.
  destruct (StatisticsBuilder._current_suite_stat b) as [current|]; [|done]. cbn.
  destruct (_ || _); cbn.
  - destruct (_ !! current) as [cur|]; [|done]. cbn. by intros [= <-].
  - by intros [= <-].
Qed.

Lemma end_suite_tags b suite b' :
  StatisticsBuilder.end_suite b suite = Some b' →
  StatisticsBuilder._tag_stats b' = StatisticsBuilder._tag_stats b
  ∧ StatisticsBuilder._current_suite b' = StatisticsBuilder._current_suite b.
Proof.
  unfold StatisticsBuilder.end_suite.
  destruct (last (StatisticsBuilder._parents b)) as [parent|]; [|by intros [= <-]].
  destruct (StatisticsBuilder._current_suite_stat b) as [current|]; [|done]. cbn.
  destruct (StatisticsBuilder.store b !! parent) as [p1|]; [|done]. cbn.
  destruct (StatisticsBuilder.store b !! current) as [c1|]; [|done]. cbn.
  destruct (_ !! parent) as [p2|]; [|done]. cbn.
  destruct (_ !! current) as [c2|]; [|done]. cbn. by intros [= <-].
Qed.

Lemma visit_test_tags b test b' :
  StatisticsBuilder.visit_test b test = Some b' →
  ∃ suite,
    StatisticsBuilder._current_suite b = Some suite
    ∧ TagStatistics.add_test (StatisticsBuilder._tag_stats b) test (TestSuite.critical suite)
      = Some (StatisticsBuilder._tag_stats b')
    ∧ StatisticsBuilder._current_suite b' = Some suite.
Proof.
  unfold StatisticsBuilder.visit_test.
  destruct (StatisticsBuilder._current_suite_stat b) as [current|]; [|done]. cbn.
  destruct (StatisticsBuilder.store b !! current) as [cur|]; [|done]. cbn.
  destruct (StatisticsBuilder._current_suite b) as [suite|]; [|done]. cbn.
  destruct (TagStatistics.add_test _ test _) as [tags1|] eqn:Hadd; [|done]. cbn.
  intros [= <-]. by exists suite.
Qed.

Lemma visit_tests_tags tests b b' cur :
  StatisticsBuilder.visit_each (fun test self => StatisticsBuilder.visit_test self test)
    tests b = Some b' →
  StatisticsBuilder._current_suite b = Some cur →
  StatisticsBuilder._current_suite b' = Some cur
  ∧ add_tests (List.map (fun test => (test, TestSuite.critical cur)) tests)
      (StatisticsBuilder._tag_stats b)
    = Some (StatisticsBuilder._tag_stats b').
Proof.
  revert b. induction tests as [|test tests IH]; intros b Hvisit Hcur.
  - cbn in Hvisit. by injection Hvisit as <-.
  - cbn [StatisticsBuilder.visit_each] in Hvisit.
    destruct (StatisticsBuilder.visit_test b test) as [b1|] eqn:Htest; [|done].
    cbn in Hvisit.
    destruct (visit_test_tags b test b1 Htest) as (suite & Hs & Hadd & Hs1).
    rewrite Hcur in Hs. injection Hs as <-.
    destruct (IH b1 Hvisit Hs1) as (Hcur' & Hrest).
    split; [done|]. cbn [List.map add_tests]. rewrite Hadd. cbn. exact Hrest.
Qed.

Lemma visit_suites_fed suites :
  Forall suite_fed suites →
  ∀ b b' cur,
    StatisticsBuilder.visit_each StatisticsBuilder.visit_suite suites b = Some b' →
    StatisticsBuilder._current_suite b = Some cur →
    StatisticsBuilder._current_suite b'
    = Some (fold_left (fun _ s => last_entered s) suites cur)
    ∧ add_tests (concat (List.map tagged_tests suites)) (StatisticsBuilder._tag_stats b)
      = Some (StatisticsBuilder._tag_stats b').
Proof.
  induction 1 as [|suite suites Hsuite _ IH]; intros b b' cur Hvisit Hcur.
  - cbn in Hvisit. by injection Hvisit as <-.
  - cbn [StatisticsBuilder.visit_each] in Hvisit.
    destruct (StatisticsBuilder.visit_suite suite b) as [b1|] eqn:Hone; [|done].
    cbn in Hvisit.
    destruct (Hsuite b b1 Hone) as (Hcur1 & Hfed1).
    destruct (IH b1 b' _ Hvisit Hcur1) as (Hcur' & Hfed').
    split; [done|].
    cbn [List.map concat]. rewrite add_tests_app, Hfed1. cbn. exact Hfed'.
Qed.

Lemma visit_suite_fed (suite : TestSuite.t) : suite_fed suite.
Proof.
  induction suite as [longname name id critical suites tests IH] using TestSuite_induction.
  set (suite := TestSuite.mk longname name id critical suites tests).
  intros b b' Hvisit. subst suite. cbn [StatisticsBuilder.visit_suite] in Hvisit.
  set (suite := TestSuite.mk longname name id critical suites tests) in *.
  destruct (StatisticsBuilder.start_suite b suite) as [b1|] eqn:Hstart; [|done].
  cbn in Hvisit.
  destruct (StatisticsBuilder.visit_each StatisticsBuilder.visit_suite suites b1)
    as [b2|] eqn:Hsuites; [|done].
  cbn in Hvisit.
  destruct (StatisticsBuilder.visit_each _ tests b2) as [b3|] eqn:Htests; [|done].
  cbn in Hvisit.
  destruct (start_suite_tags b suite b1 Hstart) as (Ht1 & Hc1).
  destruct (visit_suites_fed suites IH b1 b2 suite Hsuites Hc1) as (Hc2 & Ht2).
  destruct (visit_tests_tags tests b2 b3 _ Htests Hc2) as (Hc3 & Ht3).
  destruct (end_suite_tags b3 suite b' Hvisit) as (Ht4 & Hc4).
  rewrite Hc4, Ht4, <- Ht1. split; [exact Hc3|].
  subst suite. cbn [tagged_tests]. rewrite add_tests_app, Ht2. cbn. exact Ht3.
Qed.
End FeedFacts.

Section FeedTheorems.
Context {TP : Type} `{!TagPatternsOps TP} `{!NormalizeOps}.

(** X5: the traversal of [build] hands every test of the tree to
    [TagStatistics.add_test] exactly once, in the order of the traversal,
    and the tag statistics it leaves do not depend on the depth limit.
    The criticality a test is classified with is [_current_suite.critical]:
    [start_suite] sets [_current_suite] and [end_suite] does not put the
    parent back, so the tests of a suite that has sub-suites, which are
    visited after them, are classified with the criticality of the suite
    that was entered last. *)
Theorem build_feeds_every_test_to_the_tags
    (store : list SuiteStatistics.t) (tags : TagStatistics.t TP) (level : Z)
    (suite : TestSuite.t) :
  seeded tags → level = -1 ∨ 0 < level →
  ∃ root b',
    StatisticsBuilder.build (StatisticsBuilder.init store tags level) suite
    = Some (root, b')
    ∧ add_tests (tagged_tests suite) tags = Some (StatisticsBuilder._tag_stats b')
    ∧ List.map fst (tagged_tests suite) = all_tests suite
    ∧ StatisticsBuilder._current_suite b' = Some (last_entered suite)
    ∧ (TestSuite.suites suite = [] → last_entered suite = suite).
Proof.
  intros Hseeded Hlevel.
  destruct (build_root store tags level suite Hseeded Hlevel) as (b' & Hbuild & _).
  exists (S (length store)), b'. split; [done|].
  unfold StatisticsBuilder.build in Hbuild.
  destruct (StatisticsBuilder.visit_suite suite _) as [b2|] eqn:Hvisit; [|done].
  cbn in Hbuild.
  destruct (StatisticsBuilder._current_suite_stat b2) as [current|]; [|done].
  cbn in Hbuild.
  destruct (StatisticsBuilder.store b2 !! current) as [cur|]; [|done]. cbn in Hbuild.
  destruct (SuiteStatistics.suites cur !! 0%nat) as [root|]; [|done]. cbn in Hbuild.
  injection Hbuild as _ <-.
  destruct (visit_suite_fed suite _ _ Hvisit) as (Hcur & Hfed).
  split; [exact Hfed|]. split; [|split; [exact Hcur|]].
  - clear. induction suite as [longname name id critical suites tests IH]
      using TestSuite_induction.
    cbn [tagged_tests all_tests]. rewrite List.map_app, List.map_map. cbn [fst].
    rewrite List.map_id. f_equal.
    induction IH as [|s suites Hs _ IHs]; [done|].
    cbn [List.map concat]. by rewrite List.map_app, Hs, IHs.
  - destruct suite as [longname name id critical suites tests]. cbn. by intros ->.
Qed.
End FeedTheorems.

Section FeedSample.
#[local] Existing Instance Sample.exact_patterns.
#[local] Existing Instance Sample.normal_keys.

Lemma build_feeds_every_test_to_the_tags_witness :
  ∃ tags root b',
    Sample.tag_stats = Some tags
    ∧ StatisticsBuilder.build (StatisticsBuilder.init [] tags 1) Sample.tree
      = Some (root, b')
    ∧ add_tests (tagged_tests Sample.tree) tags = Some (StatisticsBuilder._tag_stats b')
    ∧ List.map (fun item => Test.name (fst item)) (tagged_tests Sample.tree)
      = ["d1"; "a1"; "a2"; "b1"; "b2"]
    ∧ TestSuite.longname (last_entered Sample.tree) = "Root.B".
Proof.
  destruct sample_tags_seeded as (tags & Htags & Hseeded).
  destruct (build_feeds_every_test_to_the_tags [] tags 1 Sample.tree Hseeded
              ltac:(right; lia))
    as (root & b' & Hbuild & Hfed & _).
  exists tags, root, b'. split_and!; try done.
Defined.
End FeedSample.

(** ** The whole of [Statistics] *)

Lemma tally_any_passed (tests : list Test.t) :
  List.filter (fun t => any_test t && is_passed t) tests = List.filter is_passed tests.
Proof. by apply List.filter_ext. Qed.

Lemma tally_any_failed (tests : list Test.t) :
  List.filter (fun t => any_test t && is_failed t) tests = List.filter is_failed tests.
Proof. by apply List.filter_ext. Qed.

Section StatisticsTheorems.
Context {TP : Type} `{!TagPatternsOps TP} `{!NormalizeOps}.

(** X6: [Statistics(suite, level, ...)] with the depth limit [-1] or at
    least 1 succeeds for every suite tree and every tag configuration.
    Its [total] iterates as the stat named [Critical Tests] and then the
    stat named [All Tests]; they hold the passed and failed tests of the
    whole tree, the first one those with [critical == 'yes'] only, and
    are the counters of the root [SuiteStatistics], so [All Tests] is
    true as a truth value exactly when every test passed; the tag statistics
    are those of the traversal with the test lists sorted.  With any
    other depth limit the construction fails with the [IndexError] of
    [build]. *)
Theorem statistics_totals_of_the_tree
    (sort_tests : list Test.t → list Test.t) (suite : TestSuite.t) (level : Z)
    (include exclude : patterns_arg) (combine : list (string * option string))
    (docs : list (string * string)) (links : list (string * string * string)) :
  if (level =? -1) || (0 <? level) then
    ∃ (stats : Statistics.t TP) tags0 tags1 root,
      Statistics.init sort_tests suite level include exclude combine docs links
      = Some stats
      ∧ TotalStatistics.iter (Statistics.total stats)
        = [ Stat.mk "Critical Tests"
              (tally (fun t => is_marked_critical t && is_passed t) (all_tests suite))
              (tally (fun t => is_marked_critical t && is_failed t) (all_tests suite));
            Stat.mk "All Tests"
              (tally is_passed (all_tests suite)) (tally is_failed (all_tests suite)) ]
      ∧ Stat.total (TotalStatistics.all (Statistics.total stats))
        = Z.of_nat (length (all_tests suite))
      ∧ Stat.nonzero (TotalStatistics.all (Statistics.total stats))
        = forallb is_passed (all_tests suite)
      ∧ Statistics.store stats !! Statistics.suite stats = Some root
      ∧ SuiteStat.base (SuiteStatistics.all root)
        = Stat.mk (TestSuite.longname suite)
            (tally is_passed (all_tests suite)) (tally is_failed (all_tests suite))
      ∧ TagStatistics.init include exclude combine docs links = Some tags0
      ∧ add_tests (tagged_tests suite) tags0 = Some tags1
      ∧ Statistics.tags stats = Statistics.TagStatistics_sort sort_tests tags1
  else
    Statistics.init sort_tests suite level include exclude combine docs links = None.
Proof.
  destruct (tag_statistics_init_seeded include exclude combine docs links)
    as (tags0 & Hinit & Hseeded).
  unfold Statistics.init. rewrite Hinit. cbn.
  destruct ((level =? -1) || (0 <? level)) eqn:Hlevel.
  - assert (level = -1 ∨ 0 < level) as Hl.
    { apply orb_true_iff in Hlevel as [?%Z.eqb_eq|?%Z.ltb_lt]; [by left | by right]. }
    destruct (build_root [] tags0 level suite Hseeded Hl) as (b' & Hbuild & Htree).
    pose proof Hbuild as Hbuild'.
    unfold StatisticsBuilder.build in Hbuild'.
    destruct (StatisticsBuilder.visit_suite suite _) as [b2|] eqn:Hvisit; [|done].
    cbn in Hbuild'.
    destruct (StatisticsBuilder._current_suite_stat b2) as [current|]; [|done].
    cbn in Hbuild'.
    destruct (StatisticsBuilder.store b2 !! current) as [cur|]; [|done]. cbn in Hbuild'.
    destruct (SuiteStatistics.suites cur !! 0%nat) as [r|]; [|done]. cbn in Hbuild'.
    injection Hbuild' as _ <-.
    destruct (visit_suite_fed suite _ _ Hvisit) as (_ & Hfed). cbn in Hfed.
    rewrite Hbuild. cbn.
    destruct suite as [longname name id critical suites tests].
    set (suite := TestSuite.mk longname name id critical suites tests) in *.
    cbn [stats_tree] in Htree. apply holds_tree_unfold in Htree
      as [_ (self & Hself & Hall & Hcrit & _)].
    cbn [length] in Hself. rewrite Hself. cbn.
    eexists _, tags0, (StatisticsBuilder._tag_stats b2), self. split; [done|].
    cbn [Statistics.total Statistics.store Statistics.suite Statistics.tags].
    unfold TotalStatistics.init, TotalStatistics.iter, TotalStat.init.
    cbn [TotalStatistics.critical TotalStatistics.all Stat.init Stat.name Stat.passed
           Stat.failed].
    rewrite Hall, Hcrit. unfold SuiteStat_of, SuiteStat.passed, SuiteStat.failed, Stat.total.
    cbn [SuiteStat.base Stat.passed Stat.failed].
    rewrite !count_tests_all_tests, tally_any_passed, tally_any_failed.
    fold (tally is_passed (all_tests suite)) (tally is_failed (all_tests suite)).
    split_and!; try done.
    + apply tally_split.
    + apply tally_failed_none.
  - assert (level ≠ -1 ∧ level ≤ 0) as [Hne Hle].
    { apply orb_false_iff in Hlevel as [?%Z.eqb_neq ?%Z.ltb_ge]. done. }
    by rewrite (build_no_root [] tags0 level suite Hseeded Hne Hle).
Qed.
End StatisticsTheorems.

(** ** The entries of the tag statistics *)

Lemma tallied_init (name doc : string) (links : list (string * string))
    (critical non_critical : bool) (combined : string) :
  tallied (TagStat.init name doc links critical non_critical combined).
Proof. by split. Qed.

Lemma tallied_add_test (stat : TagStat.t) (test : Test.t) :
  tallied stat → tallied (TagStat.add_test stat test).
Proof.
  unfold tallied, TagStat.passed, TagStat.failed. intros [Hp Hf].
  cbn [TagStat.add_test TagStat.base TagStat.tests].
  destruct (Stat_add_test_counters (TagStat.base stat) test) as (Hp1 & Hf1 & _).
  rewrite Hp1, Hf1, Hp, Hf, !tally_snoc. split; reflexivity.
Qed.

Section EntryFacts.
Context {TP : Type} `{!TagPatternsOps TP} `{!NormalizeOps}.
Implicit Types (self : TagStatistics.t TP) (test : Test.t).

Lemma entry_ok_add_test key (stat : TagStat.t) test :
  entry_ok key stat → entry_ok key (TagStat.add_test stat test).
Proof.
  intros [Ht Hk]. split; [by apply tallied_add_test|].
  unfold TagStat.name in *. cbn [TagStat.add_test TagStat.base].
  by rewrite (proj2 (proj2 (Stat_add_test_counters _ _))).
Qed.

Lemma add_tag_statistics_ok self test critical tag :
  map_Forall entry_ok (TagStatistics.stats self) →
  map_Forall entry_ok
    (TagStatistics.stats (TagStatistics._add_tag_statistics self test critical tag)).
Proof.
  intros Hok. unfold TagStatistics._add_tag_statistics.
  destruct (TagStatistics._is_included self tag); cbn; [|done].
  apply map_Forall_insert_2; [|done].
  apply entry_ok_add_test.
  destruct (TagStatistics.stats self !! normalize tag) as [stat|] eqn:Hstat.
  - by apply (Hok _ _ Hstat).
  - split; [apply tallied_init | done].
Qed.

Lemma add_tags_statistics_ok self test critical :
  map_Forall entry_ok (TagStatistics.stats self) →
  map_Forall entry_ok
    (TagStatistics.stats (TagStatistics._add_tags_statistics self test critical)).
Proof.
  unfold TagStatistics._add_tags_statistics.
  generalize (Test.tags test) as tags. intros tags. revert self.
  induction tags as [|tag tags IH]; intros self Hok; [done|].
  cbn [fold_left]. apply IH. by apply add_tag_statistics_ok.
Qed.

Lemma add_combined_loop_ok combines test (stats stats' : gmap string TagStat.t) :
  TagStatistics._add_combined_loop combines test stats = Some stats' →
  map_Forall entry_ok stats → map_Forall entry_ok stats'.
Proof.
  revert stats. induction combines as [|comb combines IH]; intros stats Hloop Hok.
  - cbn in Hloop. by injection Hloop as <-.
  - cbn [TagStatistics._add_combined_loop] in Hloop.
    destruct (CombinedTag.match_ comb (Test.tags test)); [|by eapply IH].
    destruct (stats !! normalize (CombinedTag.name comb)) as [stat|] eqn:Hstat; [|done].
    cbn in Hloop. eapply IH; [exact Hloop|].
    apply map_Forall_insert_2; [|done].
    apply entry_ok_add_test. by apply (Hok _ _ Hstat).
Qed.

Lemma add_test_ok self test critical self' :
  TagStatistics.add_test self test critical = Some self' →
  map_Forall entry_ok (TagStatistics.stats self) →
  map_Forall entry_ok (TagStatistics.stats self').
Proof.
  unfold TagStatistics.add_test, TagStatistics._add_combined_statistics.
  intros Hadd Hok.
  destruct (TagStatistics._add_combined_loop _ test _) as [stats'|] eqn:Hloop; [|done].
  cbn in Hadd. injection Hadd as <-. cbn.
  eapply add_combined_loop_ok; [exact Hloop|]. by apply add_tags_statistics_ok.
Qed.

Lemma create_combined_loop_ok info combines (stats : gmap string TagStat.t) :
  map_Forall entry_ok stats →
  map_Forall entry_ok (TagStatistics._create_combined_loop info combines stats).
Proof.
  revert stats. induction combines as [|comb combines IH]; intros stats Hok; [done|].
  cbn. apply IH. apply map_Forall_insert_2; [|done].
  split; [apply tallied_init | done].
Qed.

Lemma add_tests_seeded (items : list (Test.t * Criticality)) self :
  seeded self →
  map_Forall entry_ok (TagStatistics.stats self) →
  ∃ self',
    add_tests items self = Some self' ∧ seeded self'
    ∧ map_Forall entry_ok (TagStatistics.stats self').
Proof.
  revert self. induction items as [|[test critical] items IH]; intros self Hseeded Hok.
  - by exists self.
  - destruct (add_test_seeded self test critical Hseeded) as (self1 & Hadd & Hseeded1).
    cbn [add_tests]. rewrite Hadd. cbn.
    apply IH; [done|]. by eapply add_test_ok.
Qed.

(** X7: whatever the configuration and whatever tests are counted, every
    entry of the tag statistics keeps its counters in step with its list
    of tests ([passed] is the number of tests with status [PASS] in
    [tests], [failed] the number of the others, so [total] is the length
    of the list), and every entry is filed under the normalised form of
    its own name; counting never fails. *)
Theorem tag_entries_count_their_own_tests
    (include exclude : patterns_arg) (combine : list (string * option string))
    (docs : list (string * string)) (links : list (string * string * string))
    (items : list (Test.t * Criticality)) :
  ∃ tags0 tags' : TagStatistics.t TP,
    TagStatistics.init include exclude combine docs links = Some tags0
    ∧ add_tests items tags0 = Some tags'
    ∧ ∀ key stat,
        TagStatistics.stats tags' !! key = Some stat →
        TagStat.passed stat = tally is_passed (TagStat.tests stat)
        ∧ TagStat.failed stat = tally is_failed (TagStat.tests stat)
        ∧ TagStat.total stat = Z.of_nat (length (TagStat.tests stat))
        ∧ key = normalize (TagStat.name stat).
Proof.
  destruct (tag_statistics_init_seeded include exclude combine docs links)
    as (tags0 & Hinit & Hseeded).
  assert (map_Forall entry_ok (TagStatistics.stats tags0)) as Hok0.
  { unfold TagStatistics.init in Hinit.
    destruct (TagStatInfo.init docs links) as [info|]; [|done].
    cbn in Hinit. injection Hinit as <-. cbn.
    apply create_combined_loop_ok, map_Forall_empty. }
  destruct (add_tests_seeded items tags0 Hseeded Hok0) as (tags' & Hadd & _ & Hok).
  exists tags0, tags'. split; [done|]. split; [done|].
  intros key stat Hstat. destruct (Hok _ _ Hstat) as [[Hp Hf] Hkey].
  split_and!; try done.
  unfold TagStat.total, Stat.total. unfold TagStat.passed, TagStat.failed in Hp, Hf.
  rewrite Hp, Hf. apply tally_split.
Qed.

(** X8: a literal tag is left out exactly when the exclude patterns match
    it or the include patterns are not empty and do not match it; a test
    whose tags are all left out changes nothing in the literal tag
    statistics: no entry is created and none is counted into. *)
Theorem left_out_tags_leave_no_trace self test (critical : Criticality) :
  (∀ tag,
     TagStatistics._is_included self tag = false
     ↔ TagPatterns_match_tag (TagStatistics._exclude self) tag = true
       ∨ (TagPatterns_nonzero (TagStatistics._include self) = true
          ∧ TagPatterns_match_tag (TagStatistics._include self) tag = false))
  ∧ (Forall (fun tag => TagStatistics._is_included self tag = false) (Test.tags test) →
     TagStatistics._add_tags_statistics self test critical = self).
Proof.
  split.
  - intros tag. unfold TagStatistics._is_included.
    destruct (TagPatterns_nonzero _), (TagPatterns_match_tag (TagStatistics._include self) tag),
      (TagPatterns_match_tag (TagStatistics._exclude self) tag); cbn; split;
      try done; try tauto; intros [?|[? ?]]; done.
  - unfold TagStatistics._add_tags_statistics.
    induction 1 as [|tag tags Htag _ IH]; [done|].
    cbn [fold_left]. unfold TagStatistics._add_tag_statistics at 2.
    rewrite Htag. cbn. exact IH.
Qed.

Lemma add_tags_fold_fields tags self test critical :
  let self' :=
    fold_left (fun self tag => TagStatistics._add_tag_statistics self test critical tag)
      tags self in
  TagStatistics._include self' = TagStatistics._include self
  ∧ TagStatistics._exclude self' = TagStatistics._exclude self
  ∧ TagStatistics._info self' = TagStatistics._info self
  ∧ TagStatistics._combine self' = TagStatistics._combine self.
Proof.
  revert self. induction tags as [|tag tags IH]; intros self; [done|].
  cbn [fold_left].
  destruct (add_tag_statistics_fields self test critical tag) as (Hi & He & Hf & Hc).
  cbn zeta in *.
  destruct (IH (TagStatistics._add_tag_statistics self test critical tag))
    as (Hi' & He' & Hf' & Hc').
  by rewrite Hi', He', Hf', Hc'.
Qed.

Lemma add_tags_statistics_fresh tags self test critical key :
  TagStatistics.stats self !! key = None →
  TagStatistics.stats
    (fold_left (fun self tag => TagStatistics._add_tag_statistics self test critical tag)
       tags self) !! key
  = (fun tag =>
       add_test_times
         (length
            (List.filter
               (fun tag => TagStatistics._is_included self tag
                           && String.eqb (normalize tag) key) tags))
         test
         (TagStat.init tag (TagStatInfo.get_doc (TagStatistics._info self) tag)
            (TagStatInfo.get_links (TagStatistics._info self) tag)
            (is_critical critical tag) (is_non_critical critical tag) ""))
    <$> head
          (List.filter
             (fun tag => TagStatistics._is_included self tag
                         && String.eqb (normalize tag) key) tags).
Proof.
  revert self. induction tags as [|tag tags IH]; intros self Hkey; [exact Hkey|].
  cbn [fold_left List.filter].
  destruct (add_tag_statistics_fields self test critical tag) as (Hi & He & Hf & Hc).
  cbn zeta in *.
  set (self1 := TagStatistics._add_tag_statistics self test critical tag) in *.
  assert (∀ tag0, TagStatistics._is_included self1 tag0
                  = TagStatistics._is_included self tag0) as Hincl.
  { intros tag0. by apply is_included_fields. }
  destruct (TagStatistics._is_included self tag && String.eqb (normalize tag) key)
    eqn:Hhit.
  - apply andb_true_iff in Hhit as [Hin Heq]. apply String.eqb_eq in Heq.
    assert (TagStatistics.stats self1 !! key
            = Some (TagStat.add_test
                      (TagStat.init tag (TagStatInfo.get_doc (TagStatistics._info self) tag)
                         (TagStatInfo.get_links (TagStatistics._info self) tag)
                         (is_critical critical tag) (is_non_critical critical tag) "")
                      test)) as Hnew.
    { unfold self1, TagStatistics._add_tag_statistics. rewrite Hin. cbn.
      rewrite Heq, Hkey. by rewrite lookup_insert_eq. }
    destruct (add_tags_statistics_fold tags self1 test critical key _ Hnew) as [Hl _].
    rewrite Hl. cbn [head fmap option_fmap option_map length].
    rewrite add_test_times_S. f_equal. f_equal. f_equal. f_equal.
    apply List.filter_ext. intros tag0. by rewrite Hincl.
  - assert (TagStatistics.stats self1 !! key = None) as Hnone.
    { unfold self1, TagStatistics._add_tag_statistics.
      destruct (TagStatistics._is_included self tag); cbn; [|done].
      cbn in Hhit. apply String.eqb_neq in Hhit. by rewrite lookup_insert_ne. }
    rewrite (IH self1 Hnone), Hf.
    erewrite (List.filter_ext (fun tag0 => TagStatistics._is_included self1 tag0
                                      && String.eqb (normalize tag0) key)).
    2:{ intros tag0. by rewrite Hincl. }
    done.
Qed.

Lemma add_combined_loop_absent combines test (stats stats' : gmap string TagStat.t) key :
  TagStatistics._add_combined_loop combines test stats = Some stats' →
  stats !! key = None → stats' !! key = None.
Proof.
  revert stats. induction combines as [|comb combines IH]; intros stats Hloop Hkey.
  - cbn in Hloop. by injection Hloop as <-.
  - cbn [TagStatistics._add_combined_loop] in Hloop.
    destruct (CombinedTag.match_ comb (Test.tags test)); [|by eapply IH].
    destruct (stats !! normalize (CombinedTag.name comb)) as [stat|] eqn:Hstat; [|done].
    cbn in Hloop. eapply IH; [exact Hloop|].
    rewrite lookup_insert_ne; [done|]. intros Heq. rewrite Heq in Hstat. congruence.
Qed.

Lemma combined_hits_absent self test key :
  seeded self → TagStatistics.stats self !! key = None →
  combined_hits (TagStatistics._combine self) test key = 0%nat.
Proof.
  unfold seeded, combined_hits. intros Hseeded Hkey.
  induction Hseeded as [|comb combines [stat Hstat] _ IH]; [done|].
  cbn [List.filter].
  destruct (String.eqb_spec (normalize (CombinedTag.name comb)) key) as [Heq|_].
  - congruence.
  - by rewrite andb_false_r.
Qed.

(** A key without an entry: it gets one when a tag of the test passes
    the filters and is filed there, named after the first such tag. *)
Lemma add_test_fresh_key self test (critical : Criticality) self' key :
  seeded self →
  TagStatistics.add_test self test critical = Some self' →
  TagStatistics.stats self !! key = None →
  TagStatistics.stats self' !! key
  = (fun tag =>
       add_test_times (literal_hits self test key) test
         (TagStat.init tag
            (TagStatInfo.get_doc (TagStatistics._info self) tag)
            (TagStatInfo.get_links (TagStatistics._info self) tag)
            (is_critical critical tag) (is_non_critical critical tag) ""))
    <$> first_spelling self test key.
Proof.
  intros Hseeded Hadd Hkey.
  unfold TagStatistics.add_test, TagStatistics._add_combined_statistics,
    TagStatistics._add_tags_statistics in Hadd.
  set (self1 := fold_left _ _ _) in Hadd.
  destruct (TagStatistics._add_combined_loop _ test _) as [stats'|] eqn:Hloop; [|done].
  cbn in Hadd. injection Hadd as <-. cbn [TagStatistics.stats TagStatistics.set_stats].
  pose proof (add_tags_statistics_fresh (Test.tags test) self test critical key Hkey)
    as Hfresh.
  fold self1 in Hfresh. unfold first_spelling, literal_hits.
  destruct (head _) as [tag|] eqn:Hhead; cbn in Hfresh |- *.
  - destruct (add_tags_fold_fields (Test.tags test) self test critical)
      as (_ & _ & _ & Hc).
    cbn zeta in Hc. fold self1 in Hc.
    destruct (add_combined_loop_lookup (TagStatistics._combine self1) test
                (TagStatistics.stats self1)) as (stats'' & Hloop' & Hlook').
    { rewrite Hc. eapply Forall_impl; [exact Hseeded|]. intros c [x Hx].
      destruct (add_tags_statistics_fold (Test.tags test) self test critical _ _ Hx)
        as [Hl _].
      fold self1 in Hl. rewrite Hl. eauto. }
    rewrite Hloop in Hloop'. injection Hloop' as <-.
    rewrite (Hlook' _ _ Hfresh), Hc, (combined_hits_absent self test key Hseeded Hkey).
    done.
  - by eapply add_combined_loop_absent.
Qed.

(** X9: what one [add_test] does to every key of seeded tag statistics.
    An entry that exists is counted into once for every tag of the test
    that passes the filters and is filed under its key, and once for
    every matching combined tag filed there; it keeps its name,
    documentation, links and markers.  A key without an entry gets one
    only if such a tag exists: the entry is named after the first of
    these tags as it is spelled, with that tag's documentation, links and
    criticality, and is counted into once per such tag, so a tag written
    twice on a test counts the test twice. *)
Theorem add_test_on_every_key self test (critical : Criticality) :
  seeded self →
  ∃ self',
    TagStatistics.add_test self test critical = Some self'
    ∧ ∀ key,
        TagStatistics.stats self' !! key
        = match TagStatistics.stats self !! key with
          | Some before =>
              Some (add_test_times
                      (literal_hits self test key
                       + combined_hits (TagStatistics._combine self) test key)
                      test before)
          | None =>
              (fun tag =>
                 add_test_times (literal_hits self test key) test
                   (TagStat.init tag
                      (TagStatInfo.get_doc (TagStatistics._info self) tag)
                      (TagStatInfo.get_links (TagStatistics._info self) tag)
                      (is_critical critical tag) (is_non_critical critical tag) ""))
              <$> first_spelling self test key
          end.
Proof.
  intros Hseeded.
  destruct (add_test_lookup self test critical Hseeded)
    as (self' & Hadd & _ & _ & _ & _ & Hlook).
  exists self'. split; [done|]. intros key.
  destruct (TagStatistics.stats self !! key) as [before|] eqn:Hkey.
  - by apply Hlook.
  - by apply add_test_fresh_key.
Qed.
End EntryFacts.

Section EntrySample.
#[local] Existing Instance Sample.exact_patterns.
#[local] Existing Instance Sample.normal_keys.

Lemma left_out_tags_leave_no_trace_witness :
  ∃ tags,
    Sample.tag_stats = Some tags
    ∧ TagStatistics._add_tags_statistics tags
        (Sample.test "b1" "PASS" "no" ["smoke"; "slow"]) Sample.no_criticality
      = tags.
Proof.
  destruct sample_tags_seeded as (tags & Htags & _).
  exists tags. split; [done|].
  apply left_out_tags_leave_no_trace.
  vm_compute in Htags. injection Htags as <-.
  repeat constructor.
Defined.

Lemma add_test_on_every_key_witness :
  ∃ tags tags',
    TagStatistics.init PNone (PStr "slow") [] [] [] = Some tags
    ∧ TagStatistics.add_test tags
        (Sample.test "t" "FAIL" "no" ["Smoke_Test"; "slow"; "smoke test"])
        Sample.no_criticality
      = Some tags'
    ∧ (TagStat.name <$> TagStatistics.stats tags' !! "smoketest") = Some "Smoke_Test"
    ∧ (TagStat.total <$> TagStatistics.stats tags' !! "smoketest") = Some 2
    ∧ TagStatistics.stats tags' !! "slow" = None.
Proof.
  destruct (tag_statistics_init_seeded (TP := list string) PNone (PStr "slow") [] [] [])
    as (tags & Hinit & Hseeded).
  destruct (add_test_on_every_key tags
              (Sample.test "t" "FAIL" "no" ["Smoke_Test"; "slow"; "smoke test"])
              Sample.no_criticality Hseeded) as (tags' & Hadd & Hkeys).
  exists tags, tags'. split; [done|]. split; [done|].
  rewrite !Hkeys.
  vm_compute in Hinit. injection Hinit as <-.
  split_and!; vm_compute; reflexivity.
Defined.
End EntrySample.

(** ** Fresh tag statistics *)

Section FreshFacts.
Context {TP : Type} `{!TagPatternsOps TP} `{!NormalizeOps}.

Lemma create_combined_loop_entries (info : TagStatInfo.t TP)
    (combines : list (CombinedTag.t TP)) (stats : gmap string TagStat.t)
    (key : string) (stat : TagStat.t) :
  TagStatistics._create_combined_loop info combines stats !! key = Some stat →
  stats !! key = Some stat
  ∨ ∃ comb,
      comb ∈ combines
      ∧ key = normalize (CombinedTag.name comb)
      ∧ stat = TagStat.init (CombinedTag.name comb)
                 (TagStatInfo.get_doc info (CombinedTag.name comb))
                 (TagStatInfo.get_links info (CombinedTag.name comb)) false false
                 (CombinedTag.pattern comb).
Proof.
  revert stats. induction combines as [|comb combines IH]; intros stats; [by left|].
  cbn [TagStatistics._create_combined_loop]. intros Hlook.
  destruct (IH _ Hlook) as [Hhere | (c & Hc & Hkey & Hstat)].
  - destruct (decide (normalize (CombinedTag.name comb) = key)) as [Heq|Hne].
    + rewrite Heq, lookup_insert_eq in Hhere. injection Hhere as <-.
      right. exists comb. split; [by left | done].
    + rewrite lookup_insert_ne in Hhere by done. by left.
  - right. exists c. split; [by right | done].
Qed.

(** X10: fresh tag statistics hold the combined tags and nothing else.
    Every combined-tag definition has an entry from the start, so a
    combined tag is reported also when no test matches it; an entry is
    named after the definition's name, or after its pattern when the name
    is missing or empty, carries the pattern as [combined] and the
    documentation and links of that name, is neither critical nor
    non-critical, and has counted no test. *)
Theorem fresh_statistics_hold_the_combined_tags
    (include exclude : patterns_arg) (combine : list (string * option string))
    (docs : list (string * string)) (links : list (string * string * string)) :
  ∃ tags : TagStatistics.t TP,
    TagStatistics.init include exclude combine docs links = Some tags
    ∧ (∀ pattern name,
         (pattern, name) ∈ combine →
         is_Some (TagStatistics.stats tags
                    !! normalize (CombinedTag.name (CombinedTag.init (TP := TP) pattern name))))
    ∧ (∀ key stat,
         TagStatistics.stats tags !! key = Some stat →
         ∃ pattern name,
           (pattern, name) ∈ combine
           ∧ TagStat.name stat = CombinedTag.name (CombinedTag.init (TP := TP) pattern name)
           ∧ key = normalize (TagStat.name stat)
           ∧ stat = TagStat.init (TagStat.name stat)
                      (TagStatInfo.get_doc (TagStatistics._info tags) (TagStat.name stat))
                      (TagStatInfo.get_links (TagStatistics._info tags) (TagStat.name stat))
                      false false pattern
           ∧ TagStat.total stat = 0 ∧ TagStat.tests stat = [])
    ∧ (∀ pattern name,
         CombinedTag.name (CombinedTag.init (TP := TP) pattern name)
         = match name with
           | Some (String c rest) => String c rest
           | _ => pattern
           end).
Proof.
  destruct (tag_statistics_init_seeded include exclude combine docs links)
    as (tags & Hinit & Hseeded).
  exists tags. split; [done|].
  unfold TagStatistics.init in Hinit.
  destruct (TagStatInfo.init docs links) as [info|]; [|done].
  cbn in Hinit. injection Hinit as <-.
  cbn [TagStatistics.stats TagStatistics._info]. split; [|split].
  - intros pattern name Hin.
    unfold seeded in Hseeded. cbn [TagStatistics.stats TagStatistics._combine] in Hseeded.
    rewrite Forall_forall in Hseeded. apply Hseeded.
    apply list_elem_of_In, in_map_iff. exists (pattern, name).
    split; [done | by apply list_elem_of_In].
  - intros key stat Hstat.
    apply create_combined_loop_entries in Hstat
      as [Hempty | (comb & Hcomb & Hkey & Hinit)]; [by rewrite lookup_empty in Hempty|].
    apply list_elem_of_In, in_map_iff in Hcomb as ([pattern name] & <- & Hin).
    exists pattern, name. cbn [fst snd] in *.
    split; [by apply list_elem_of_In|].
    rewrite Hinit. by split_and!.
  - intros pattern [[|c rest]|]; reflexivity.
Qed.
End FreshFacts.

(** ** The info of a tag and the order of iteration *)

Lemma info_rank_bucket (stat : TagStat.t) :
  info_rank (TagStat._info stat) = bucket stat.
Proof.
  unfold info_rank, TagStat._info, bucket.
  by destruct (TagStat.critical stat), (TagStat.non_critical stat),
    (str_bool (TagStat.combined stat)).
Qed.

Section InfoOrder.
Context {TP : Type} `{!TagPatternsOps TP} `{!NormalizeOps}.

(** X11: [TagStat._info] answers [critical] for a critical tag whatever
    its other markers are, else [non-critical], else [combined], else
    the empty text; and iterating [TagStatistics] yields the tags grouped
    by that answer, in this order, for every collection of tags. *)
Theorem iter_groups_tags_by_info (self : TagStatistics.t TP) :
  (∀ stat,
     TagStat._info stat
     = if TagStat.critical stat then "critical"
       else if TagStat.non_critical stat then "non-critical"
       else match TagStat.combined stat with
            | EmptyString => ""
            | String _ _ => "combined"
            end)
  ∧ StronglySorted
      (fun a b => (info_rank (TagStat._info a) ≤ info_rank (TagStat._info b))%nat)
      (TagStatistics.iter self).
Proof.
  split.
  - intros stat. unfold TagStat._info.
    by destruct (TagStat.critical stat), (TagStat.non_critical stat), (TagStat.combined stat).
  - eapply StronglySorted_weaken; [|apply iter_sorted_cmp].
    intros a b _ _ Hab. apply TagStat_cmp_le in Hab.
    rewrite !info_rank_bucket. apply rank_bucket. lia.
Qed.
End InfoOrder.

(** ** The documentation and the links of a tag, rule by rule *)

Lemma join_sep_app (sep : string) (xs ys : list string) :
  TagStatInfo.join_sep sep (xs ++ ys)
  = match xs, ys with
    | [], _ => TagStatInfo.join_sep sep ys
    | _, [] => TagStatInfo.join_sep sep xs
    | _, _ => TagStatInfo.join_sep sep xs +:+ sep +:+ TagStatInfo.join_sep sep ys
    end.
Proof.
  induction xs as [|x xs IH]; [done|].
  destruct ys as [|y ys]; [by rewrite app_nil_r|].
  destruct xs as [|x' xs]; [done|].
  change (TagStatInfo.join_sep sep ((x :: x' :: xs) ++ y :: ys))
    with (x +:+ sep +:+ TagStatInfo.join_sep sep ((x' :: xs) ++ y :: ys)).
  rewrite IH.
  change (TagStatInfo.join_sep sep (x :: x' :: xs))
    with (x +:+ sep +:+ TagStatInfo.join_sep sep (x' :: xs)).
  by rewrite !string_app_assoc.
Qed.

Section DocsAndLinks.
Context {TP : Type} `{!TagPatternsOps TP}.

(** X12: [get_doc] joins with [" & "] the texts of the documentation
    rules that match the tag, in rule order: nothing for a tag that no
    rule matches, the text alone when one rule matches, and for two lists
    of rules one after the other the two results with one [" & "]
    between them when both have a match. *)
Theorem get_doc_joins_matching_rules
    (docs docs' : list (TagStatDoc.t TP)) (links : list TagStatLink.t)
    (doc : TagStatDoc.t TP) (tag : string) :
  let matching l := List.filter (fun d => TagStatDoc.matches d tag) l in
  (matching docs = [] → TagStatInfo.get_doc (TagStatInfo.mk docs links) tag = "")
  ∧ (matching docs = [doc] →
     TagStatInfo.get_doc (TagStatInfo.mk docs links) tag = TagStatDoc.text doc)
  ∧ TagStatInfo.get_doc (TagStatInfo.mk (docs ++ docs') links) tag
    = match matching docs, matching docs' with
      | [], _ => TagStatInfo.get_doc (TagStatInfo.mk docs' links) tag
      | _, [] => TagStatInfo.get_doc (TagStatInfo.mk docs links) tag
      | _, _ =>
          TagStatInfo.get_doc (TagStatInfo.mk docs links) tag
          +:+ " & " +:+ TagStatInfo.get_doc (TagStatInfo.mk docs' links) tag
      end.
Proof.
  intros matching. unfold TagStatInfo.get_doc. cbn [TagStatInfo._docs].
  fold (matching docs) (matching docs') (matching (docs ++ docs')).
  split; [by intros ->|]. split; [by intros ->|].
  unfold matching at 1. rewrite List.filter_app, List.map_app, join_sep_app.
  fold (matching docs) (matching docs').
  by destruct (matching docs), (matching docs').
Qed.

(** X13: [get_links] returns exactly one pair for every link rule that
    matches the tag, in rule order: the [get_link] of a rule that
    [matches] is never [None], so the list holds no [None] and is as long
    as the list of matching rules. *)
Theorem get_links_one_pair_per_matching_rule (info : TagStatInfo.t TP) (tag : string) :
  (∀ link : TagStatLink.t,
     TagStatLink.matches link tag = true ↔ is_Some (TagStatLink.get_link link tag))
  ∧ Some <$> TagStatInfo.get_links info tag
    = List.map (fun link => TagStatLink.get_link link tag)
        (List.filter (fun link => TagStatLink.matches link tag) (TagStatInfo._links info))
  ∧ length (TagStatInfo.get_links info tag)
    = length (List.filter (fun link => TagStatLink.matches link tag)
                (TagStatInfo._links info)).
Proof.
  split.
  { intros link. rewrite matches_get_link.
    destruct (TagStatLink.get_link link tag); split; intros Hx;
      try done; try (by eexists); by destruct Hx. }
  unfold TagStatInfo.get_links.
  induction (TagStatInfo._links info) as [|link ls [IH1 IH2]]; [done|].
  cbn [List.filter]. rewrite matches_get_link.
  destruct (TagStatLink.get_link link tag) as [r|] eqn:Hlink; [|done].
  cbn [flat_map List.map app length fmap list_fmap]. rewrite Hlink. cbn [app length].
  split; [|by rewrite IH2].
  rewrite fmap_cons. f_equal. exact IH1.
Qed.
End DocsAndLinks.

(** ** Matching without regard to case *)

Lemma lower_newline (c : ascii) :
  Ascii.eqb (re.lower c) re.newline = Ascii.eqb c re.newline.
Proof. by destruct c as [[] [] [] [] [] [] [] []]. Qed.

Lemma newline_case (c c' : ascii) :
  re.lower c = re.lower c' → Ascii.eqb c re.newline = Ascii.eqb c' re.newline.
Proof. intros Hc. by rewrite <- (lower_newline c), Hc, lower_newline. Qed.

Lemma fold_case_length (s s' : string) :
  fold_case s = fold_case s' → String.length s = String.length s'.
Proof.
  revert s'. induction s as [|c s IH]; intros [|c' s'] Hs; try done.
  cbn in Hs. injection Hs as _ Hs. cbn. by rewrite (IH s').
Qed.

Lemma found_or_else {R} (o o' : option R) :
  found (match o with Some r => Some r | None => o' end) = found o || found o'.
Proof. by destruct o. Qed.

Lemma at_end_case (s s' : string) :
  fold_case s = fold_case s' →
  String.eqb s "" || String.eqb s (String re.newline "")
  = String.eqb s' "" || String.eqb s' (String re.newline "").
Proof.
  destruct s as [|c [|d s]], s' as [|c' [|d' s']]; cbn [fold_case]; try done.
  all: intros [= Hc]; cbn [String.eqb orb]; rewrite (newline_case c c' Hc); try done.
  all: by destruct (Ascii.eqb c' re.newline).
Qed.

Lemma star_any_case {R R'} (s s' : string) (k : string → option R)
    (k' : string → option R') :
  fold_case s = fold_case s' →
  (∀ r r', fold_case r = fold_case r' → found (k r) = found (k' r')) →
  found (re.star_any s k) = found (re.star_any s' k').
Proof.
  revert s'. induction s as [|c s IH]; intros [|c' s'] Hs Hk; try done.
  - cbn. by apply Hk.
  - cbn [re.star_any]. pose proof Hs as Hs0. cbn in Hs. injection Hs as Hc Hs.
    rewrite (newline_case c c' Hc).
    destruct (Ascii.eqb c' re.newline); [by apply Hk|].
    rewrite !found_or_else, (IH s' Hs Hk). f_equal. by apply Hk.
Qed.

Lemma match_atoms_case {R R'} (l : list re.atom) (s s' : string)
    (k : string → option R) (k' : string → option R') :
  fold_case s = fold_case s' →
  (∀ r r', fold_case r = fold_case r' → found (k r) = found (k' r')) →
  found (re.match_atoms true l s k) = found (re.match_atoms true l s' k').
Proof.
  revert s s' k k'. induction l as [|a l IH]; intros s s' k k' Hs Hk;
    cbn [re.match_atoms]; [by apply Hk|].
  destruct a as [c| |].
  - destruct s as [|d s], s' as [|d' s']; try done.
    cbn in Hs. injection Hs as Hd Hs. unfold re.char_eq. rewrite Hd.
    destruct (Ascii.eqb _ _); [by apply IH | done].
  - destruct s as [|d s], s' as [|d' s']; try done.
    cbn in Hs. injection Hs as Hd Hs. rewrite (newline_case d d' Hd).
    destruct (Ascii.eqb _ _); [done | by apply IH].
  - apply star_any_case; [done|]. intros r r' Hr. by apply IH.
Qed.

Lemma match_nodes_case (subject subject' : string) (l : list re.node) (s s' : string)
    (groups groups' : list string) :
  String.length subject = String.length subject' →
  fold_case s = fold_case s' →
  found (re.match_nodes true subject l s groups)
  = found (re.match_nodes true subject' l s' groups').
Proof.
  intros Hsubject. revert s s' groups groups'.
  induction l as [|n l IH]; intros s s' groups groups' Hs; cbn [re.match_nodes]; [done|].
  destruct n as [a|body| |].
  - apply match_atoms_case; [done|]. intros r r' Hr. by apply IH.
  - apply match_atoms_case; [done|]. intros r r' Hr. by apply IH.
  - rewrite (fold_case_length s s' Hs), Hsubject.
    destruct (_ =? _)%nat; [by apply IH | done].
  - rewrite (at_end_case s s' Hs).
    destruct (_ || _); [by apply IH | done].
Qed.

Lemma matches_found (link : TagStatLink.t) (tag : string) :
  TagStatLink.matches link tag = found (re.match_ (TagStatLink._regexp link) tag).
Proof. unfold TagStatLink.matches. by destruct (re.match_ _ tag). Qed.

(** X14: a link rule matches a tag without regard to the case of its
    ASCII letters: two tags that differ only in the case of such letters
    are matched by the same rules, whatever the pattern is. *)
Theorem link_rules_ignore_the_case_of_a_tag
    (pattern link title tag tag' : string) :
  fold_case tag = fold_case tag' →
  ∃ rule,
    TagStatLink.init pattern link title = Some rule
    ∧ TagStatLink.matches rule tag = TagStatLink.matches rule tag'.
Proof.
  intros Hcase. unfold TagStatLink.init. rewrite get_match_regexp_compiles. cbn.
  eexists. split; [done|]. rewrite !matches_found.
  cbn [TagStatLink._regexp]. unfold re.match_. cbn [re.ignorecase re.nodes].
  apply match_nodes_case; [by apply fold_case_length | done].
Qed.

Lemma link_rules_ignore_the_case_of_a_tag_witness :
  ∃ rule,
    TagStatLink.init "Bug-*" "http://x/%1" "Bug_%1" = Some rule
    ∧ TagStatLink.matches rule "bug-12" = TagStatLink.matches rule "BUG-12"
    ∧ TagStatLink.matches rule "BUG-12" = true.
Proof.
  destruct (link_rules_ignore_the_case_of_a_tag "Bug-*" "http://x/%1" "Bug_%1"
              "bug-12" "BUG-12" eq_refl) as (rule & Hinit & Hsame).
  exists rule. split; [done|]. split; [done|].
  vm_compute in Hinit. injection Hinit as <-. reflexivity.
Defined.

(** ** Rules without wildcards *)

Lemma no_wildcard_wildcards (pattern : string) :
  no_wildcard pattern = true → wildcards pattern = [].
Proof.
  unfold wildcards. induction pattern as [|c pattern IH]; [done|].
  cbn [no_wildcard wildcards_from].
  intros [Hc Hrest]%andb_true_iff. apply negb_true_iff, orb_false_iff in Hc as [Hstar Hmark].
  rewrite Hmark, Hstar. cbn. by apply IH.
Qed.

Lemma fold_case_empty (s : string) :
  String.eqb (fold_case s) "" = String.eqb s "".
Proof. by destruct s. Qed.

Lemma fold_case_newline (s : string) :
  String.eqb (fold_case s) (String re.newline "") = String.eqb s (String re.newline "").
Proof.
  destruct s as [|c [|d s]]; cbn [fold_case String.eqb]; by rewrite ?lower_newline.
Qed.

Lemma literal_match (pattern : string) :
  no_wildcard pattern = true →
  ∀ subject s groups,
    found (re.match_nodes true subject (pattern_nodes pattern ++ [re.Eol]) s groups)
    = String.eqb (fold_case s) (fold_case pattern)
      || String.eqb (fold_case s) (fold_case pattern +:+ String re.newline "").
Proof.
  unfold pattern_nodes. induction pattern as [|c pattern IH]; intros Hp subject s groups.
  - cbn [pattern_nodes_from flush_group app re.match_nodes fold_case].
    rewrite string_app_nil_l, fold_case_empty, fold_case_newline.
    by destruct (_ || _).
  - cbn [no_wildcard] in Hp. apply andb_true_iff in Hp as [Hc Hrest].
    apply negb_true_iff, orb_false_iff in Hc as [Hstar Hmark].
    cbn [pattern_nodes_from]. rewrite Hmark, Hstar.
    cbn [flush_group app re.match_nodes re.match_atoms fold_case].
    rewrite string_app_cons.
    destruct s as [|d s]; [done|].
    cbn [fold_case String.eqb]. unfold re.char_eq.
    rewrite (Ascii.eqb_sym (re.lower d)).
    destruct (Ascii.eqb (re.lower c) (re.lower d)); [by apply IH | done].
Qed.

(** X15: a link rule whose pattern has no wildcard matches exactly the
    tags that are its pattern up to the case of ASCII letters, with or
    without one newline at the end; there is no group to substitute, so
    every such tag gets the link template as it is and the title template
    with its underscores replaced by spaces. *)
Theorem rule_without_wildcards_links_as_written
    (pattern link title : string) :
  no_wildcard pattern = true →
  ∃ rule,
    TagStatLink.init pattern link title = Some rule
    ∧ ∀ tag,
        TagStatLink.matches rule tag
        = String.eqb (fold_case tag) (fold_case pattern)
          || String.eqb (fold_case tag) (fold_case pattern +:+ String re.newline "")
        ∧ TagStatLink.get_link rule tag
          = if TagStatLink.matches rule tag
            then Some (link, Str.replace "_" " " title)
            else None.
Proof.
  intros Hp. unfold TagStatLink.init. rewrite get_match_regexp_compiles. cbn.
  eexists. split; [done|]. intros tag. split.
  - rewrite matches_found. cbn [TagStatLink._regexp]. rewrite match_anchored.
    by apply literal_match.
  - rewrite matches_get_link. unfold TagStatLink.get_link.
    cbn [TagStatLink._regexp TagStatLink._link TagStatLink._title].
    destruct (re.match_ _ tag) as [groups|] eqn:Hm; [|done].
    rewrite match_anchored in Hm.
    destruct (match_nodes_groups _ _ _ _ _ _ Hm) as (captured & -> & Hlen & _).
    rewrite groups_of_app in Hlen. cbn in Hlen.
    rewrite app_nil_r, wildcards_length_nodes, (no_wildcard_wildcards _ Hp) in Hlen.
    by destruct captured.
Qed.

Lemma rule_without_wildcards_links_as_written_witness :
  ∃ rule,
    TagStatLink.init "smoke" "http://x/%1" "Smoke_tests" = Some rule
    ∧ TagStatLink.get_link rule "SMOKE" = Some ("http://x/%1", "Smoke tests")
    ∧ TagStatLink.get_link rule "smoked" = None.
Proof.
  destruct (rule_without_wildcards_links_as_written "smoke" "http://x/%1" "Smoke_tests"
              eq_refl) as (rule & Hinit & Hrule).
  exists rule. split; [done|].
  destruct (Hrule "SMOKE") as [Hm1 ->], (Hrule "smoked") as [Hm2 ->].
  rewrite Hm1, Hm2. by vm_compute.
Defined.

(** ** Placeholders that [_replace_groups] cannot tell apart *)

Lemma replace_no_percent (placeholder group text : string) :
  no_percent text = true →
  Str.replace (String "%" placeholder) group text = text.
Proof.
  unfold Str.replace. induction text as [|c text IH]; [done|].
  cbn [no_percent]. intros [Hc Htext]%andb_true_iff. apply negb_true_iff in Hc.
  cbn [Str.replace_scan Str.startswith].
  rewrite (Ascii.eqb_sym "%"%char c), Hc. cbn. by rewrite IH.
Qed.

Lemma replace_each_no_percent (index : nat) (groups : list string) (text : string) :
  no_percent text = true → replace_each index groups text = text.
Proof.
  revert index. induction groups as [|group groups IH]; intros index Htext; [done|].
  cbn [replace_each]. rewrite string_app_cons, string_app_nil_l.
  by rewrite replace_no_percent, IH.
Qed.

(** X16: [_replace_groups] has no placeholder for a tenth group: the
    round of the first group replaces the [%1] at the start of [%10], so
    the template [%10] becomes the first group followed by the character
    [0] (the first group being a text without [%]), whatever the other
    groups are. *)
Theorem tenth_placeholder_takes_the_first_group
    (first : string) (others : list string) (title : string) :
  no_percent first = true →
  fst (TagStatLink._replace_groups "%10" title (first :: others)) = first +:+ "0".
Proof.
  intros Hfirst. unfold TagStatLink._replace_groups.
  rewrite replace_groups_from_each. cbn [fst replace_each].
  change (Str.replace ("%" +:+ Str.str (0 + 1)) first "%10") with (first +:+ "0").
  apply replace_each_no_percent. by rewrite no_percent_app, Hfirst.
Qed.

Lemma tenth_placeholder_takes_the_first_group_witness :
  fst (TagStatLink._replace_groups "%10" ""
         ["a"; "b"; "c"; "d"; "e"; "f"; "g"; "h"; "i"; "j"]) = "a0".
Proof.
  exact (tenth_placeholder_takes_the_first_group "a"
           ["b"; "c"; "d"; "e"; "f"; "g"; "h"; "i"; "j"] "" eq_refl).
Defined.

(** ** The rule that matches every tag *)

Lemma star_any_greedy {R} (s : string) (k : string → option R) :
  no_newline s = true → is_Some (k "") → re.star_any s k = k "".
Proof.
  intros Hs Hk. induction s as [|c s IH]; [done|].
  cbn [no_newline] in Hs. apply andb_true_iff in Hs as [Hc Hs].
  apply negb_true_iff in Hc. cbn [re.star_any]. rewrite Hc, (IH Hs).
  by destruct Hk as [r ->].
Qed.

(** X17: the pattern [*] matches every tag that holds no newline and
    captures the whole tag, so its link is the link template with every
    [%1] replaced by the tag, and its title the title template with
    underscores replaced by spaces and then [%1] by the tag. *)
Theorem star_rule_captures_the_whole_tag (link title tag : string) :
  no_newline tag = true →
  ∃ rule,
    TagStatLink.init "*" link title = Some rule
    ∧ re.match_ (TagStatLink._regexp rule) tag = Some [tag]
    ∧ TagStatLink.get_link rule tag
      = Some (Str.replace "%1" tag link,
              Str.replace "%1" tag (Str.replace "_" " " title)).
Proof.
  intros Htag. unfold TagStatLink.init. rewrite get_match_regexp_compiles. cbn.
  eexists. split; [done|].
  assert (re.match_ (re.mk [re.Bol; re.Group [re.AnyStar]; re.Eol] true) tag
          = Some [tag]) as Hm.
  { unfold re.match_. cbn [re.nodes re.ignorecase re.match_nodes re.match_atoms].
    rewrite Nat.eqb_refl.
    rewrite star_any_greedy; [|done|by cbn].
    cbn. pose proof (consumed_prefix tag "") as Hall.
    rewrite string_app_nil_r in Hall. by rewrite Hall. }
  split; [exact Hm|].
  unfold TagStatLink.get_link. cbn [TagStatLink._regexp TagStatLink._link TagStatLink._title].
  change (pattern_nodes "*") with [re.Group [re.AnyStar]]. cbn [app].
  by rewrite Hm.
Qed.

Lemma star_rule_captures_the_whole_tag_witness :
  ∃ rule,
    TagStatLink.init "*" "http://x/?tag=%1" "Tag_%1" = Some rule
    ∧ TagStatLink.get_link rule "smoke" = Some ("http://x/?tag=smoke", "Tag smoke").
Proof.
  destruct (star_rule_captures_the_whole_tag "http://x/?tag=%1" "Tag_%1" "smoke" eq_refl)
    as (rule & Hinit & _ & Hlink).
  exists rule. split; [done|]. rewrite Hlink. by vm_compute.
Defined.

(** ** The wrapper that [build] seeds *)

Section WrapperTheorems.
Context {TP : Type} `{!TagPatternsOps TP} `{!NormalizeOps}.

(** X18: [build] seeds a wrapper, a [SuiteStatistics] of the top-level
    suite itself, and the traversal merges the counters of the top-level
    suite into it.  Under every depth limit the traversal succeeds,
    allocates one object for every suite of the tree (also for the suites
    that the limit keeps out of the tree), leaves the stack of parents
    empty and the wrapper current, and the wrapper ends with the counters
    of the whole tree under the long name of the top-level suite; it has
    the root as its only child when the limit is [-1] or at least 1 and
    no child otherwise, which is when [suites[0]] fails. *)
Theorem wrapper_holds_the_counts_of_the_tree
    (store : list SuiteStatistics.t) (tags : TagStatistics.t TP) (level : Z)
    (suite : TestSuite.t) :
  seeded tags →
  let wrapper := length store in
  let attach := (level =? -1) || (0 <? level) in
  ∃ b',
    StatisticsBuilder.visit_suite suite
      (StatisticsBuilder.mk (store ++ [SuiteStatistics.init suite]) tags [] level
         (Some wrapper) None)
    = Some b'
    ∧ StatisticsBuilder.build (StatisticsBuilder.init store tags level) suite
      = (if attach then Some (S wrapper, b') else None)
    ∧ StatisticsBuilder._parents b' = []
    ∧ StatisticsBuilder._current_suite_stat b' = Some wrapper
    ∧ length (StatisticsBuilder.store b') = (length store + 1 + suite_count suite)%nat
    ∧ StatisticsBuilder.store b' !! wrapper
      = Some (SuiteStatistics.mk (SuiteStat_of any_test suite)
                (SuiteStat_of is_marked_critical suite)
                (if attach then [S wrapper] else [])).
Proof.
  intros Hseeded wrapper attach.
  set (b1 := StatisticsBuilder.mk _ _ _ _ _ _).
  assert (ready b1 wrapper (SuiteStatistics.init suite)) as Hready.
  { unfold ready, b1. cbn. split_and!; try done. by apply list_lookup_middle. }
  destruct (visit_suite_visited suite b1 _ _ Hready) as (b' & Hvisit & Hv & _).
  destruct Hv as (Hlen & Hparents & _ & _ & _ & Hc & Hobj & _).
  exists b'. split; [done|].
  assert (StatisticsBuilder.store b' !! wrapper
          = Some (SuiteStatistics.mk (SuiteStat_of any_test suite)
                    (SuiteStat_of is_marked_critical suite)
                    (if attach then [S wrapper] else []))) as Hwrapper.
  { rewrite Hobj. f_equal. unfold counted, grown. cbn [SuiteStatistics.init
      SuiteStatistics.all SuiteStatistics.critical SuiteStatistics.suites].
    rewrite (SuiteStat_of_counted suite any_test _ _ eq_refl eq_refl).
    rewrite (SuiteStat_of_counted suite is_marked_critical _ _ eq_refl eq_refl).
    f_equal. unfold b1. cbn [StatisticsBuilder._suite_stat_level StatisticsBuilder._parents
                              StatisticsBuilder.store length app].
    unfold attached. cbn [Z.of_nat]. fold attach.
    rewrite length_app. cbn [length].
    replace (length store + 1)%nat with (S wrapper) by (unfold wrapper; lia).
    done. }
  split_and!; try done.
  - unfold StatisticsBuilder.build. cbn. fold wrapper. fold b1. rewrite Hvisit. cbn.
    rewrite Hc. cbn. rewrite Hwrapper. cbn. by destruct attach.
  - rewrite Hlen. unfold b1. cbn. rewrite length_app. cbn. lia.
Qed.
End WrapperTheorems.

Section WrapperSample.
#[local] Existing Instance Sample.exact_patterns.
#[local] Existing Instance Sample.normal_keys.

Lemma wrapper_holds_the_counts_of_the_tree_witness :
  ∃ tags b' wrapper,
    Sample.tag_stats = Some tags
    ∧ StatisticsBuilder.visit_suite Sample.tree
        (StatisticsBuilder.mk [SuiteStatistics.init Sample.tree] tags [] 0 (Some 0%nat) None)
      = Some b'
    ∧ StatisticsBuilder.build (StatisticsBuilder.init [] tags 0) Sample.tree = None
    ∧ StatisticsBuilder.store b' !! 0%nat = Some wrapper
    ∧ SuiteStat.total (SuiteStatistics.all wrapper) = 5
    ∧ SuiteStatistics.suites wrapper = [].
Proof.
  destruct sample_tags_seeded as (tags & Htags & Hseeded).
  destruct (wrapper_holds_the_counts_of_the_tree [] tags 0 Sample.tree Hseeded)
    as (b' & Hvisit & Hbuild & _ & _ & _ & Hwrapper).
  exists tags, b', (SuiteStatistics.mk (SuiteStat_of any_test Sample.tree)
                      (SuiteStat_of is_marked_critical Sample.tree) []).
  split_and!; done.
Defined.
End WrapperSample.

(** ** The order of iteration is fixed by the entries *)

Lemma StronglySorted_strict {A B} (R R' : A → A → Prop) (f : A → B) (l : list A) :
  (∀ a b, R a b → f a ≠ f b → R' a b) →
  NoDup (List.map f l) → StronglySorted R l → StronglySorted R' l.
Proof.
  intros Hstrict Hnodup Hsorted.
  induction Hsorted as [|x l Hl IH Hx]; constructor.
  - apply IH. cbn in Hnodup. by apply NoDup_cons_1_2 in Hnodup.
  - cbn in Hnodup. apply NoDup_cons_1_1 in Hnodup.
    rewrite Forall_forall in Hx |- *. intros y Hy.
    apply Hstrict; [by apply Hx|].
    intros Heq. apply Hnodup. rewrite Heq.
    apply list_elem_of_In, in_map, list_elem_of_In, Hy.
Qed.

Lemma NoDup_map_inj {A B} (f : A → B) (l : list A) (a b : A) :
  NoDup (List.map f l) → a ∈ l → b ∈ l → f a = f b → a = b.
Proof.
  induction l as [|x l IH]; [by intros _ ?%elem_of_nil|].
  cbn. intros Hnodup Ha Hb Heq.
  pose proof (NoDup_cons_1_1 _ _ Hnodup) as Hx.
  pose proof (NoDup_cons_1_2 _ _ Hnodup) as Hl.
  assert (∀ y, y ∈ l → f y ≠ f x) as Hfresh.
  { intros y Hy Hyx. apply Hx. rewrite <- Hyx.
    apply list_elem_of_In, in_map, list_elem_of_In, Hy. }
  apply elem_of_cons in Ha as [->|Ha], Hb as [->|Hb]; try done.
  - by destruct (Hfresh b Hb).
  - by destruct (Hfresh a Ha).
  - by apply IH.
Qed.

(** Two sorted arrangements of the same elements are equal when no two
    different elements are below each other. *)
Lemma sorted_permutation_unique {A} (R : A → A → Prop) (xs ys : list A) :
  (∀ x y, x ∈ xs → y ∈ ys → R x y → R y x → x = y) →
  StronglySorted R xs → StronglySorted R ys → Permutation xs ys → xs = ys.
Proof.
  intros Hanti Hxs. revert ys Hanti.
  induction Hxs as [|x xs Hxs IH Hx]; intros ys Hanti Hys Hperm.
  - apply Permutation_nil in Hperm. by subst.
  - destruct Hys as [|y ys Hys Hy].
    { symmetry in Hperm. by apply Permutation_nil in Hperm. }
    assert (x = y) as Hhead.
    { assert (y ∈ x :: xs) as Hyin by (rewrite Hperm; by left).
      assert (x ∈ y :: ys) as Hxin by (rewrite <- Hperm; by left).
      apply elem_of_cons in Hyin as [Heq|Hyin]; [done|].
      apply elem_of_cons in Hxin as [Heq|Hxin]; [done|].
      rewrite Forall_forall in Hx, Hy.
      apply Hanti; [by left | by left | by apply Hx | by apply Hy]. }
    subst y. f_equal. apply IH; [|done|by apply Permutation_cons_inv in Hperm].
    intros a b Ha Hb. apply Hanti; by right.
Qed.

Lemma TagStat_cmp_names (a b : TagStat.t) :
  cmp_le TagStat.cmp a b → TagStat.name a ≠ TagStat.name b → TagStat.cmp a b = Lt.
Proof.
  unfold cmp_le. rewrite TagStat_cmp_rank.
  destruct (Nat.compare (rank a) (rank b)); try done.
  destruct (String.compare (TagStat.name a) (TagStat.name b)) eqn:Hcmp; try done.
  apply String.compare_eq_iff in Hcmp. done.
Qed.

Section IterationOrder.
Context {TP : Type} `{!TagPatternsOps TP} `{!NormalizeOps}.

Lemma entry_names_nodup (stats : gmap string TagStat.t) :
  map_Forall entry_ok stats →
  NoDup (List.map TagStat.name (List.map snd (map_to_list stats))).
Proof.
  intros Hok. rewrite List.map_map.
  apply (NoDup_fmap_1 normalize).
  replace (normalize <$> List.map (fun x => TagStat.name (snd x)) (map_to_list stats))
    with ((map_to_list stats).*1); [apply NoDup_fst_map_to_list|].
  assert (Forall (fun kv => entry_ok (fst kv) (snd kv)) (map_to_list stats)) as Hall.
  { apply Forall_forall. intros [key stat] Hin.
    apply elem_of_map_to_list in Hin. by apply (Hok _ _ Hin). }
  induction Hall as [|[key stat] l [_ Hkey] _ IH]; [done|].
  cbn in *. by rewrite <- Hkey, IH.
Qed.

(** X19: the order in which [TagStatistics] iterates is fixed by its
    entries alone: whatever the configuration and whatever tests were
    counted, no two entries have the same name, so [TagStat.__cmp__]
    never answers 0 for two of them and the sorted sequence is strictly
    ascending; the order in which the dictionary holds the entries plays
    no part. *)
Theorem iteration_order_has_no_ties
    (include exclude : patterns_arg) (combine : list (string * option string))
    (docs : list (string * string)) (links : list (string * string * string))
    (items : list (Test.t * Criticality)) :
  ∃ tags0 tags' : TagStatistics.t TP,
    TagStatistics.init include exclude combine docs links = Some tags0
    ∧ add_tests items tags0 = Some tags'
    ∧ NoDup (List.map TagStat.name (TagStatistics.iter tags'))
    ∧ StronglySorted (fun a b => TagStat.cmp a b = Lt) (TagStatistics.iter tags')
    ∧ ∀ others,
        Permutation others (TagStatistics.iter tags') →
        StronglySorted (cmp_le TagStat.cmp) others →
        others = TagStatistics.iter tags'.
Proof.
  destruct (tag_statistics_init_seeded include exclude combine docs links)
    as (tags0 & Hinit & Hseeded).
  assert (map_Forall entry_ok (TagStatistics.stats tags0)) as Hok0.
  { unfold TagStatistics.init in Hinit.
    destruct (TagStatInfo.init docs links) as [info|]; [|done].
    cbn in Hinit. injection Hinit as <-. cbn.
    apply create_combined_loop_ok, map_Forall_empty. }
  destruct (add_tests_seeded items tags0 Hseeded Hok0) as (tags' & Hadd & _ & Hok).
  exists tags0, tags'. split; [done|]. split; [done|].
  assert (NoDup (List.map TagStat.name (TagStatistics.iter tags'))) as Hnodup.
  { rewrite (Permutation_map TagStat.name (iter_perm tags')).
    exact (entry_names_nodup _ Hok). }
  split; [done|].
  assert (StronglySorted (fun a b => TagStat.cmp a b = Lt) (TagStatistics.iter tags'))
    as Hstrict.
  { eapply (StronglySorted_strict _ _ TagStat.name); [|exact Hnodup|apply iter_sorted_cmp].
    intros a b. apply TagStat_cmp_names. }
  split; [done|].
  intros others Hperm Hsorted.
  apply (sorted_permutation_unique (cmp_le TagStat.cmp));
    [|done|apply iter_sorted_cmp|done].
  intros a b Ha Hb Hab Hba. rewrite Hperm in Ha.
  eapply (NoDup_map_inj TagStat.name); [exact Hnodup|done|done|].
  destruct (decide (TagStat.name a = TagStat.name b)) as [|Hne]; [done|].
  pose proof (TagStat_cmp_names a b Hab Hne) as Hlt.
  unfold cmp_le in Hba. rewrite TagStat_cmp_antisym, Hlt in Hba. done.
Qed.
End IterationOrder.

(** ** The counts of a whole run *)

Section RunTotals.
Context {TP : Type} `{!TagPatternsOps TP} `{!NormalizeOps}.
Implicit Types (self : TagStatistics.t TP) (test : Test.t).

Lemma key_hits_fields self self' items key :
  TagStatistics._include self' = TagStatistics._include self →
  TagStatistics._exclude self' = TagStatistics._exclude self →
  TagStatistics._combine self' = TagStatistics._combine self →
  key_hits self' items key = key_hits self items key.
Proof.
  intros Hi He Hc. unfold key_hits, literal_hits. rewrite Hc. f_equal.
  apply List.map_ext. intros [test critical]. cbn [fst]. f_equal. f_equal.
  apply List.filter_ext. intros tag. by rewrite (is_included_fields self self' tag).
Qed.

Lemma key_hits_cons self test (critical : Criticality) items key :
  key_hits self ((test, critical) :: items) key
  = (literal_hits self test key
     + combined_hits (TagStatistics._combine self) test key
     + key_hits self items key)%nat.
Proof. reflexivity. Qed.

Lemma first_spelling_hits self test key :
  match first_spelling self test key with
  | Some _ => (1 ≤ literal_hits self test key)%nat
  | None => literal_hits self test key = 0%nat
  end.
Proof.
  unfold first_spelling, literal_hits.
  destruct (List.filter _ (Test.tags test)); cbn; [done | lia].
Qed.

(** X20: the total of every entry after a run of tests.  From seeded tag
    statistics, counting a list of tests succeeds, and the entry of a key
    has grown by the number of times the tests were counted into it:
    once for every tag of a test that passes the filters and is filed
    under the key (a tag written twice counts twice) and once for every
    combined tag filed there that matches the test.  A key that had no
    entry has one afterwards exactly when that number is not zero, and
    its total is that number. *)
Theorem tag_totals_count_the_hits self (items : list (Test.t * Criticality)) :
  seeded self →
  ∃ self',
    add_tests items self = Some self'
    ∧ ∀ key,
        TagStat.total <$> TagStatistics.stats self' !! key
        = match TagStatistics.stats self !! key with
          | Some before => Some (TagStat.total before + Z.of_nat (key_hits self items key))
          | None =>
              if (key_hits self items key =? 0)%nat then None
              else Some (Z.of_nat (key_hits self items key))
          end.
Proof.
  revert self. induction items as [|[test critical] items IH]; intros self Hseeded.
  - exists self. split; [done|]. intros key. unfold key_hits. cbn.
    destruct (TagStatistics.stats self !! key); cbn; [|done]. f_equal. lia.
  - destruct (add_test_lookup self test critical Hseeded)
      as (self1 & Hadd & Hi & He & _ & Hc & Hlook).
    assert (seeded self1) as Hseeded1.
    { destruct (add_test_seeded self test critical Hseeded) as (s & Hs & Hseeded1).
      congruence. }
    destruct (IH self1 Hseeded1) as (self' & Hrest & Htotals).
    exists self'. split; [cbn [add_tests]; by rewrite Hadd|].
    intros key. rewrite (Htotals key), (key_hits_fields self self1 items key Hi He Hc).
    rewrite !key_hits_cons.
    destruct (TagStatistics.stats self !! key) as [before|] eqn:Hkey.
    + rewrite (Hlook _ _ Hkey), add_test_times_total. f_equal. lia.
    + rewrite (add_test_fresh_key self test critical self1 key Hseeded Hadd Hkey).
      rewrite (combined_hits_absent self test key Hseeded Hkey).
      pose proof (first_spelling_hits self test key) as Hhits.
      destruct (first_spelling self test key) as [tag|]; cbn [fmap option_fmap option_map].
      * rewrite add_test_times_total.
        destruct (Nat.eqb_spec (literal_hits self test key + 0 + key_hits self items key) 0);
          [lia|].
        f_equal. unfold TagStat.total, Stat.total, TagStat.init, Stat.init.
        cbn [TagStat.base Stat.passed Stat.failed]. lia.
      * rewrite Hhits. done.
Qed.
End RunTotals.

Section RunSample.
#[local] Existing Instance Sample.exact_patterns.
#[local] Existing Instance Sample.normal_keys.

Lemma tag_totals_count_the_hits_witness :
  ∃ tags tags',
    TagStatistics.init PNone (PStr "slow") [("smoke", Some "Smoke or slow")] [] []
    = Some tags
    ∧ add_tests (tagged_tests Sample.tree) tags = Some tags'
    ∧ (TagStat.total <$> TagStatistics.stats tags' !! "smoke") = Some 3
    ∧ (TagStat.total <$> TagStatistics.stats tags' !! "smokeorslow") = Some 3
    ∧ (TagStat.total <$> TagStatistics.stats tags' !! "slow") = None.
Proof.
  destruct (tag_statistics_init_seeded (TP := list string) PNone (PStr "slow")
              [("smoke", Some "Smoke or slow")] [] []) as (tags & Hinit & Hseeded).
  destruct (tag_totals_count_the_hits tags (tagged_tests Sample.tree) Hseeded)
    as (tags' & Hadd & Htotals).
  exists tags, tags'. split; [done|]. split; [done|].
  rewrite !Htotals.
  vm_compute in Hinit. injection Hinit as <-.
  split_and!; vm_compute; reflexivity.
Defined.
End RunSample.

(** ** The shape of the captured groups *)

Lemma nodes_span_groups (ic : bool) (l : list re.node) (text : string)
    (groups : list string) :
  nodes_span ic l text groups → Forall2 (spans ic) (groups_of l) groups.
Proof.
  revert text groups. induction l as [|n l IH]; intros text groups; cbn [nodes_span].
  - intros [_ ->]. constructor.
  - destruct n as [a|body| |]; try done.
    + intros (pre & rest & _ & _ & Hrest). by eapply IH.
    + intros (pre & rest & groups' & _ & Hbody & -> & Hrest).
      change (groups_of (re.Group body :: l)) with (body :: groups_of l).
      constructor; [done | by eapply IH].
Qed.

Lemma no_newline_app (a b : string) :
  no_newline (a +:+ b) = no_newline a && no_newline b.
Proof.
  induction a as [|x a IH]; [done|]. rewrite string_app_cons. cbn.
  by rewrite IH, andb_assoc.
Qed.

Lemma spans_wildcard_group (ic : bool) (w : wildcard) (group : string) :
  spans ic (wildcard_group w) group → captures w group.
Proof.
  destruct w as [|n]; cbn [wildcard_group].
  - cbn [spans]. intros (pre & rest & -> & Hpre & ->).
    split; [|done]. by rewrite no_newline_app, Hpre.
  - revert group. induction n as [|n IH]; intros group; cbn [repeat spans].
    + by intros ->.
    + intros (d & rest & -> & Hd & Hrest). destruct (IH rest Hrest) as [Hnl Hlen].
      split; cbn; [by rewrite Hd | by rewrite Hlen].
Qed.

Lemma Forall2_map_l {A B C} (P : B → C → Prop) (f : A → B) (l : list A) (k : list C) :
  Forall2 P (List.map f l) k → Forall2 (fun x y => P (f x) y) l k.
Proof.
  revert k. induction l as [|x l IH]; intros k Hall; inversion Hall; subst; constructor;
    [done | by apply IH].
Qed.

(** X21: when a link rule matches a tag, the groups it captures are one
    per wildcard of the pattern, in order; the group of a run of [n]
    question marks is exactly [n] characters long, and no group holds a
    newline. *)
Theorem groups_have_the_shape_of_their_wildcards
    (pattern link title tag : string) (groups : list string) :
  (rule ← TagStatLink.init pattern link title;
   re.match_ (TagStatLink._regexp rule) tag) = Some groups →
  Forall2 captures (wildcards pattern) groups.
Proof.
  unfold TagStatLink.init. rewrite get_match_regexp_compiles.
  cbn [mbind option_bind TagStatLink._regexp].
  rewrite match_anchored. intros Hm.
  destruct (match_nodes_sound _ _ _ _ _ _ (pattern_nodes_no_anchor 0 pattern) Hm)
    as (text & rest & captured & _ & _ & Hspan & ->).
  cbn [app]. apply nodes_span_groups in Hspan.
  unfold pattern_nodes in Hspan. rewrite groups_of_pattern_nodes in Hspan.
  apply Forall2_map_l in Hspan. fold (wildcards pattern) in Hspan.
  eapply Forall2_impl; [exact Hspan|].
  intros w group. apply spans_wildcard_group.
Qed.

Lemma groups_have_the_shape_of_their_wildcards_witness :
  Forall2 captures (wildcards "bug-??-*") ["12"; "open"].
Proof.
  apply (groups_have_the_shape_of_their_wildcards "bug-??-*" "" "" "BUG-12-open").
  by vm_compute.
Defined.
